(** * congen: constituent generator (libcongen.cc)

    A shallow embedding of the numerical core of [libcongen.cc] and of its
    catalog parser [parseLegacyInput].

    - [Congen::time_t] (int64_t) is a [Z] with the two's-complement
      wrap-around written out.
    - [double] is Rocq's primitive binary64 [float]; the operations of the
      C math library that have no primitive counterpart (sin, cos, tan,
      asin, acos, atan2, pow) are the fields of the class [Libm].
    - [assert] is a partial function: [None] is an assertion failure.
    - [std::istream] is the list of the characters still to be read together
      with the eofbit and the failbit. *)

From Stdlib Require Import ZArith List Bool Lia Floats String Ascii DecimalString.
Import ListNotations.

Set Warnings "-inexact-float".

Local Open Scope Z_scope.

(** ** Assertions *)

Module Assert.

Definition bind {A B : Type} (x : option A) (k : A -> option B) : option B :=
  match x with
  | Some a => k a
  | None => None
  end.

Definition assert (b : bool) : option unit :=
  if b then Some tt else None.

End Assert.

Notation "x <- c ;; k" := (Assert.bind c (fun x => k))
  (at level 61, c at next level, right associativity).
Notation "'assert!' b ;; k" := (Assert.bind (Assert.assert b) (fun _ => k))
  (at level 61, b at next level, right associativity).

(** ** 64-bit integers *)

Module Int64.

Definition modulus : Z := 2 ^ 64.
Definition half_modulus : Z := 2 ^ 63.

(** The value of [z] reduced to a signed 64-bit word. *)
Definition wrap (z : Z) : Z :=
  (z + half_modulus) mod modulus - half_modulus.

Definition add (a b : Z) : Z := wrap (a + b).
Definition sub (a b : Z) : Z := wrap (a - b).
Definition mul (a b : Z) : Z := wrap (a * b).
(** C++ integer division truncates toward zero. *)
Definition div (a b : Z) : Z := wrap (Z.quot a b).

Definition in_range (z : Z) : Prop := - half_modulus <= z < half_modulus.

End Int64.

(** ** Time and calendar primitives *)

(** [Congen::year_t] is declared in the header <Congen>; every use of a
    year in [libcongen.cc] is guarded by the assertions modelled below, so a
    year is a [Z] here.  [year/4 - year/100 + year/400] is computed on the
    year's own unsigned type, where it cannot wrap for a year that passed
    the assertions; the products and sums with [long long] operands are
    64-bit. *)
Definition year_t : Type := Z.

Definition time_t : Type := Z.

Definition startYear (year : year_t) : option time_t :=
  assert! (0 <? year) ;;
  assert! (year <=? 4001) ;;
  let year := year - 1 in
  Some (Int64.add
          (Int64.add (-62135596800) (Int64.mul year 31536000))
          (Int64.mul (Z.quot year 4 - Z.quot year 100 + Z.quot year 400) 86400)).

Definition midYear (year : year_t) : option time_t :=
  assert! (0 <? year) ;;
  assert! (year <=? 4000) ;;
  t0 <- startYear year ;;
  t1 <- startYear (year + 1) ;;
  Some (Int64.div (Int64.add t0 t1) 2).

(** ** Doubles *)

Module Dbl.

Local Open Scope float_scope.

(** Conversion of an integer to [double]: the nearest binary64 value. *)
Definition of_Z (z : Z) : float :=
  SF2Prim (binary_normalize prec emax z 0%Z false).

Definition is_zero (x : float) : bool := (x =? 0).

Definition is_finite (x : float) : bool :=
  match Prim2SF x with
  | S754_zero _ | S754_finite _ _ _ => true
  | S754_infinity _ | S754_nan => false
  end.

(** [fmod]: the remainder of the truncating division, which IEEE 754 and
    C11 F.10.7.1 define exactly; it carries the sign of [x]. *)
Definition fmod (x y : float) : float :=
  match Prim2SF x, Prim2SF y with
  | S754_nan, _ | _, S754_nan => nan
  | S754_infinity _, _ => nan
  | _, S754_zero _ => nan
  | S754_zero _, _ => x
  | S754_finite _ _ _, S754_infinity _ => x
  | S754_finite sx mx ex, S754_finite _ my ey =>
      let e := Z.min ex ey in
      let ax := (Zpos mx * 2 ^ (ex - e))%Z in
      let ay := (Zpos my * 2 ^ (ey - e))%Z in
      let r := Z.rem ax ay in
      if (r =? 0)%Z then (if sx then PrimFloat.neg_zero else PrimFloat.zero)
      else SF2Prim (binary_normalize prec emax (cond_Zopp sx r) e false)
  end.

(** *** [printf ("%*.*f")] *)

(** [|x| * 10^decimals] rounded to an integer, ties to even, for a finite
    [x = m * 2^e]. *)
Definition scaled_round (m : positive) (e : Z) (decimals : nat) : Z :=
  let num := (Zpos m * 10 ^ Z.of_nat decimals)%Z in
  match e with
  | Zneg p =>
      let den := (2 ^ Zpos p)%Z in
      let q := (num / den)%Z in
      let r := (num mod den)%Z in
      match (2 * r ?= den)%Z with
      | Lt => q
      | Eq => if Z.even q then q else (q + 1)%Z
      | Gt => (q + 1)%Z
      end
  | _ => (num * 2 ^ e)%Z
  end.

Fixpoint repeat_string (n : nat) (c : ascii) : string :=
  match n with
  | O => EmptyString
  | S n' => String c (repeat_string n' c)
  end.

Definition digits_of (n : Z) : string :=
  DecimalString.NilZero.string_of_uint (N.to_uint (Z.to_N n)).

(** The digits of the scaled integer [n] with the decimal point put
    before the last [decimals] of them. *)
Definition fixed_point (n : Z) (decimals : nat) : string :=
  let ds := digits_of n in
  let ds := (repeat_string (S decimals - String.length ds) "0" ++ ds)%string in
  let k := (String.length ds - decimals)%nat in
  (substring 0 k ds ++ "." ++ substring k decimals ds)%string.

Definition pad_left (width : nat) (s : string) : string :=
  (repeat_string (width - String.length s) " " ++ s)%string.

(** [sprintf] of one double under [%*.*f] ([space_flag = false]) or
    [% *.*f] ([space_flag = true]). *)
Definition sprintf_f (space_flag : bool) (width decimals : nat) (x : float)
  : string :=
  let plus := if space_flag then " "%string else EmptyString in
  let sign (s : bool) := if s then "-"%string else plus in
  let body :=
    match Prim2SF x with
    | S754_zero s => (sign s ++ fixed_point 0 decimals)%string
    | S754_finite s m e =>
        (sign s ++ fixed_point (scaled_round m e decimals) decimals)%string
    | S754_infinity s => (sign s ++ "inf")%string
    | S754_nan => (plus ++ "nan")%string
    end in
  pad_left width body.

(** [strncmp (temp, prefix, length prefix) == 0]. *)
Definition starts_with (pre s : string) : bool :=
  String.eqb (substring 0 (String.length pre) s) pre.

End Dbl.

(** ** What the C and C++ run-time libraries provide *)

(** The functions of <math.h> used by [libcongen.cc] that binary64
    arithmetic does not define, and [std::valarray<double>::sum], whose
    order of summation the C++ standard leaves unspecified. *)
Class Runtime : Type := {
  sin : float -> float;
  cos : float -> float;
  tan : float -> float;
  asin : float -> float;
  acos : float -> float;
  atan2 : float -> float -> float;
  pow : float -> float -> float;
  valarray_sum : list float -> float
}.

(** ** Constants of the header <Congen> *)

(** The header <Congen> declares the sizes and the index constants of the
    coefficient vectors.  The sizes are fixed by the array literals of
    [libcongen.cc] itself (six V terms, seven u terms, thirteen compound
    bases); the positions are the fields of [Indices]. *)
Definition numVterms : nat := 6.
Definition numuterms : nat := 7.
Definition numCompoundBases : nat := 13.

Record Indices : Type := {
  p_index : nat;
  xi_index : nat;
  nu_index : nat;
  nu'_index : nat;
  nu''2_index : nat;
  Q_index : nat;
  R_index : nat;
  Qu_index : nat
}.

(** The positions as [libcongen.cc] uses them; the header <Congen> that
    declares them is not among the sources.  The V terms are in the order
    of the coefficient arrays of [V_terms]: (T, s, h, p, p1, constant).
    The u terms are in the order of the u coefficients of the Compound
    bases: O1 has (2, -1, 0, ...) for 2 xi - nu, K1 has -1 at position 2
    for - nu', K2 has -1 at position 3 for - 2nu'', L2 (whose node factor
    215 is [f78 / Ra], "R for argument of constituent L2") has -1 at
    position 5 for - R, and M1-DUTCH has -1 at position 6 for - Qu; the
    position left, 4, is that of Q, the "M1 special case" of the speed:
    (xi, nu, nu', 2nu'', Q, R, Qu). *)
Definition Congen_indices : Indices := {|
  p_index := 3;
  xi_index := 0;
  nu_index := 1;
  nu'_index := 2;
  nu''2_index := 3;
  Q_index := 4;
  R_index := 5;
  Qu_index := 6
|}.

(** ** std::valarray<double> *)

Module Valarray.

Local Open Scope float_scope.

Fixpoint map2 (op : float -> float -> float) (a b : list float) : list float :=
  match a, b with
  | x :: a', y :: b' => op x y :: map2 op a' b'
  | _, _ => []
  end.

(** [a * b], [a + b] on arrays of the same size. *)
Definition mul (a b : list float) : list float := map2 PrimFloat.mul a b.
Definition add (a b : list float) : list float := map2 PrimFloat.add a b.

(** [c * a] with a scalar [c]. *)
Definition scale (c : float) (a : list float) : list float :=
  map (fun x => c * x) a.

(** [a[i]]; reading outside the array is undefined in C++ and reads [0]
    here. *)
Definition get (a : list float) (i : nat) : float := nth i a 0.

Fixpoint set (a : list float) (i : nat) (v : float) : list float :=
  match a, i with
  | [], _ => []
  | _ :: a', O => v :: a'
  | x :: a', S i' => x :: set a' i' v
  end.

End Valarray.

(** ** Astronomical terms *)

Section Engine.

Context {RT : Runtime}.
Context (IX : Indices).

Local Open Scope float_scope.

Definition M_PI : float := 0x1.921fb54442d18p+1.
Definition M_PI_180 : float := M_PI / 180.
Definition M_180_PI : float := 180 / M_PI.
Definition daysPerJulianCentury_double : float := 36525.
Definition hoursPerJulianCentury_double : float := 876600.
Definition secondsPerJulianCentury_double : float := 3155760000.

Definition sind (degrees : float) : float := sin (degrees * M_PI_180).
Definition cosd (degrees : float) : float := cos (degrees * M_PI_180).

Definition asind (x : float) : option float :=
  assert! ((-1 <=? x) && (x <=? 1)) ;;
  Some (M_180_PI * asin x).

Definition acosd (x : float) : option float :=
  assert! ((-1 <=? x) && (x <=? 1)) ;;
  Some (M_180_PI * acos x).

Definition atan2d (y x : float) : float := atan2 y x * M_180_PI.
Definition tand (degrees : float) : float := tan (degrees * M_PI_180).
Definition cotd (degrees : float) : float := 1 / tand degrees.

Definition Table_1_T (t : time_t) : float :=
  let epoch := (-2209032000)%Z in
  Dbl.of_Z (Int64.sub t epoch) / secondsPerJulianCentury_double.

(** The four coefficient rows shared by the two term evaluators. *)
Definition poly_terms (coeff0 coeff1 coeff2 coeff3 : list float)
    (t : time_t) (derivative : Z) : option (list float) :=
  let t1 := Table_1_T t in
  let t2 := t1 * t1 in
  match derivative with
  | 0%Z =>
      Some (Valarray.add
              (Valarray.add
                 (Valarray.add coeff0 (Valarray.scale t1 coeff1))
                 (Valarray.scale t2 coeff2))
              (Valarray.scale (t2 * t1) coeff3))
  | 1%Z =>
      Some (Valarray.add
              (Valarray.add coeff1 (Valarray.scale (2 * t1) coeff2))
              (Valarray.scale (3 * t2) coeff3))
  | _ => None
  end.

Definition V_coeff0 : list float :=
  [0; 270 + 26/60 + 14.72/3600; 279 + 41/60 + 48.04/3600;
   334 + 19/60 + 40.87/3600; 281 + 13/60 + 15/3600; 1].
Definition V_coeff1 : list float :=
  [daysPerJulianCentury_double * 360; 1336 * 360 + 1108411.2/3600;
   129602768.13/3600; 11 * 360 + 392515.94/3600; 6189.03/3600; 0].
Definition V_coeff2 : list float :=
  [0; 9.09/3600; 1.089/3600; -37.24/3600; 1.63/3600; 0].
Definition V_coeff3 : list float :=
  [0; 0.0068/3600; 0; -0.045/3600; 0.012/3600; 0].

Definition V_terms (t : time_t) (derivative : Z) : option (list float) :=
  poly_terms V_coeff0 V_coeff1 V_coeff2 V_coeff3 t derivative.

Definition midyear_coeff0 : list float :=
  [259 + 10/60 + 57.12/3600; 334 + 19/60 + 40.87/3600; 281 + 13/60 + 15/3600].
Definition midyear_coeff1 : list float :=
  [-(5 * 360 + 482912.63/3600); 11 * 360 + 392515.94/3600; 6189.03/3600].
Definition midyear_coeff2 : list float :=
  [7.58/3600; -37.24/3600; 1.63/3600].
Definition midyear_coeff3 : list float :=
  [0.008/3600; -0.045/3600; 0.012/3600].

Definition midyear_terms (t : time_t) (derivative : Z) : option (list float) :=
  poly_terms midyear_coeff0 midyear_coeff1 midyear_coeff2 midyear_coeff3
    t derivative.

Definition midyear_N_index : nat := 0.
Definition midyear_p_index : nat := 1.
Definition midyear_p1_index : nat := 2.

(** ** Auxiliary angles *)

Definition omega : float := 23 + 27/60 + 8.26/3600.
Definition incl : float := 5 + 8/60 + 43.3546/3600.

Definition cos_I (N : float) : float :=
  let term1 := cosd omega * cosd incl in
  let term2 := sind omega * sind incl in
  term1 - term2 * cosd N.

Definition sin_I (N : float) : float :=
  let t := cos_I N in sqrt (1 - t * t).

Definition sin_nu (N : float) : float :=
  let multiplier := sind incl in
  multiplier * sind N / sin_I N.

Definition cos_nu (N : float) : float :=
  let t := sin_nu N in sqrt (1 - t * t).

Definition sin_Omega (N : float) : float :=
  let multiplier := sind omega in
  multiplier * sind N / sin_I N.

Definition cos_Omega (N : float) : float :=
  let multiplier := cosd omega in
  cosd N * cos_nu N + sind N * sin_nu N * multiplier.

Definition xi (N : float) : float :=
  N - atan2d (sin_Omega N) (cos_Omega N).

Definition nu (N : float) : option float := asind (sin_nu N).

Definition I (N : float) : option float := acosd (cos_I N).

Definition nu' (N : float) : option float :=
  i <- I N ;;
  let multiplier := sind (i * 2) in
  Some (atan2d (multiplier * sin_nu N) (multiplier * cos_nu N + 0.3347)).

Definition nu''2 (N : float) : option float :=
  v <- nu N ;;
  let term1 := sin_I N in
  let term2 := v * 2 in
  let term1 := term1 * term1 in
  Some (atan2d (term1 * sind term2) (term1 * cosd term2 + 0.0727)).

Definition P (p xi : float) : float := p - xi.

Definition Q (P : float) : float := atan2d (0.483 * sind P) (cosd P).

Definition Qu (P Q : float) : float := P - Q.

Definition Qa (P : float) : float := 1 / sqrt (2.31 + 1.435 * cosd (2 * P)).

Definition R (P I : float) : float :=
  let cotI2 := cotd (I / 2) in
  atan2d (sind (2 * P)) (cotI2 * cotI2 / 6 - cosd (2 * P)).

Definition Ra (P I : float) : float :=
  let term := tand (I / 2) in
  let term := term * term in
  1 / sqrt (1 - 12 * term * cosd (2 * P) + 36 * term * term).

(** ** Node factor formulas *)

Definition f73 (I : float) : float :=
  let term := sind I in (2 / 3 - term * term) / 0.5021.

Definition f74 (I : float) : float :=
  let term := sind I in term * term / 0.1578.

Definition f75 (I : float) : float :=
  let term := cosd (I / 2) in sind I * term * term / 0.38.

Definition f76 (I : float) : float := sind (2 * I) / 0.7214.

Definition f77 (I : float) : float :=
  let term := sind (I / 2) in sind I * term * term / 0.0164.

Definition f78 (I : float) : float :=
  let term := cosd (I / 2) in
  let term := term * term in
  term * term / 0.9154.

Definition f79 (I : float) : float :=
  let term := sind I in term * term / 0.1565.

Definition f144 (I : float) : float :=
  let sterm := sind (I / 2) in
  let sterm := sterm * sterm in
  let cterm := cosd (I / 2) in
  (1 - 10 * sterm + 15 * sterm * sterm) * cterm * cterm / 0.5873.

Definition f149 (I : float) : float := pow (cosd (I / 2)) 6 / 0.8758.

Definition f206 (I P : float) : float := f75 I / Qa P.

Definition f215 (I P : float) : float := f78 I / Ra P I.

Definition f227 (I nu : float) : float :=
  let term := sind (2 * I) in
  sqrt (0.8965 * term * term + 0.6001 * term * cosd nu + 0.1006).

Definition f235 (I nu : float) : float :=
  let term := sind I in
  let term := term * term in
  sqrt (19.0444 * term * term + 2.7702 * term * cosd (2 * nu) + 0.0981).

(** Dispatch to the specified formula; [f_formula] is a [uint_fast8_t]. *)
Definition f (f_formula : Z) (I P nu : float) : option float :=
  match f_formula with
  | 1%Z => Some 1
  | 73%Z => Some (f73 I)
  | 74%Z => Some (f74 I)
  | 75%Z => Some (f75 I)
  | 76%Z => Some (f76 I)
  | 77%Z => Some (f77 I)
  | 78%Z => Some (f78 I)
  | 79%Z => Some (f79 I)
  | 144%Z => Some (f144 I)
  | 149%Z => Some (f149 I)
  | 206%Z => Some (f206 I P)
  | 215%Z => Some (f215 I P)
  | 227%Z => Some (f227 I nu)
  | 235%Z => Some (f235 I nu)
  | _ => None
  end.

(** ** Constituents *)

Record Constituent : Type := {
  name : string;
  speed : float;
  Vpu : list float;
  nodes : list float
}.

(** [Constituent::Constituent ()]. *)
Definition Constituent_default : Constituent :=
  {| name := "default"; speed := 0; Vpu := []; nodes := [] |}.

(** [Constituent::resize (numYears)], also the constructor from a number
    of years. *)
Definition Constituent_zero (numYears : nat) : Constituent :=
  {| name := "zero"; speed := 0;
     Vpu := repeat 0 numYears; nodes := repeat 1 numYears |}.

(** [operator+=]. *)
Definition Constituent_add (a x : Constituent) : option Constituent :=
  assert! (List.length (Vpu a) =? List.length (Vpu x))%nat ;;
  assert! (List.length (nodes a) =? List.length (nodes x))%nat ;;
  Some {| name := "nameless";
          speed := speed a + speed x;
          Vpu := Valarray.add (Vpu a) (Vpu x);
          nodes := Valarray.mul (nodes a) (nodes x) |}.

(** [operator*=], and [operator*] which applies it to a copy. *)
Definition Constituent_scale (x : float) (c : Constituent) : Constituent :=
  {| name := "nameless";
     speed := speed c * x;
     Vpu := map (fun v => v * x) (Vpu c);
     nodes := map (fun v => pow v (abs x)) (nodes c) |}.

(** The years [firstYear .. lastYear] of the constructors' loops. *)
Definition years (firstYear lastYear : year_t) : list year_t :=
  map (fun k => (firstYear + Z.of_nat k)%Z)
      (seq 0 (Z.to_nat (lastYear - firstYear + 1))).

Fixpoint for_years {A : Type} (body : year_t -> option A) (ys : list year_t)
  : option (list A) :=
  match ys with
  | [] => Some []
  | y :: ys' =>
      a <- body y ;;
      rest <- for_years body ys' ;;
      Some (a :: rest)
  end.

(** The assertions shared by the three constructors. *)
Definition years_ok (firstYear lastYear epochForSpeed : year_t) : bool :=
  (firstYear <=? lastYear)%Z && (0 <? firstYear)%Z && (lastYear <=? 4000)%Z
  && (0 <? epochForSpeed)%Z && (epochForSpeed <=? 4000)%Z.

(** *** Basic *)

Definition Basic_speed (V_coefficients u_coefficients : list float)
    (epochForSpeed : year_t) : option float :=
  t <- startYear epochForSpeed ;;
  speeds <- V_terms t 1 ;;
  Some ((valarray_sum (Valarray.mul speeds V_coefficients)
         + Valarray.get speeds (p_index IX)
           * Valarray.get u_coefficients (Q_index IX))
        / hoursPerJulianCentury_double).

Definition Basic_year (V_coefficients u_coefficients : list float)
    (f_formula : Z) (y : year_t) : option (float * float) :=
  t0 <- startYear y ;;
  t1 <- midYear y ;;
  let u_terms := repeat 0 numuterms in
  midyear_terms_t1 <- midyear_terms t1 0 ;;
  let N_t1 := Valarray.get midyear_terms_t1 midyear_N_index in
  let p_t1 := Valarray.get midyear_terms_t1 midyear_p_index in
  I_t1 <- I N_t1 ;;
  let u_terms := Valarray.set u_terms (xi_index IX) (xi N_t1) in
  nu_t1 <- nu N_t1 ;;
  let u_terms := Valarray.set u_terms (nu_index IX) nu_t1 in
  nu'_t1 <- nu' N_t1 ;;
  let u_terms := Valarray.set u_terms (nu'_index IX) nu'_t1 in
  nu''2_t1 <- nu''2 N_t1 ;;
  let u_terms := Valarray.set u_terms (nu''2_index IX) nu''2_t1 in
  let P_t1 := P p_t1 (Valarray.get u_terms (xi_index IX)) in
  let u_terms := Valarray.set u_terms (Q_index IX) (Q P_t1) in
  let u_terms := Valarray.set u_terms (R_index IX) (R P_t1 I_t1) in
  let u_terms :=
    Valarray.set u_terms (Qu_index IX)
      (Qu P_t1 (Valarray.get u_terms (Q_index IX))) in
  V_t0 <- V_terms t0 0 ;;
  f_y <- f f_formula I_t1 P_t1 (Valarray.get u_terms (nu_index IX)) ;;
  Some (valarray_sum (Valarray.mul V_t0 V_coefficients)
        + valarray_sum (Valarray.mul u_terms u_coefficients),
        f_y).

Definition Basic (name_in : string) (V_coefficients u_coefficients : list float)
    (f_formula : Z) (firstYear lastYear epochForSpeed : year_t)
  : option Constituent :=
  assert! (years_ok firstYear lastYear epochForSpeed) ;;
  assert! (List.length V_coefficients =? numVterms)%nat ;;
  assert! (List.length u_coefficients =? numuterms)%nat ;;
  speed_ <- Basic_speed V_coefficients u_coefficients epochForSpeed ;;
  rows <- for_years (Basic_year V_coefficients u_coefficients f_formula)
            (years firstYear lastYear) ;;
  Some {| name := name_in; speed := speed_;
          Vpu := map fst rows; nodes := map snd rows |}.

(** *** Doodson *)

(** Modelled from the spec: [struct Satellite] is declared in the header
    <Congen>, which is not among the sources.  The three multipliers are
    small integers, the phase offset and the amplitude ratio are reals. *)
Record Satellite : Type := {
  dp : Z;
  dN : Z;
  dp1 : Z;
  alpha : float;
  r : float
}.

Definition satellite_sums (N_t1 p_t1 p1_t1 : float) (satellites : list Satellite)
  : float * float :=
  fold_left
    (fun '(cossum, sinsum) it =>
       let satangle :=
         Dbl.of_Z (dp it) * p_t1 + Dbl.of_Z (dN it) * N_t1
         + Dbl.of_Z (dp1 it) * p1_t1 + alpha it in
       (cossum + r it * cosd satangle, sinsum + r it * sind satangle))
    satellites (1, 0).

Definition Doodson_year (V_coefficients : list float)
    (satellites : list Satellite) (y : year_t) : option (float * float) :=
  t0 <- startYear y ;;
  t1 <- midYear y ;;
  midyear_terms_t1 <- midyear_terms t1 0 ;;
  let N_t1 := Valarray.get midyear_terms_t1 midyear_N_index in
  let p_t1 := Valarray.get midyear_terms_t1 midyear_p_index in
  let p1_t1 := Valarray.get midyear_terms_t1 midyear_p1_index in
  let '(cossum, sinsum) := satellite_sums N_t1 p_t1 p1_t1 satellites in
  V_t0 <- V_terms t0 0 ;;
  Some (valarray_sum (Valarray.mul V_t0 V_coefficients) + atan2d sinsum cossum,
        sqrt (sinsum * sinsum + cossum * cossum)).

Definition Doodson (name_in : string) (V_coefficients : list float)
    (satellites : list Satellite) (firstYear lastYear epochForSpeed : year_t)
  : option Constituent :=
  assert! (years_ok firstYear lastYear epochForSpeed) ;;
  assert! (List.length V_coefficients =? numVterms)%nat ;;
  t <- startYear epochForSpeed ;;
  speeds <- V_terms t 1 ;;
  let speed_ :=
    valarray_sum (Valarray.mul speeds V_coefficients)
    / hoursPerJulianCentury_double in
  rows <- for_years (Doodson_year V_coefficients satellites)
            (years firstYear lastYear) ;;
  Some {| name := name_in; speed := speed_;
          Vpu := map fst rows; nodes := map snd rows |}.

(** *** Compound *)

(** The function-local statics of the Compound constructor. *)
Record Cache : Type := {
  firstYear_cached : year_t;
  lastYear_cached : year_t;
  epochForSpeed_cached : year_t;
  terms : list Constituent
}.

Definition Cache_initial : Cache :=
  {| firstYear_cached := 0%Z; lastYear_cached := 0%Z;
     epochForSpeed_cached := 0%Z;
     terms := repeat Constituent_default numCompoundBases |}.

(** The thirteen bases in the order of their assignments, which is the
    order of the base vector (O1_index = 0, K1_index = 1, ...,
    lambda2_index = 12): name, V coefficients, u coefficients, formula. *)
Definition base_table : list (string * list float * list float * Z) :=
  [ ("O₁"%string,       [1; -2; 1; 0; 0; 90],   [2; -1; 0; 0; 0; 0; 0],   75%Z);
    ("K₁"%string,       [1; 0; 1; 0; 0; -90],   [0; 0; -1; 0; 0; 0; 0],   227%Z);
    ("P₁"%string,       [1; 0; -1; 0; 0; 90],   [0; 0; 0; 0; 0; 0; 0],    1%Z);
    ("M₂"%string,       [2; -2; 2; 0; 0; 0],    [2; -2; 0; 0; 0; 0; 0],   78%Z);
    ("S₂"%string,       [2; 0; 0; 0; 0; 0],     [0; 0; 0; 0; 0; 0; 0],    1%Z);
    ("N₂"%string,       [2; -3; 2; 1; 0; 0],    [2; -2; 0; 0; 0; 0; 0],   78%Z);
    ("L₂"%string,       [2; -1; 2; -1; 0; 180], [2; -2; 0; 0; 0; -1; 0],  215%Z);
    ("K₂"%string,       [2; 0; 2; 0; 0; 0],     [0; 0; 0; -1; 0; 0; 0],   235%Z);
    ("Q₁"%string,       [1; -3; 1; 1; 0; 90],   [2; -1; 0; 0; 0; 0; 0],   75%Z);
    ("ν₂"%string,      [2; -3; 4; -1; 0; 0],   [2; -2; 0; 0; 0; 0; 0],   78%Z);
    ("S₁"%string,       [1; 0; 0; 0; 0; 0],     [0; 0; 0; 0; 0; 0; 0],    1%Z);
    ("M₁-DUTCH"%string, [1; -1; 1; 1; 0; -90],  [0; -1; 0; 0; 0; 0; -1],  206%Z);
    ("λ₂"%string,  [2; -1; 0; 1; 0; 180],  [2; -2; 0; 0; 0; 0; 0],   78%Z) ].

Definition O1_index : nat := 0.
Definition K1_index : nat := 1.
Definition L2_index : nat := 6.
Definition M1_DUTCH_index : nat := 11.

Fixpoint build_bases (tbl : list (string * list float * list float * Z))
    (firstYear lastYear epochForSpeed : year_t) : option (list Constituent) :=
  match tbl with
  | [] => Some []
  | (nm, V, u, tag) :: tbl' =>
      c <- Basic nm V u tag firstYear lastYear epochForSpeed ;;
      rest <- build_bases tbl' firstYear lastYear epochForSpeed ;;
      Some (c :: rest)
  end.

Definition Cache_refresh (firstYear lastYear epochForSpeed : year_t)
    (cache : Cache) : option Cache :=
  if negb (firstYear =? firstYear_cached cache)%Z
     || negb (lastYear =? lastYear_cached cache)%Z
     || negb (epochForSpeed =? epochForSpeed_cached cache)%Z
  then
    bases <- build_bases base_table firstYear lastYear epochForSpeed ;;
    Some {| firstYear_cached := firstYear; lastYear_cached := lastYear;
            epochForSpeed_cached := epochForSpeed; terms := bases |}
  else Some cache.

(** [for (i ...) operator+= (coefficients[i] * terms[i])]. *)
Fixpoint accumulate (acc : Constituent) (coefficients : list float)
    (bases : list Constituent) : option Constituent :=
  match coefficients, bases with
  | x :: coefficients', b :: bases' =>
      acc' <- Constituent_add acc (Constituent_scale x b) ;;
      accumulate acc' coefficients' bases'
  | _, _ => Some acc
  end.

Definition rename (name_in : string) (c : Constituent) : Constituent :=
  {| name := name_in; speed := speed c; Vpu := Vpu c; nodes := nodes c |}.

Definition Compound (name_in : string) (coefficients : list float)
    (firstYear lastYear epochForSpeed : year_t) (cache : Cache)
  : option (Constituent * Cache) :=
  assert! (years_ok firstYear lastYear epochForSpeed) ;;
  assert! (List.length coefficients =? numCompoundBases)%nat ;;
  cache' <- Cache_refresh firstYear lastYear epochForSpeed cache ;;
  let zero := Constituent_zero (Z.to_nat (lastYear - firstYear + 1)) in
  sum <- accumulate zero coefficients (terms cache') ;;
  Some (rename name_in sum, cache').

End Engine.

(** ** Output formatting *)

Module Output.

Local Open Scope float_scope.

(** [temp[0] = ... = ' '] on the first [n] characters. *)
Definition blank_prefix (n : nat) (temp : string) : string :=
  (Dbl.repeat_string n " "
   ++ substring n (String.length temp - n) temp)%string.

Definition normalize (degrees : float) (decimals : nat) : option string :=
  assert! ((0 <? decimals)%nat && (decimals <=? 20)%nat) ;;
  let degrees := Dbl.fmod degrees 360 in
  let degrees := if degrees <? 0 then degrees + 360 else degrees in
  let degrees := abs degrees in
  let temp := Dbl.sprintf_f false (4 + decimals) decimals degrees in
  Some (if Dbl.starts_with "36"%string temp then blank_prefix 2 temp else temp).

(** The value that [snormalize] hands to [sprintf]. *)
Definition snormalize_value (degrees : float) : float :=
  let degrees := Dbl.fmod degrees 360 in
  if degrees <=? -180 then degrees + 360
  else if 180 <? degrees then degrees - 360
  else degrees.

Definition snormalize (degrees : float) (decimals : nat) : option string :=
  assert! ((0 <? decimals)%nat && (decimals <=? 20)%nat) ;;
  let degrees := snormalize_value degrees in
  let temp := Dbl.sprintf_f true (5 + decimals) decimals degrees in
  Some (if Dbl.starts_with "-18"%string temp then blank_prefix 1 temp else temp).

End Output.

(** ** Input streams *)

Module Stream.

(** The characters not yet read and the state bits; nothing in the
    parser can set badbit. *)
Record istream : Type := {
  rest : list ascii;
  eofbit : bool;
  failbit : bool
}.

Definition good (s : istream) : bool := negb (eofbit s) && negb (failbit s).
Definition fail (s : istream) : bool := failbit s.
Definition eof (s : istream) : bool := eofbit s.

Definition setfail (s : istream) : istream :=
  {| rest := rest s; eofbit := eofbit s; failbit := true |}.

(** [std::istringstream iss (buf)], and [iss.clear (); iss.str (buf)]. *)
Definition open (buf : list ascii) : istream :=
  {| rest := buf; eofbit := false; failbit := false |}.

Definition newline : ascii := "010".

(** [isspace] in the "C" locale. *)
Definition isspace (c : ascii) : bool :=
  let n := nat_of_ascii c in
  ((n =? 32) || ((9 <=? n) && (n <=? 13)))%nat.

Definition isdigit (c : ascii) : bool :=
  let n := nat_of_ascii c in
  ((48 <=? n) && (n <=? 57))%nat.

Definition digit_value (c : ascii) : Z := Z.of_nat (nat_of_ascii c) - 48.

(** *** getline *)

(** The characters before the first newline, and what follows that
    newline when there is one. *)
Fixpoint split_line (cs : list ascii) : list ascii * option (list ascii) :=
  match cs with
  | [] => ([], None)
  | c :: cs' =>
      if Ascii.eqb c newline then ([], Some cs')
      else let '(l, r) := split_line cs' in (c :: l, r)
  end.

(** [getline (is, buf)]: a stream that is not good fails and leaves [buf]
    alone; the end of the input sets eofbit, and failbit too when nothing
    was extracted. *)
Definition getline (s : istream) (buf : list ascii) : istream * list ascii :=
  if good s then
    match split_line (rest s) with
    | (l, Some r) => ({| rest := r; eofbit := false; failbit := false |}, l)
    | (l, None) =>
        ({| rest := []; eofbit := true;
            failbit := match l with [] => true | _ => false end |}, l)
    end
  else (setfail s, buf).

(** *** Formatted input *)

Fixpoint skipws (cs : list ascii) : list ascii :=
  match cs with
  | c :: cs' => if isspace c then skipws cs' else cs
  | [] => []
  end.

(** The sentry of a formatted input function: the stream when the
    extraction may go on, or the failed stream. *)
Definition sentry (s : istream) : istream + istream :=
  if good s then
    match skipws (rest s) with
    | [] => inr {| rest := []; eofbit := true; failbit := true |}
    | cs => inl {| rest := cs; eofbit := false; failbit := false |}
    end
  else inr (setfail s).

(** The stream after an extraction that stopped before [r]. *)
Definition after (r : list ascii) (failed : bool) : istream :=
  {| rest := r;
     eofbit := match r with [] => true | _ => false end;
     failbit := failed |}.

Fixpoint take_word (cs : list ascii) : list ascii * list ascii :=
  match cs with
  | c :: cs' =>
      if isspace c then ([], cs)
      else let '(w, r) := take_word cs' in (c :: w, r)
  | [] => ([], [])
  end.

(** [is >> str] into a fresh string. *)
Definition read_string (s : istream) : istream * list ascii :=
  match sentry s with
  | inl s1 =>
      let '(w, r) := take_word (rest s1) in
      (after r match w with [] => true | _ => false end, w)
  | inr s1 => (s1, [])
  end.

Definition is_sign (c : ascii) : bool :=
  Ascii.eqb c "+" || Ascii.eqb c "-".

Fixpoint take_digits (cs : list ascii) : list ascii * list ascii :=
  match cs with
  | c :: cs' =>
      if isdigit c then let '(d, r) := take_digits cs' in (c :: d, r)
      else ([], cs)
  | [] => ([], [])
  end.

Definition digits_value (ds : list ascii) : Z :=
  fold_left (fun acc c => acc * 10 + digit_value c) ds 0.

(** *** Integers: [num_get::_M_extract_int] in base ten *)

Definition take_sign (cs : list ascii) : bool * list ascii :=
  match cs with
  | c :: cs' => if is_sign c then (Ascii.eqb c "-", cs') else (false, cs)
  | [] => (false, [])
  end.

(** [is >> u] for [unsigned u]: a minus sign negates modulo 2^32; no digit
    at all, or a magnitude above the maximum, fails. *)
Definition read_unsigned (s : istream) : istream * Z :=
  match sentry s with
  | inl s1 =>
      let '(negative, cs) := take_sign (rest s1) in
      let '(ds, r) := take_digits cs in
      match ds with
      | [] => (after r true, 0)
      | _ =>
          let v := digits_value ds in
          if v <? 2 ^ 32
          then (after r false, if negative then (- v) mod 2 ^ 32 else v)
          else (after r true, 2 ^ 32 - 1)
      end
  | inr s1 => (s1, 0)
  end.

(** [is >> n] for [int n]. *)
Definition read_int (s : istream) : istream * Z :=
  match sentry s with
  | inl s1 =>
      let '(negative, cs) := take_sign (rest s1) in
      let '(ds, r) := take_digits cs in
      match ds with
      | [] => (after r true, 0)
      | _ =>
          let v := digits_value ds in
          let v := if negative then - v else v in
          if v <? - 2 ^ 31 then (after r true, - 2 ^ 31)
          else if 2 ^ 31 <=? v then (after r true, 2 ^ 31 - 1)
          else (after r false, v)
      end
  | inr s1 => (s1, 0)
  end.

End Stream.

(** ** Reading a double: [num_get::_M_extract_float] and [strtod] *)

Module FloatField.

Import Stream.

Definition is_e (c : ascii) : bool := Ascii.eqb c "e" || Ascii.eqb c "E".
Definition is_point (c : ascii) : bool := Ascii.eqb c ".".
Definition is_zero_digit (c : ascii) : bool := Ascii.eqb c "0".

(** The leading zeros are consumed; whether there was one. *)
Fixpoint leading_zeros (cs : list ascii) : bool * list ascii :=
  match cs with
  | c :: cs' =>
      if is_zero_digit c then (true, snd (leading_zeros cs')) else (false, cs)
  | [] => (false, [])
  end.

(** The main loop of the "C" locale: digits, one decimal point before the
    exponent, one exponent mark after a digit with its optional sign.
    Returns the characters accumulated and the input left. *)
Fixpoint accumulate (cs : list ascii) (found_mantissa found_dec found_sci : bool)
  : list ascii * list ascii :=
  match cs with
  | [] => ([], [])
  | c :: cs' =>
      if isdigit c then
        let '(x, r) := accumulate cs' true found_dec found_sci in (c :: x, r)
      else if is_point c && negb found_dec && negb found_sci then
        let '(x, r) := accumulate cs' found_mantissa true found_sci in
        ("."%char :: x, r)
      else if is_e c && negb found_sci && found_mantissa then
        match cs' with
        | [] => (["e"%char], [])
        | c' :: cs'' =>
            if is_sign c' then
              let '(x, r) := accumulate cs'' found_mantissa found_dec true in
              ("e"%char :: c' :: x, r)
            else
              let '(x, r) := accumulate cs' found_mantissa found_dec true in
              ("e"%char :: x, r)
        end
      else ([], cs)
  end.

(** [_M_extract_float]: the field handed to [strtod] and the input left. *)
Definition extract_float (cs : list ascii) : list ascii * list ascii :=
  let '(sign, cs1) :=
    match cs with
    | c :: cs' => if is_sign c then ([c], cs') else ([], cs)
    | [] => ([], [])
    end in
  let '(found_zero, cs2) := leading_zeros cs1 in
  let zero := if found_zero then ["0"%char] else [] in
  let '(x, r) := accumulate cs2 found_zero false false in
  (sign ++ zero ++ x, r).

(** *** strtod on an extracted field *)

(** A decimal field taken apart: mantissa digits before and after the
    point, and the exponent. *)
Record decimal : Type := {
  negative : bool;
  int_digits : list ascii;
  frac_digits : list ascii;
  exponent : Z
}.

(** [Some] when [strtod] consumes the whole field: a mantissa with a
    digit, and an exponent mark only with a digit behind it. *)
Definition scan (field : list ascii) : option decimal :=
  let '(neg, cs) := take_sign field in
  let '(ip, cs) := take_digits cs in
  let '(fp, cs) :=
    match cs with
    | c :: cs' => if is_point c then take_digits cs' else ([], cs)
    | [] => ([], [])
    end in
  match ip ++ fp with
  | [] => None
  | _ =>
      match cs with
      | [] => Some {| negative := neg; int_digits := ip; frac_digits := fp;
                      exponent := 0 |}
      | c :: cs' =>
          if is_e c then
            let '(eneg, cs'') := take_sign cs' in
            match take_digits cs'' with
            | ((_ :: _) as ed, []) =>
                let e := digits_value ed in
                Some {| negative := neg; int_digits := ip; frac_digits := fp;
                        exponent := if eneg then - e else e |}
            | _ => None
            end
          else None
      end
  end.

(** The binary64 value nearest to [m * 10^e], ties to even. *)
Definition round_decimal (neg : bool) (m : Z) (e : Z) : spec_float :=
  match m with
  | Zpos p =>
      match e with
      | Zneg q =>
          let '(mz, ez, lz) :=
            SFdiv_core_binary prec emax (Zpos p) 0 (10 ^ Zpos q) 0 in
          binary_round_aux prec emax neg mz ez lz
      | _ => binary_normalize prec emax (cond_Zopp neg (Zpos p * 10 ^ e)) 0 false
      end
  | _ => S754_zero neg
  end.

Definition decimal_value (d : decimal) : spec_float :=
  round_decimal (negative d)
    (digits_value (int_digits d ++ frac_digits d))
    (exponent d - Z.of_nat (List.length (frac_digits d))).

Definition max_double : float := 0x1.fffffffffffffp+1023.

(** [std::__convert_to_v]: the value stored and whether the conversion
    succeeded.  A field that is not a number stores [0]; a number out of
    range stores the largest double of its sign. *)
Definition convert_to_v (field : list ascii) : float * bool :=
  match scan field with
  | Some d =>
      match decimal_value d with
      | S754_infinity s => ((if s then - max_double else max_double)%float, false)
      | v => (SF2Prim v, true)
      end
  | None => (0%float, false)
  end.

(** [is >> x] for [double x]. *)
Definition read_double (s : istream) : istream * float :=
  match sentry s with
  | inl s1 =>
      let '(field, r) := extract_float (rest s1) in
      let '(v, ok) := convert_to_v field in
      (after r (negb ok), v)
  | inr s1 => (s1, 0%float)
  end.

End FloatField.

(** ** The catalog parser *)

Section Parser.

Context {RT : Runtime}.
Context (IX : Indices).

Import Stream.

(** How a call of [parseLegacyInput] ends: it returns a line number (0
    for success) with the constituents pushed so far, or an assertion of
    a constructor fails.  [Unfinished] is the model running out of
    fuel. *)
Inductive outcome : Type :=
| Returned (lineno : Z) (constituents : list Constituent) (cache : Cache)
| Aborted
| Unfinished.

(** [++lineno] on an [unsigned]. *)
Definition incr (lineno : Z) : Z := (lineno + 1) mod 2 ^ 32.

(** The conversion of an [unsigned] argument to a [uint_fast8_t]
    parameter (eight bits wide with glibc). *)
Definition to_uint_fast8 (z : Z) : Z := z mod 2 ^ 8.

Definition kind_is (kind : list ascii) (keyword : string) : bool :=
  String.eqb (string_of_list_ascii kind) keyword.

(** [n] doubles, each of which must leave the stream good. *)
Fixpoint read_doubles (n : nat) (iss : istream) : istream * option (list float) :=
  match n with
  | O => (iss, Some [])
  | S n' =>
      let '(iss, v) := FloatField.read_double iss in
      if good iss then
        let '(iss, vs) := read_doubles n' iss in
        (iss, option_map (cons v) vs)
      else (iss, None)
  end.

(** The coefficients of a Compound record: reading stops at the first
    failure and the remaining coefficients stay 0. *)
Fixpoint read_coefficients (n : nat) (iss : istream) : list float :=
  match n with
  | O => []
  | S n' =>
      let '(iss, v) := FloatField.read_double iss in
      if fail iss then repeat 0%float n
      else v :: read_coefficients n' iss
  end.

(** One satellite block read from the current line. *)
Inductive block : Type :=
| BlockEnd (iss : istream)
    (* the line is exhausted before the block starts *)
| BlockBad
    (* a malformed field *)
| BlockRead (iss : istream) (sat : option Satellite).
    (* a complete block; [None] when its r-token carries an R *)

Definition has_R (tempr : list ascii) : bool :=
  existsb (fun c => Ascii.eqb c "R") tempr.

Definition read_block (iss : istream) : block :=
  let '(iss, dp_) := read_int iss in
  if fail iss then (if eof iss then BlockEnd iss else BlockBad)
  else
    let '(iss, dN_) := read_int iss in
    if negb (good iss) then BlockBad
    else
      let '(iss, dp1_) := read_int iss in
      if negb (good iss) then BlockBad
      else
        let '(iss, alpha_) := FloatField.read_double iss in
        if negb (good iss) then BlockBad
        else
          let '(iss, tempr) := read_string iss in
          if fail iss then BlockBad
          else
            let '(temprs, r_) := FloatField.read_double (open tempr) in
            if fail temprs then BlockBad
            else if has_R tempr then BlockRead iss None
            else
              BlockRead iss
                (Some {| dp := dp_; dN := - dN_; dp1 := dp1_;
                         alpha := (alpha_ * 360)%float; r := r_ |}).

Inductive satellites_result : Type :=
| SatDone (is_ : istream) (lineno : Z) (satellites : list Satellite)
| SatError (lineno : Z)
| SatUnfinished.

(** [for (unsigned i (0); i<numsats; ) ...]: the satellite blocks may
    run over the following lines of the input. *)
Fixpoint read_satellites (fuel : nat) (is_ iss : istream) (buf : list ascii)
    (lineno : Z) (i numsats : Z) (satellites : list Satellite)
  : satellites_result :=
  match fuel with
  | O => SatUnfinished
  | S fuel' =>
      if i <? numsats then
        let next (is_ iss : istream) (buf : list ascii) (lineno : Z) :=
          match read_block iss with
          | BlockEnd iss =>
              read_satellites fuel' is_ iss buf lineno i numsats satellites
          | BlockBad => SatError lineno
          | BlockRead iss None =>
              read_satellites fuel' is_ iss buf lineno (i + 1) numsats
                satellites
          | BlockRead iss (Some sat) =>
              read_satellites fuel' is_ iss buf lineno (i + 1) numsats
                (satellites ++ [sat])
          end in
        if eof iss then
          let lineno := incr lineno in
          let '(is_, buf) := getline is_ buf in
          if fail is_ then SatError lineno
          else next is_ (open buf) buf lineno
        else next is_ iss buf lineno
      else SatDone is_ lineno satellites
  end.

Definition satellites_fuel (is_ iss : istream) : nat :=
  3 * List.length (rest is_) + List.length (rest iss) + 3.

Definition push (c : option Constituent)
    (k : Constituent -> outcome) : outcome :=
  match c with
  | Some c => k c
  | None => Aborted
  end.

Fixpoint parse_lines (fuel : nat) (is_ : istream) (lineno : Z)
    (firstYear lastYear epochForSpeed : year_t)
    (constituents : list Constituent) (cache : Cache) : outcome :=
  match fuel with
  | O => Unfinished
  | S fuel' =>
      if good is_ then
        let lineno := incr lineno in
        let '(is_, buf) := getline is_ [] in
        let continue_ is_ lineno constituents cache :=
          parse_lines fuel' is_ lineno firstYear lastYear epochForSpeed
            constituents cache in
        if fail is_ then Returned 0 constituents cache
        else
          match buf with
          | [] => continue_ is_ lineno constituents cache
          | c :: _ =>
              if Ascii.eqb c "#" then continue_ is_ lineno constituents cache
              else
                let iss := open buf in
                let '(iss, name_) := read_string iss in
                let '(iss, kind) := read_string iss in
                let name_ := string_of_list_ascii name_ in
                if negb (good iss) then Returned lineno constituents cache
                else if kind_is kind "Basic" then
                  match read_doubles numVterms iss with
                  | (_, None) => Returned lineno constituents cache
                  | (iss, Some V_coefficients) =>
                      match read_doubles 6 iss with
                      | (_, None) => Returned lineno constituents cache
                      | (iss, Some u6) =>
                          let u_coefficients := u6 ++ [0%float] in
                          let '(iss, f_formula) := read_unsigned iss in
                          if fail iss then Returned lineno constituents cache
                          else
                            push (Basic IX name_ V_coefficients u_coefficients
                                    (to_uint_fast8 f_formula)
                                    firstYear lastYear epochForSpeed)
                              (fun c =>
                                 continue_ is_ lineno (constituents ++ [c]) cache)
                      end
                  end
                else if kind_is kind "Doodson" then
                  match read_doubles numVterms iss with
                  | (_, None) => Returned lineno constituents cache
                  | (iss, Some V_coefficients) =>
                      let '(iss, numsats) := read_unsigned iss in
                      if fail iss then Returned lineno constituents cache
                      else
                        match read_satellites (satellites_fuel is_ iss)
                                is_ iss buf lineno 0 numsats [] with
                        | SatUnfinished => Unfinished
                        | SatError lineno => Returned lineno constituents cache
                        | SatDone is_ lineno satellites =>
                            push (Doodson name_ V_coefficients satellites
                                    firstYear lastYear epochForSpeed)
                              (fun c =>
                                 continue_ is_ lineno (constituents ++ [c]) cache)
                        end
                  end
                else if kind_is kind "Compound" then
                  let coefficients := read_coefficients numCompoundBases iss in
                  match Compound IX name_ coefficients
                          firstYear lastYear epochForSpeed cache with
                  | Some (c, cache) =>
                      continue_ is_ lineno (constituents ++ [c]) cache
                  | None => Aborted
                  end
                else Returned lineno constituents cache
          end
      else Returned 0 constituents cache
  end.

(** [parseLegacyInput (is, firstYear, lastYear, epochForSpeed,
    constituents)]; [cache] is the state of the Compound constructor's
    statics on entry. *)
Definition parseLegacyInput (is_ : istream)
    (firstYear lastYear epochForSpeed : year_t)
    (constituents : list Constituent) (cache : Cache) : outcome :=
  if negb (good is_) then Returned 1 constituents cache
  else
    parse_lines (2 + List.length (rest is_)) is_ 0
      firstYear lastYear epochForSpeed constituents cache.

End Parser.

(** ** A runtime for evaluating examples *)

(** Truncated series stand in for the math library, and the summation
    runs from the last element to the first as libstdc++ does for an
    expression.  The properties below are proved for every [Runtime]; this
    one serves to run the model on concrete inputs. *)
Module Reference.

Local Open Scope float_scope.

Definition horner (coeffs : list float) (z : float) : float :=
  fold_right (fun c acc => c + z * acc) 0 coeffs.

Fixpoint factorial (n : nat) : float :=
  match n with
  | O => 1
  | S n' => Dbl.of_Z (Z.of_nat n) * factorial n'
  end.

Definition alternate (k : nat) (x : float) : float :=
  if Nat.even k then x else - x.

Definition sin_coeffs : list float :=
  map (fun k => alternate k (1 / factorial (2 * k + 1))) (seq 0 14).

Definition cos_coeffs : list float :=
  map (fun k => alternate k (1 / factorial (2 * k))) (seq 0 14).

Definition atan_coeffs : list float :=
  map (fun k => alternate k (1 / Dbl.of_Z (Z.of_nat (2 * k + 1)))) (seq 0 16).

Definition pi : float := 0x1.921fb54442d18p+1.

(** The argument brought into [-pi, pi]. *)
Definition reduce (x : float) : float :=
  let r := Dbl.fmod x (2 * pi) in
  if pi <? r then r - 2 * pi else if r <? - pi then r + 2 * pi else r.

Definition ref_sin (x : float) : float :=
  let r := reduce x in r * horner sin_coeffs (r * r).

Definition ref_cos (x : float) : float :=
  let r := reduce x in horner cos_coeffs (r * r).

Definition ref_tan (x : float) : float := ref_sin x / ref_cos x.

Definition halve_angle (t : float) : float := t / (1 + sqrt (1 + t * t)).

Definition atan_small (t : float) : float :=
  let z := halve_angle (halve_angle t) in
  4 * (z * horner atan_coeffs (z * z)).

Definition ref_atan (t : float) : float :=
  if abs t <=? 1 then atan_small t
  else if 0 <? t then pi / 2 - atan_small (1 / t)
  else - (pi / 2) - atan_small (1 / t).

Definition ref_atan2 (y x : float) : float :=
  if 0 <? x then ref_atan (y / x)
  else if x <? 0 then
    (if 0 <=? y then ref_atan (y / x) + pi else ref_atan (y / x) - pi)
  else if 0 <? y then pi / 2
  else if y <? 0 then - (pi / 2)
  else 0.

Definition ref_asin (x : float) : float := ref_atan2 x (sqrt (1 - x * x)).
Definition ref_acos (x : float) : float := ref_atan2 (sqrt (1 - x * x)) x.

Fixpoint power (x : float) (n : nat) : float :=
  match n with
  | O => 1
  | S n' => x * power x n'
  end.

(** [pow] for the exponents that occur: small whole numbers. *)
Definition ref_pow (x y : float) : float :=
  if y =? 0 then 1
  else if y =? 1 then x
  else
    match find (fun n => y =? Dbl.of_Z (Z.of_nat n)) (seq 2 15) with
    | Some n => power x n
    | None => nan
    end.

Definition ref_sum (l : list float) : float :=
  match rev l with
  | [] => 0
  | x :: l' => fold_left PrimFloat.add l' x
  end.

Definition runtime : Runtime := {|
  sin := ref_sin;
  cos := ref_cos;
  tan := ref_tan;
  asin := ref_asin;
  acos := ref_acos;
  atan2 := ref_atan2;
  pow := ref_pow;
  valarray_sum := ref_sum
|}.

End Reference.

(** ** The parts of a Basic speed *)

Section SpeedTerms.

Context (IX : Indices).

Local Open Scope float_scope.

(** [V_terms (startYear (epochForSpeed), 1)]. *)
Definition speeds_at (epochForSpeed : year_t) : option (list float) :=
  t <- startYear epochForSpeed ;; V_terms t 1.

(** [speeds[p_index] * u_coefficients[Q_index]], the second term of the
    speed of a Basic constituent. *)
Definition second_term (u_coefficients : list float) (epochForSpeed : year_t)
  : option float :=
  speeds <- speeds_at epochForSpeed ;;
  Some (Valarray.get speeds (p_index IX)
        * Valarray.get u_coefficients (Q_index IX)).

End SpeedTerms.

(** ** Shapes of input text *)

Module Text.

Import Stream.

(** Blanks inside a line: white space other than the newline. *)
Definition blank (c : ascii) : bool := isspace c && negb (Ascii.eqb c newline).

Definition blanks (l : list ascii) : Prop := forallb blank l = true.


(** No newline inside. *)
Definition one_line (l : list ascii) : Prop :=
  forallb (fun c => negb (Ascii.eqb c newline)) l = true.


(** A line the parser skips: empty, or a comment. *)
Definition ignorable (l : list ascii) : Prop :=
  one_line l /\ (l = [] \/ exists t, l = "#"%char :: t).

(** The text of the given lines, each with its newline. *)
Definition unlines (ls : list (list ascii)) : list ascii :=
  List.concat (map (fun l => l ++ [newline]) ls).


End Text.

(** ** Fields of a record *)

Module Field.

Import Stream Text.





End Field.

(** ** The text of a satellite block *)

Section BlockText.

Import Stream Text.




End BlockText.

(** ** harmgen: the year of a timestamp *)

Module Harmgen.

Definition avgSecPerYear : Z := 31556952.
Definition secPerDay : Z := 86400.
Definition yearOneStart : Z := -62135596800.

(** The conversion of an integer to [Congen::year_t].  The driver
    [congen.cc] reads a [year_t] with the [SCNu16] format, so the type is an
    unsigned 16-bit integer. *)
Definition to_year (z : Z) : year_t := z mod 2 ^ 16.

(** [yearOfTimestamp]: an estimate from the average length of a Gregorian
    year, moved by one year when the timestamp lies outside the estimated
    year, and checked by two assertions. *)
Definition yearOfTimestamp (t : Z) : option year_t :=
  let year :=
    to_year (Int64.add (Int64.div (Int64.sub t yearOneStart) avgSecPerYear) 1) in
  s <- startYear year ;;
  year <-
    (if t <? s then Some (to_year (year - 1))
     else
       s1 <- startYear (to_year (year + 1)) ;;
       Some (if s1 <=? t then to_year (year + 1) else year)) ;;
  assert! ((0 <? year) && (year <? 4001)) ;;
  s <- startYear year ;;
  assert! (s <=? t) ;;
  s1 <- startYear (to_year (year + 1)) ;;
  assert! (t <? s1) ;;
  Some year.

(** *** quote: from a C++ string to an SQL string *)

Definition apostrophe : ascii := "'"%char.

(** What the loop appends for one character. *)
Definition escaped (c : ascii) : list ascii :=
  if Ascii.eqb c apostrophe then [apostrophe; apostrophe] else [c].

(** [for (unsigned i(0); i < s.length(); ++i) ...]; [None] is the model
    running out of fuel. *)
Fixpoint quote_loop (fuel : nat) (s : list ascii) (i : Z) (ret : list ascii)
  : option (list ascii) :=
  match fuel with
  | O => None
  | S fuel' =>
      if i <? Z.of_nat (List.length s) then
        c <- nth_error s (Z.to_nat i) ;;
        quote_loop fuel' s ((i + 1) mod 2 ^ 32) (ret ++ escaped c)
      else Some ret
  end.

Definition DEFAULT : list ascii := list_ascii_of_string "DEFAULT".

Definition quote (s : list ascii) : option (list ascii) :=
  match s with
  | [] => Some DEFAULT
  | _ =>
      ret <- quote_loop (S (List.length s)) s 0 [apostrophe] ;;
      Some (ret ++ [apostrophe])
  end.

(** [char temp[size]; sprintf (temp, ...); ret = temp]: the text and its
    terminating NUL must fit the buffer; writing past its end is
    undefined, which the model gives as [None]. *)
Definition sprintf_into (size : nat) (text : string) : option string :=
  if (String.length text <? size)%nat then Some text else None.

(** [quote (const double d, const bool notNull)], used for latitude and
    longitude. *)
Definition quote_double (d : float) (notNull : bool) : option string :=
  assert! (negb notNull || ((-180 <=? d) && (d <=? 180))%float) ;;
  if notNull then sprintf_into 11 (Dbl.sprintf_f false 0 5 d)
  else Some "DEFAULT"%string.

(** [quote (const unsigned u, const bool notNull)], used for current
    bearings. *)
Definition quote_unsigned (u : Z) (notNull : bool) : option string :=
  assert! (negb notNull || (u <? 360)) ;;
  if notNull then sprintf_into 4 (Dbl.digits_of u)
  else Some "DEFAULT"%string.

(** *** findInputBounds *)

(** What [fscanf (fp, "%ld %lf", &t, &h)] makes of the time series file:
    the samples that scan one after the other, and whether the file is at
    its end behind them. *)
Record series : Type := {
  samples : list (Z * float);
  at_eof : bool
}.

Record bounds : Type := {
  seriesLength : Z;
  firstTimestamp : Z;
  lastTimestamp : Z
}.

(** One round of the scanning loop; [seriesLength] is an
    [unsigned long]. *)
Definition scan_sample (b : bounds) (sample : Z * float) : bounds :=
  let t := fst sample in
  let '(first, last) :=
    if seriesLength b =? 0 then (t, t)
    else
      ((if t <? firstTimestamp b then t else firstTimestamp b),
       (if lastTimestamp b <? t then t else lastTimestamp b)) in
  {| seriesLength := (seriesLength b + 1) mod 2 ^ 64;
     firstTimestamp := first;
     lastTimestamp := last |}.

(** [first0] and [last0] are whatever the caller's variables held; [None]
    is [exit (-1)]. *)
Definition findInputBounds (f : series) (first0 last0 : Z) : option bounds :=
  let b :=
    fold_left scan_sample (samples f)
      {| seriesLength := 0; firstTimestamp := first0;
         lastTimestamp := last0 |} in
  if negb (at_eof f) then None
  else if seriesLength b =? 0 then None
  else Some b.

(** *** Dropping constituents after the fit *)

Definition amplitude_epsilon : float := 0.00005%float.

(** The three vectors that main keeps side by side. *)
Record fit : Type := {
  constituents : list Constituent;
  amp : list float;
  phase : list float
}.

(** [v.erase (v.begin () + i)]; an iterator past the last element is
    undefined. *)
Definition erase {A : Type} (v : list A) (i : nat) : option (list A) :=
  if (i <? List.length v)%nat then Some (firstn i v ++ skipn (S i) v)
  else None.

Definition deleteConstituent (s : fit) (i : Z) : option fit :=
  assert! (i <? Z.of_nat (List.length (constituents s))) ;;
  a <- erase (amp s) (Z.to_nat i) ;;
  p <- erase (phase s) (Z.to_nat i) ;;
  c <- erase (constituents s) (Z.to_nat i) ;;
  Some {| constituents := c; amp := a; phase := p |}.

(** How a step of main ends: with its state; with a failed assertion,
    an access out of range or an error exit; or with the model out of
    fuel. *)
Inductive ending (A : Type) : Type :=
| Finished (a : A)
| Crashed
| Running.

Arguments Finished {A} a.
Arguments Crashed {A}.
Arguments Running {A}.

(** The sums that main reports of what it dropped. *)
Record dropped : Type := {
  total_dropped_amp : float;
  max_dropped_amp : float
}.

(** "Delete constituents that round to zero":
    [for (unsigned i(0); i < constituents.size();)
       if (amp[i] < amplitude_epsilon) deleteConstituent (...); else ++i;] *)
Fixpoint drop_zeros (fuel : nat) (s : fit) (i : Z) : ending fit :=
  match fuel with
  | O => Running
  | S fuel' =>
      if i <? Z.of_nat (List.length (constituents s)) then
        match nth_error (amp s) (Z.to_nat i) with
        | None => Crashed
        | Some a =>
            if (a <? amplitude_epsilon)%float then
              match deleteConstituent s i with
              | Some s' => drop_zeros fuel' s' i
              | None => Crashed
              end
            else drop_zeros fuel' s ((i + 1) mod 2 ^ 32)
        end
      else Finished s
  end.

(** [std::min_element]: the position of the first element that no later
    one is less than; [best] and [a] are the candidate and its value, [k]
    the position of the head of [v]. *)
Fixpoint min_element_from (v : list float) (k best : nat) (a : float) : nat :=
  match v with
  | [] => best
  | x :: v' =>
      if (x <? a)%float then min_element_from v' (S k) k x
      else min_element_from v' (S k) best a
  end.

(** [min_element (amp.begin (), amp.end ()) - amp.begin ()]. *)
Definition min_element (v : list float) : nat :=
  match v with
  | [] => O
  | x :: v' => min_element_from v' 1 O x
  end.

(** "If requested, limit the number of constituents":
    [while (constituents.size () > maxconstituents) ...]. *)
Fixpoint drop_smallest (fuel : nat) (maxconstituents : Z) (s : fit)
    (d : dropped) : ending (fit * dropped) :=
  match fuel with
  | O => Running
  | S fuel' =>
      if maxconstituents <? Z.of_nat (List.length (constituents s)) then
        let victim := Z.of_nat (min_element (amp s)) mod 2 ^ 32 in
        match nth_error (amp s) (Z.to_nat victim) with
        | None => Crashed
        | Some a =>
            let d := {| total_dropped_amp := (total_dropped_amp d + a)%float;
                        max_dropped_amp := a |} in
            match deleteConstituent s victim with
            | Some s' => drop_smallest fuel' maxconstituents s' d
            | None => Crashed
            end
        end
      else Finished (s, d)
  end.

(** "If requested, throw out wimpy constituents". *)
Fixpoint drop_wimpy (fuel : nat) (minamplitude : float) (s : fit)
    (d : dropped) (i : Z) : ending (fit * dropped) :=
  match fuel with
  | O => Running
  | S fuel' =>
      if i <? Z.of_nat (List.length (constituents s)) then
        match nth_error (amp s) (Z.to_nat i) with
        | None => Crashed
        | Some a =>
            if (a <? minamplitude)%float then
              let d :=
                {| total_dropped_amp := (total_dropped_amp d + a)%float;
                   max_dropped_amp :=
                     if (max_dropped_amp d <? a)%float then a
                     else max_dropped_amp d |} in
              match deleteConstituent s i with
              | Some s' => drop_wimpy fuel' minamplitude s' d i
              | None => Crashed
              end
            else drop_wimpy fuel' minamplitude s d ((i + 1) mod 2 ^ 32)
        end
      else Finished (s, d)
  end.

(** The three steps as main runs them on the result of the fit; a
    [maxconstituents] of 0 is "no limit", and main gives up when nothing
    is left. *)
Definition select (maxconstituents : Z) (minamplitude : float) (s : fit)
  : ending (fit * dropped) :=
  let fuel := S (List.length (constituents s)) in
  match drop_zeros fuel s 0 with
  | Finished s =>
      let d := {| total_dropped_amp := 0; max_dropped_amp := 0 |} in
      let limited :=
        if maxconstituents =? 0 then Finished (s, d)
        else drop_smallest fuel maxconstituents s d in
      match limited with
      | Finished (s, d) =>
          match drop_wimpy fuel minamplitude s d 0 with
          | Finished (s, d) =>
              match constituents s with
              | [] => Crashed
              | _ => Finished (s, d)
              end
          | e => e
          end
      | e => e
      end
  | Crashed => Crashed
  | Running => Running
  end.

End Harmgen.
(** * Properties *)

(** ** 64-bit arithmetic and the calendar *)

Lemma Int64_wrap_small (z : Z) : Int64.in_range z -> Int64.wrap z = z.
Proof.
  unfold Int64.in_range, Int64.wrap, Int64.modulus, Int64.half_modulus.
  intros H. rewrite Z.mod_small; lia.
Qed.

Lemma assert_true {A : Type} (b : bool) (k : option A) :
  b = true -> (assert! b ;; k) = k.
Proof. intros ->. reflexivity. Qed.

Lemma assert_false {A : Type} (b : bool) (k : option A) :
  b = false -> (assert! b ;; k) = None.
Proof. intros ->. reflexivity. Qed.

(** The leap days before year [y + 1], as the source counts them. *)
Definition leapDays (y : Z) : Z := y / 4 - y / 100 + y / 400.

Lemma leapDays_bounds (y : Z) : 0 <= y <= 4000 -> 0 <= leapDays y <= 1000.
Proof.
  intros H. unfold leapDays.
  pose proof (Z.div_le_mono y 4000 4 ltac:(lia) ltac:(lia)) as H4.
  pose proof (Z.div_le_mono y 4000 400 ltac:(lia) ltac:(lia)) as H400.
  pose proof (Z.div_pos y 100 ltac:(lia) ltac:(lia)) as H100.
  pose proof (Z.div_pos y 400 ltac:(lia) ltac:(lia)) as H400'.
  assert (y / 100 <= y / 4).
  { apply Z.div_le_compat_l with (p := y) (q := 4) (r := 100); lia. }
  change (4000 / 4) with 1000 in H4. change (4000 / 400) with 10 in H400.
  assert (y / 400 <= y / 100).
  { apply Z.div_le_compat_l with (p := y) (q := 100) (r := 400); lia. }
  lia.
Qed.

(** The closed form of [startYear] on exact integers. *)
Definition startYear_exact (y : Z) : Z :=
  -62135596800 + (y - 1) * 31536000 + leapDays (y - 1) * 86400.

Lemma startYear_closed_form (y : Z) :
  1 <= y <= 4001 -> startYear y = Some (startYear_exact y).
Proof.
  intros Hy. unfold startYear.
  rewrite assert_true by (apply Z.ltb_lt; lia).
  rewrite assert_true by (apply Z.leb_le; lia).
  f_equal. unfold startYear_exact.
  pose proof (leapDays_bounds (y - 1) ltac:(lia)) as Hl.
  rewrite !Z.quot_div_nonneg by lia.
  fold (leapDays (y - 1)).
  unfold Int64.add, Int64.mul.
  rewrite (Int64_wrap_small ((y - 1) * 31536000))
    by (unfold Int64.in_range, Int64.half_modulus; lia).
  rewrite (Int64_wrap_small (leapDays (y - 1) * 86400))
    by (unfold Int64.in_range, Int64.half_modulus; lia).
  rewrite (Int64_wrap_small (-62135596800 + (y - 1) * 31536000))
    by (unfold Int64.in_range, Int64.half_modulus; lia).
  apply Int64_wrap_small. unfold Int64.in_range, Int64.half_modulus. lia.
Qed.

(** C3.  For every year [y] in [1, 4001], [startYear y] is
    [-62135596800 + (y-1)*31536000 + (floor((y-1)/4) - floor((y-1)/100)
    + floor((y-1)/400))*86400] in exact integer arithmetic (no 64-bit
    operation wraps); in particular [startYear 2000 = 946684800],
    [startYear 1970 = 0] and [startYear 1 = -62135596800]. *)
Theorem C3_startYear_formula :
  (forall y : Z, 1 <= y <= 4001 ->
     startYear y
     = Some (-62135596800 + (y - 1) * 31536000
             + ((y - 1) / 4 - (y - 1) / 100 + (y - 1) / 400) * 86400))
  /\ startYear 2000 = Some 946684800
  /\ startYear 1970 = Some 0
  /\ startYear 1 = Some (-62135596800).
Proof.
  split; [| repeat split; reflexivity].
  intros y Hy. apply (startYear_closed_form y Hy).
Qed.

Lemma C3_startYear_formula_witness :
  1 <= 2000 <= 4001 /\ startYear 2000 = Some 946684800.
Proof.
  split; [lia |].
  rewrite (proj1 C3_startYear_formula 2000) by lia. reflexivity.
Defined.

(** ** Series lengths and the year axis *)

Lemma bind_Some {A B : Type} (x : option A) (k : A -> option B) (b : B) :
  Assert.bind x k = Some b -> exists a, x = Some a /\ k a = Some b.
Proof. destruct x as [a |]; simpl; [eauto | discriminate]. Qed.

Lemma assert_Some {B : Type} (c : bool) (k : option B) (b : B) :
  (assert! c ;; k) = Some b -> c = true /\ k = Some b.
Proof. destruct c; simpl; [auto | discriminate]. Qed.

Ltac invert_bind H :=
  match type of H with
  | Assert.bind (Assert.assert _) _ = Some _ =>
      let Hc := fresh "Hc" in
      apply assert_Some in H; destruct H as [Hc H]
  | Assert.bind _ _ = Some _ =>
      let a := fresh "a" in
      let Ha := fresh "Ha" in
      apply bind_Some in H; destruct H as (a & Ha & H)
  end.

Lemma years_length (firstYear lastYear : year_t) :
  List.length (years firstYear lastYear) = Z.to_nat (lastYear - firstYear + 1).
Proof. unfold years. now rewrite length_map, length_seq. Qed.

Lemma years_nth (firstYear lastYear : year_t) (i : nat) :
  (i < Z.to_nat (lastYear - firstYear + 1))%nat ->
  nth_error (years firstYear lastYear) i = Some (firstYear + Z.of_nat i).
Proof.
  intros Hi. unfold years.
  rewrite nth_error_map, nth_error_seq.
  destruct (Nat.ltb_spec i (Z.to_nat (lastYear - firstYear + 1))); [| lia].
  reflexivity.
Qed.

Lemma for_years_length {A : Type} (body : year_t -> option A) ys rows :
  for_years body ys = Some rows -> List.length rows = List.length ys.
Proof.
  revert rows. induction ys as [| y ys IH]; simpl; intros rows H.
  - now inversion H.
  - repeat invert_bind H. inversion H; subst. simpl. f_equal. now apply IH.
Qed.

Lemma for_years_nth {A : Type} (body : year_t -> option A) ys rows i y :
  for_years body ys = Some rows ->
  nth_error ys i = Some y ->
  exists row, nth_error rows i = Some row /\ body y = Some row.
Proof.
  revert rows i. induction ys as [| y0 ys IH]; simpl; intros rows i H Hi.
  - destruct i; discriminate.
  - repeat invert_bind H. inversion H; subst.
    destruct i as [| i]; simpl in *.
    + inversion Hi; subst. eauto.
    + eapply IH; eauto.
Qed.

Lemma map2_length (op : float -> float -> float) (a b : list float) :
  List.length (Valarray.map2 op a b) = Nat.min (List.length a) (List.length b).
Proof.
  revert b. induction a as [| x a IH]; intros [| y b]; simpl; auto.
Qed.

Section SeriesLengths.

Context {RT : Runtime}.
Context (IX : Indices).

(** The two series of a constituent have [n] elements each. *)
Definition has_years (n : nat) (c : Constituent) : Prop :=
  List.length (Vpu c) = n /\ List.length (nodes c) = n.

(** Element [i] of either series belongs to year [firstYear + i]: both
    are computed by [body] for that year. *)
Definition same_year_axis (body : year_t -> option (float * float))
    (firstYear : year_t) (c : Constituent) : Prop :=
  forall i : nat, (i < List.length (Vpu c))%nat ->
    exists v fy,
      nth_error (Vpu c) i = Some v /\ nth_error (nodes c) i = Some fy
      /\ body (firstYear + Z.of_nat i) = Some (v, fy).

Lemma rows_series (body : year_t -> option (float * float))
    (firstYear lastYear : year_t) rows nm sp :
  for_years body (years firstYear lastYear) = Some rows ->
  let c := {| name := nm; speed := sp;
              Vpu := map fst rows; nodes := map snd rows |} in
  has_years (Z.to_nat (lastYear - firstYear + 1)) c
  /\ same_year_axis body firstYear c.
Proof.
  intros Hrows c.
  pose proof (for_years_length _ _ _ Hrows) as Hlen.
  rewrite years_length in Hlen.
  split.
  - split; simpl; now rewrite length_map.
  - intros i Hi. simpl in Hi. rewrite length_map, Hlen in Hi.
    destruct (for_years_nth _ _ _ i _ Hrows (years_nth _ _ i Hi))
      as ([v fy] & Hrow & Hbody).
    exists v, fy. simpl. rewrite !nth_error_map, Hrow. simpl. auto.
Qed.

Lemma Basic_series nm V u tag firstYear lastYear epochForSpeed c :
  Basic IX nm V u tag firstYear lastYear epochForSpeed = Some c ->
  has_years (Z.to_nat (lastYear - firstYear + 1)) c
  /\ same_year_axis (Basic_year IX V u tag) firstYear c.
Proof.
  unfold Basic. intros H. repeat invert_bind H.
  inversion H; subst c. now apply rows_series.
Qed.

Lemma Doodson_series nm V sats firstYear lastYear epochForSpeed c :
  Doodson nm V sats firstYear lastYear epochForSpeed = Some c ->
  has_years (Z.to_nat (lastYear - firstYear + 1)) c
  /\ same_year_axis (Doodson_year V sats) firstYear c.
Proof.
  unfold Doodson. intros H. repeat invert_bind H.
  inversion H; subst c. now apply rows_series.
Qed.

Lemma Constituent_zero_years (n : nat) : has_years n (Constituent_zero n).
Proof. split; simpl; apply repeat_length. Qed.

Lemma Constituent_add_years n a x c :
  has_years n a -> Constituent_add a x = Some c -> has_years n c.
Proof.
  intros [Ha1 Ha2] H. unfold Constituent_add in H. repeat invert_bind H.
  apply Nat.eqb_eq in Hc, Hc0. inversion H; subst c. split; simpl.
  - unfold Valarray.add. rewrite map2_length. lia.
  - unfold Valarray.mul. rewrite map2_length. lia.
Qed.

Lemma accumulate_years n acc coefficients bases c :
  has_years n acc -> accumulate acc coefficients bases = Some c ->
  has_years n c.
Proof.
  revert acc bases.
  induction coefficients as [| x xs IH]; intros acc bases Hacc H; simpl in H.
  - now inversion H; subst.
  - destruct bases as [| b bases]; [now inversion H; subst |].
    invert_bind H. eapply IH; [| exact H].
    eapply Constituent_add_years; eauto.
Qed.

Lemma Compound_series nm coefficients firstYear lastYear epochForSpeed
    cache c cache' :
  Compound IX nm coefficients firstYear lastYear epochForSpeed cache
  = Some (c, cache') ->
  has_years (Z.to_nat (lastYear - firstYear + 1)) c.
Proof.
  unfold Compound. intros H. repeat invert_bind H.
  inversion H; subst c cache'.
  pose proof (accumulate_years _ _ _ _ _ (Constituent_zero_years _) Ha0)
    as [H1 H2].
  split; assumption.
Qed.

End SeriesLengths.

(** ** Facts of binary64 arithmetic *)

Module DblFacts.

Local Open Scope float_scope.

(** Equal, or both a zero of either sign. *)
Definition same (x y : float) : Prop :=
  x = y \/ (Dbl.is_zero x = true /\ Dbl.is_zero y = true).

Definition one_SF : spec_float := S754_finite false 4503599627370496 (-52).

Lemma Prim2SF_one : Prim2SF 1 = one_SF.
Proof. reflexivity. Qed.

Lemma Prim2SF_zero : Prim2SF 0 = S754_zero false.
Proof. reflexivity. Qed.

Lemma digits2_pos_shift52 (m : positive) :
  digits2_pos (4503599627370496 * m) = (digits2_pos m + 52)%positive.
Proof.
  change (4503599627370496 * m)%positive with
    (m~0~0~0~0~0~0~0~0~0~0~0~0~0~0~0~0~0~0~0~0~0~0~0~0~0~0
      ~0~0~0~0~0~0~0~0~0~0~0~0~0~0~0~0~0~0~0~0~0~0~0~0~0~0)%positive.
  cbn [digits2_pos]. lia.
Qed.

(** Rounding [m * 2^52 * 2^(e - 52)] gives back the canonical [m * 2^e]. *)
Lemma round_shift52 (s : bool) (m : positive) (e : Z) :
  bounded prec emax m e = true ->
  binary_round_aux prec emax s (Zpos (4503599627370496 * m)) (e + -52) loc_Exact
  = S754_finite s m e.
Proof.
  intros Hb. apply andb_prop in Hb. destruct Hb as [Hc He].
  unfold canonical_mantissa in Hc. apply Z.eqb_eq in Hc.
  unfold binary_round_aux, shr_fexp.
  cbn [Zdigits2]. rewrite digits2_pos_shift52.
  replace (Z.pos (digits2_pos m + 52) + (e + -52))%Z
    with (Z.pos (digits2_pos m) + e)%Z by lia.
  rewrite Hc.
  replace (e - (e + -52))%Z with 52%Z by lia.
  change (4503599627370496 * m)%positive with
    (m~0~0~0~0~0~0~0~0~0~0~0~0~0~0~0~0~0~0~0~0~0~0~0~0~0~0
      ~0~0~0~0~0~0~0~0~0~0~0~0~0~0~0~0~0~0~0~0~0~0~0~0~0~0)%positive.
  cbn [shr shr_record_of_loc iter_pos shr_1 orb shr_m loc_of_shr_record
       round_nearest_even Zdigits2].
  replace (e + -52 + 52)%Z with e by lia.
  rewrite Hc, Z.sub_diag. cbn [shr shr_m shr_record_of_loc].
  now rewrite He.
Qed.

Lemma mul_1_r (x : float) : x * 1 = x.
Proof.
  apply Prim2SF_inj. rewrite mul_spec, Prim2SF_one.
  pose proof (Prim2SF_valid x) as Hv.
  destruct (Prim2SF x) as [s | s | | s m e]; unfold SF64mul, SFmul, one_SF.
  - now rewrite xorb_false_r.
  - now rewrite xorb_false_r.
  - reflexivity.
  - rewrite xorb_false_r, Pos.mul_comm. now apply round_shift52.
Qed.

Lemma mul_1_l (x : float) : 1 * x = x.
Proof.
  apply Prim2SF_inj. rewrite mul_spec, Prim2SF_one.
  pose proof (Prim2SF_valid x) as Hv.
  destruct (Prim2SF x) as [s | s | | s m e]; try reflexivity.
  unfold SF64mul, SFmul, one_SF. cbn [xorb].
  rewrite Z.add_comm. now apply round_shift52.
Qed.

Lemma is_zero_spec (x : float) :
  Dbl.is_zero x = true <-> exists s, Prim2SF x = S754_zero s.
Proof.
  unfold Dbl.is_zero. rewrite FloatAxioms.eqb_spec, Prim2SF_zero.
  destruct (Prim2SF x) as [s | s | | s m e]; cbn; split;
    try discriminate; eauto;
    try (intros [s' H]; discriminate).
  - destruct s; discriminate.
  - destruct s; discriminate.
Qed.

Lemma is_finite_of_zero (x : float) : Dbl.is_zero x = true -> Dbl.is_finite x = true.
Proof.
  intros H. apply is_zero_spec in H. destruct H as [s H].
  unfold Dbl.is_finite. now rewrite H.
Qed.

(** A finite number times zero is a zero. *)
Lemma mul_zero_r (x z : float) :
  Dbl.is_finite x = true -> Dbl.is_zero z = true -> Dbl.is_zero (x * z) = true.
Proof.
  intros Hx Hz. apply is_zero_spec in Hz. destruct Hz as [sz Hz].
  apply is_zero_spec. unfold Dbl.is_finite in Hx.
  rewrite mul_spec, Hz.
  destruct (Prim2SF x) as [s | s | | s m e]; try discriminate; cbn; eauto.
Qed.

Lemma same_refl (x : float) : same x x.
Proof. now left. Qed.

Lemma same_sym (x y : float) : same x y -> same y x.
Proof. intros [H | [H1 H2]]; [left | right]; auto. Qed.

Lemma same_trans (x y z : float) : same x y -> same y z -> same x z.
Proof.
  intros [-> | [H1 H2]] [-> | [H3 H4]]; try (now left); try (now right).
Qed.

(** Adding a zero changes nothing but, possibly, the sign of a zero. *)
Lemma add_zero_r (x z : float) : Dbl.is_zero z = true -> same (x + z) x.
Proof.
  intros Hz. apply is_zero_spec in Hz. destruct Hz as [sz Hz].
  destruct (Prim2SF x) as [s | s | | s m e] eqn:Hx.
  - right. split; apply is_zero_spec; [| eauto].
    rewrite add_spec, Hx, Hz. destruct s, sz; cbn; eauto.
  - left. apply Prim2SF_inj. now rewrite add_spec, Hx, Hz.
  - left. apply Prim2SF_inj. now rewrite add_spec, Hx, Hz.
  - left. apply Prim2SF_inj. now rewrite add_spec, Hx, Hz.
Qed.

Lemma add_zero_l (x z : float) : Dbl.is_zero z = true -> same (z + x) x.
Proof.
  intros Hz. apply is_zero_spec in Hz. destruct Hz as [sz Hz].
  destruct (Prim2SF x) as [s | s | | s m e] eqn:Hx.
  - right. split; apply is_zero_spec; [| eauto].
    rewrite add_spec, Hx, Hz. destruct s, sz; cbn; eauto.
  - left. apply Prim2SF_inj. now rewrite add_spec, Hx, Hz.
  - left. apply Prim2SF_inj. now rewrite add_spec, Hx, Hz.
  - left. apply Prim2SF_inj. now rewrite add_spec, Hx, Hz.
Qed.

(** Addition respects [same] in its first argument. *)
Lemma add_same_l (x x' y : float) : same x x' -> same (x + y) (x' + y).
Proof.
  intros [-> | [H1 H2]]; [now left |].
  eapply same_trans; [apply add_zero_l; exact H1 |].
  apply same_sym. now apply add_zero_l.
Qed.

Lemma is_zero_same (x y : float) :
  same x y -> Dbl.is_zero y = true -> Dbl.is_zero x = true.
Proof. intros [-> | [H _]]; auto. Qed.

End DblFacts.

(** ** The algebra of constituents *)

Section Algebra.

Context {RT : Runtime}.

Local Open Scope float_scope.

Import DblFacts.

(** C11 F.10.4.4: [pow (x, +-0)] is 1 for every [x], even a NaN. *)
Definition pow_zero_exact : Prop := forall x : float, pow x 0 = 1.

(** [pow (x, 1)] is [x]: the result is representable, so a [pow] with an
    error below one unit in the last place returns it. *)
Definition pow_one_exact : Prop := forall x : float, pow x 1 = x.

Definition all_finite (l : list float) : Prop :=
  Forall (fun v => Dbl.is_finite v = true) l.

(** The speed and the arguments of [c] are finite numbers. *)
Definition finite_constituent (c : Constituent) : Prop :=
  Dbl.is_finite (speed c) = true /\ all_finite (Vpu c).

Lemma scale_zero_speed (c : Constituent) :
  Dbl.is_finite (speed c) = true ->
  Dbl.is_zero (speed (Constituent_scale 0 c)) = true.
Proof. intros H. simpl. now apply mul_zero_r. Qed.

Lemma scale_zero_Vpu (c : Constituent) :
  all_finite (Vpu c) ->
  Forall (fun v => Dbl.is_zero v = true) (Vpu (Constituent_scale 0 c)).
Proof.
  intros H. simpl. apply Forall_map.
  eapply Forall_impl; [| exact H]. intros v Hv. now apply mul_zero_r.
Qed.

Lemma scale_zero_nodes (c : Constituent) :
  pow_zero_exact ->
  nodes (Constituent_scale 0 c) = repeat 1 (List.length (nodes c)).
Proof.
  intros Hpow. simpl. induction (nodes c) as [| v l IH]; simpl; [reflexivity |].
  f_equal; [| exact IH]. change (abs 0) with 0. apply Hpow.
Qed.

Lemma add_zeros_Vpu (a z : list float) :
  List.length a = List.length z ->
  Forall (fun v => Dbl.is_zero v = true) z ->
  Forall2 same (Valarray.add a z) a.
Proof.
  revert z. induction a as [| x a IH]; intros [| y z] Hlen Hz;
    simpl in *; try discriminate; constructor.
  - inversion Hz; subst. now apply add_zero_r.
  - inversion Hz; subst. apply IH; [lia | assumption].
Qed.

Lemma mul_ones_nodes (a : list float) (n : nat) :
  List.length a = n -> Valarray.mul a (repeat 1 n) = a.
Proof.
  revert n. induction a as [| x a IH]; intros [| n] Hlen;
    simpl in *; try discriminate; [reflexivity |].
  unfold Valarray.mul in *. simpl. f_equal; [apply mul_1_r | apply IH; lia].
Qed.

(** C10.  For every constituent [C] with a finite speed and finite
    arguments, [0 * C] has speed 0, every V0+u element 0 and every f
    element 1 (f is raised to |0| = 0); consequently, for every [A] with
    series of the same lengths, [A += 0 * C] succeeds and leaves the speed,
    the V0+u series and the f series of [A] unchanged (up to the sign of a
    zero), and only sets the name to "nameless". *)
Theorem C10_zero_scale_is_neutral (C : Constituent)
    (Hpow : pow_zero_exact) (Hfin : finite_constituent C) :
  let Z := Constituent_scale 0 C in
  Dbl.is_zero (speed Z) = true
  /\ Forall (fun v => Dbl.is_zero v = true) (Vpu Z)
  /\ Forall (fun v => v = 1) (nodes Z)
  /\ forall A : Constituent,
       List.length (Vpu A) = List.length (Vpu C) ->
       List.length (nodes A) = List.length (nodes C) ->
       exists A', Constituent_add A Z = Some A'
         /\ same (speed A') (speed A)
         /\ Forall2 same (Vpu A') (Vpu A)
         /\ nodes A' = nodes A
         /\ name A' = "nameless"%string.
Proof.
  destruct Hfin as [Hs Hv]. intros Z.
  pose proof (scale_zero_speed C Hs) as HZs.
  pose proof (scale_zero_Vpu C Hv) as HZv.
  pose proof (scale_zero_nodes C Hpow) as HZn.
  fold Z in HZs, HZv, HZn.
  assert (HlenV : List.length (Vpu Z) = List.length (Vpu C))
    by (subst Z; simpl; apply length_map).
  assert (HlenN : List.length (nodes Z) = List.length (nodes C))
    by (subst Z; simpl; apply length_map).
  repeat split; try assumption.
  - rewrite HZn. clear. induction (List.length (nodes C)); simpl; constructor; auto.
  - intros A HA1 HA2. unfold Constituent_add.
    rewrite assert_true by (apply Nat.eqb_eq; lia).
    rewrite assert_true by (apply Nat.eqb_eq; lia).
    eexists. split; [reflexivity |]. cbn [speed Vpu nodes name].
    repeat split.
    + now apply add_zero_r.
    + apply add_zeros_Vpu; [lia | assumption].
    + rewrite HZn. apply mul_ones_nodes. lia.
Qed.

End Algebra.

Definition example_constituent : Constituent :=
  {| name := "X"; speed := 28.984104213837416%float;
     Vpu := [17783085.433897365; -18036986.783830944]%float;
     nodes := [0.96647859216164944; 0.97338428678852162]%float |}.

Lemma C10_zero_scale_is_neutral_witness :
  pow_zero_exact (RT := Reference.runtime)
  /\ finite_constituent example_constituent
  /\ Dbl.is_zero
       (speed (Constituent_scale (RT := Reference.runtime) 0 example_constituent))
     = true.
Proof.
  assert (Hpow : pow_zero_exact (RT := Reference.runtime))
    by (intros x; reflexivity).
  assert (Hfin : finite_constituent example_constituent)
    by (split; [reflexivity | repeat constructor]).
  split; [exact Hpow |]. split; [exact Hfin |].
  exact (proj1 (C10_zero_scale_is_neutral (RT := Reference.runtime)
                  example_constituent Hpow Hfin)).
Defined.

(** A record that the parser accepts and whose first V coefficient makes
    the speed and the arguments overflow. *)
Definition overflow_record : list ascii :=
  list_ascii_of_string "X Basic 1e308 0 0 0 0 0 0 0 0 0 0 0 1".

(** The constituent of that record has an infinite speed and infinite
    arguments; multiplied by 0 they are NaN, not 0, and adding the product
    to a constituent replaces its speed by NaN. *)
Lemma C10_overflowing_record_is_not_neutral :
  exists (C : Constituent) (cache : Cache) (A' : Constituent),
    parseLegacyInput (RT := Reference.runtime) Congen_indices
      (Stream.open overflow_record) 1970 1971 1900 [] Cache_initial
    = Returned 0 [C] cache
    /\ pow_zero_exact (RT := Reference.runtime)
    /\ Dbl.is_zero
         (speed (Constituent_scale (RT := Reference.runtime) 0 C)) = false
    /\ Forall (fun v => Dbl.is_zero v = false)
         (Vpu (Constituent_scale (RT := Reference.runtime) 0 C))
    /\ List.length (Vpu example_constituent) = List.length (Vpu C)
    /\ List.length (nodes example_constituent) = List.length (nodes C)
    /\ Constituent_add example_constituent
         (Constituent_scale (RT := Reference.runtime) 0 C) = Some A'
    /\ (speed A' =? speed example_constituent)%float = false.
Proof.
  do 3 eexists.
  split; [vm_compute; reflexivity |].
  split; [intros x; reflexivity |].
  split; [vm_compute; reflexivity |].
  split; [vm_compute; repeat constructor |].
  split; [reflexivity |].
  split; [reflexivity |].
  split; [vm_compute; reflexivity |].
  vm_compute. reflexivity.
Qed.


(** ** Compound constituents *)

Section CompoundAlgebra.

Context {RT : Runtime}.
Context (IX : Indices).

Local Open Scope float_scope.

Import DblFacts.

(** What the accumulation loop computes for one scalar of the result:
    from [start], add each part times its coefficient ... *)
Definition weighted_sum (start : float) (coefficients parts : list float)
  : float :=
  fold_left (fun acc '(x, v) => acc + v * x) (combine coefficients parts) start.

(** ... or multiply by each part raised to the absolute value of its
    coefficient. *)
Definition weighted_product (start : float) (coefficients parts : list float)
  : float :=
  fold_left (fun acc '(x, v) => acc * pow v (abs x))
    (combine coefficients parts) start.

(** The coefficient vector that is 1 at the O1 and K1 positions. *)
Definition K1_plus_O1 : list float := [1; 1; 0; 0; 0; 0; 0; 0; 0; 0; 0; 0; 0].

(** The statics of the Compound constructor are in their initial state or
    hold the bases of the cached years. *)
Definition Cache_valid (cache : Cache) : Prop :=
  cache = Cache_initial
  \/ build_bases IX base_table (firstYear_cached cache) (lastYear_cached cache)
       (epochForSpeed_cached cache) = Some (terms cache).

Lemma get_map2 (op : float -> float -> float) (a b : list float) (i : nat) :
  (i < List.length a)%nat -> (i < List.length b)%nat ->
  nth i (Valarray.map2 op a b) 0 = op (nth i a 0) (nth i b 0).
Proof.
  revert b i. induction a as [| x a IH]; intros [| y b] [| i] Ha Hb;
    simpl in *; try lia; [reflexivity |].
  apply IH; lia.
Qed.

Lemma get_map (g : float -> float) (l : list float) (i : nat) :
  (i < List.length l)%nat -> nth i (map g l) 0 = g (nth i l 0).
Proof.
  revert i. induction l as [| x l IH]; intros [| i] Hi; simpl in *;
    try lia; [reflexivity |].
  apply IH; lia.
Qed.

Lemma accumulate_formula n acc coefficients bases c :
  has_years n acc -> accumulate acc coefficients bases = Some c ->
  speed c = weighted_sum (speed acc) coefficients (map speed bases)
  /\ forall i : nat, (i < n)%nat ->
       nth i (Vpu c) 0
       = weighted_sum (nth i (Vpu acc) 0) coefficients
           (map (fun b => nth i (Vpu b) 0) bases)
       /\ nth i (nodes c) 0
          = weighted_product (nth i (nodes acc) 0) coefficients
              (map (fun b => nth i (nodes b) 0) bases).
Proof.
  revert acc bases.
  induction coefficients as [| x xs IH]; intros acc bases Hacc H; simpl in H.
  - inversion H; subst. split; [reflexivity |]. intros i Hi. split; reflexivity.
  - destruct bases as [| b bases].
    + inversion H; subst. split; [reflexivity |]. intros i Hi. split; reflexivity.
    + invert_bind H.
      pose proof (Constituent_add_years _ _ _ _ Hacc Ha) as Hacc'.
      destruct (IH _ _ Hacc' H) as [Hs Hv].
      unfold Constituent_add in Ha.
      apply assert_Some in Ha. destruct Ha as [Hl1 Ha].
      apply assert_Some in Ha. destruct Ha as [Hl2 Ha].
      apply Nat.eqb_eq in Hl1, Hl2. inversion Ha; subst a. clear Ha.
      destruct Hacc as [HaV HaN]. simpl in Hl1, Hl2.
      rewrite length_map in Hl1, Hl2.
      split.
      * rewrite Hs. reflexivity.
      * intros i Hi. destruct (Hv i Hi) as [Hv1 Hv2]. split.
        -- rewrite Hv1. cbn [Vpu Constituent_scale map combine fold_left weighted_sum].
           unfold weighted_sum. simpl. f_equal.
           unfold Valarray.add. rewrite get_map2, get_map; try lia; try reflexivity.
           rewrite length_map. lia.
        -- rewrite Hv2. unfold weighted_product. simpl. f_equal.
           unfold Valarray.mul. rewrite get_map2, get_map; try lia; try reflexivity.
           rewrite length_map. lia.
Qed.

Lemma weighted_sum_same (a a' : float) coefficients parts :
  same a a' ->
  same (weighted_sum a coefficients parts) (weighted_sum a' coefficients parts).
Proof.
  unfold weighted_sum. revert a a' parts.
  induction coefficients as [| x xs IH]; intros a a' parts H; simpl; [exact H |].
  destruct parts as [| v parts]; simpl; [exact H |].
  apply IH. now apply add_same_l.
Qed.

(** Parts with a zero coefficient do not change the sum. *)
Lemma weighted_sum_zeros (a : float) (k : nat) (parts : list float) :
  all_finite parts -> same (weighted_sum a (repeat 0 k) parts) a.
Proof.
  unfold weighted_sum. revert a parts.
  induction k as [| k IH]; intros a parts H; simpl; [apply same_refl |].
  destruct parts as [| v parts]; simpl; [apply same_refl |].
  inversion H; subst.
  eapply same_trans.
  - apply (weighted_sum_same (a + v * 0) a).
    apply add_zero_r. now apply mul_zero_r.
  - now apply IH.
Qed.

Lemma weighted_product_ones (a : float) (k : nat) (parts : list float) :
  pow_zero_exact -> weighted_product a (repeat 0 k) parts = a.
Proof.
  intros Hpow. unfold weighted_product. revert a parts.
  induction k as [| k IH]; intros a parts; simpl; [reflexivity |].
  destruct parts as [| v parts]; simpl; [reflexivity |].
  change (abs 0) with 0. rewrite Hpow, mul_1_r. apply IH.
Qed.

Lemma weighted_sum_K1_O1 (o k : float) (others : list float) :
  all_finite others ->
  same (weighted_sum 0 K1_plus_O1 (o :: k :: others)) (o + k).
Proof.
  intros H. unfold K1_plus_O1.
  change (same (weighted_sum (0 + o * 1 + k * 1) (repeat 0 11) others) (o + k)).
  eapply same_trans; [now apply weighted_sum_zeros |].
  rewrite !mul_1_r. apply add_same_l. now apply add_zero_l.
Qed.

Lemma weighted_product_K1_O1 (o k : float) (others : list float) :
  pow_zero_exact -> pow_one_exact ->
  weighted_product 1 K1_plus_O1 (o :: k :: others) = o * k.
Proof.
  intros H0 H1. unfold K1_plus_O1.
  change (weighted_product (1 * pow o (abs 1) * pow k (abs 1))
            (repeat 0 11) others = o * k).
  rewrite weighted_product_ones by assumption.
  change (abs 1) with 1. now rewrite !H1, mul_1_l.
Qed.

Lemma Cache_refresh_bases firstYear lastYear epochForSpeed cache cache' :
  Cache_valid cache -> (0 < firstYear)%Z ->
  Cache_refresh IX firstYear lastYear epochForSpeed cache = Some cache' ->
  build_bases IX base_table firstYear lastYear epochForSpeed
  = Some (terms cache')
  /\ Cache_valid cache'.
Proof.
  intros Hvalid Hfy. unfold Cache_refresh.
  destruct (negb (firstYear =? firstYear_cached cache)%Z
            || negb (lastYear =? lastYear_cached cache)%Z
            || negb (epochForSpeed =? epochForSpeed_cached cache)%Z) eqn:Hkeys;
    intros H.
  - invert_bind H. inversion H; subst cache'. simpl.
    split; [assumption | right; assumption].
  - inversion H; subst cache'. clear H.
    apply orb_false_elim in Hkeys. destruct Hkeys as [Hkeys He].
    apply orb_false_elim in Hkeys. destruct Hkeys as [Hf Hl].
    apply negb_false_iff, Z.eqb_eq in Hf, Hl, He.
    destruct Hvalid as [-> | Hb].
    + simpl in Hf. lia.
    + rewrite Hf, Hl, He. split; [assumption | right; assumption].
Qed.

Lemma build_bases_rows tbl firstYear lastYear epochForSpeed bases :
  build_bases IX tbl firstYear lastYear epochForSpeed = Some bases ->
  Forall2 (fun '(nm, V, u, tag) b =>
             Basic IX nm V u tag firstYear lastYear epochForSpeed = Some b)
    tbl bases.
Proof.
  revert bases. induction tbl as [| [[[nm V] u] tag] tbl IH];
    intros bases H; simpl in H.
  - inversion H. constructor.
  - repeat invert_bind H. inversion H; subst. constructor; auto.
Qed.

End CompoundAlgebra.

Section CompoundClaim.

Context {RT : Runtime}.
Context (IX : Indices).

Local Open Scope float_scope.

Import DblFacts.

Lemma nth_repeat_lt (v : float) (n i : nat) :
  (i < n)%nat -> nth i (repeat v n) 0 = v.
Proof.
  revert i. induction n as [| n IH]; intros [| i] Hi; simpl; try lia; auto.
  apply IH. lia.
Qed.

Lemma finite_column (bases : list Constituent) (i : nat) :
  Forall finite_constituent bases ->
  all_finite (map (fun b => nth i (Vpu b) 0) bases).
Proof.
  intros H. apply Forall_map. eapply Forall_impl; [| exact H].
  intros b [_ Hb]. simpl.
  destruct (Nat.lt_ge_cases i (List.length (Vpu b))) as [Hi | Hi].
  - unfold all_finite in Hb. rewrite Forall_forall in Hb.
    apply Hb. now apply nth_In.
  - now rewrite nth_overflow.
Qed.

Lemma finite_speeds (bases : list Constituent) :
  Forall finite_constituent bases -> all_finite (map speed bases).
Proof.
  intros H. apply Forall_map. eapply Forall_impl; [| exact H].
  now intros b [Hb _].
Qed.

(** C2.  A Compound construction over a valid cache accumulates the
    thirteen bases of its years: the speed and each V0+u element are the
    sum, from 0, of the parts times their coefficients, and each f element
    is the product, from 1, of the parts' node factors raised to the
    absolute values of the coefficients.  When the coefficient vector is 1
    at the O1 and K1 positions and 0 elsewhere (and the bases are finite
    numbers, with [pow] exact at the exponents 0 and 1), the speed is the
    sum of the O1 and K1 base speeds, the V0+u series is the elementwise
    sum of their V0+u series, and the f series is the elementwise product
    of their node factors. *)
Theorem C2_compound_of_K1_and_O1
    (nm : string) (coefficients : list float)
    (firstYear lastYear epochForSpeed : year_t)
    (cache cache' : Cache) (c : Constituent)
    (Hcache : Cache_valid IX cache)
    (H : Compound IX nm coefficients firstYear lastYear epochForSpeed cache
         = Some (c, cache')) :
  let n := Z.to_nat (lastYear - firstYear + 1) in
  exists bases : list Constituent,
    build_bases IX base_table firstYear lastYear epochForSpeed = Some bases
    /\ has_years n c
    /\ speed c = weighted_sum 0 coefficients (map speed bases)
    /\ (forall i : nat, (i < n)%nat ->
          nth i (Vpu c) 0
          = weighted_sum 0 coefficients (map (fun b => nth i (Vpu b) 0) bases)
          /\ nth i (nodes c) 0
             = weighted_product 1 coefficients
                 (map (fun b => nth i (nodes b) 0) bases))
    /\ (coefficients = K1_plus_O1 ->
        pow_zero_exact -> pow_one_exact ->
        Forall finite_constituent bases ->
        exists O1 K1 : Constituent,
          nth_error bases O1_index = Some O1
          /\ nth_error bases K1_index = Some K1
          /\ Basic IX "O₁" [1; -2; 1; 0; 0; 90] [2; -1; 0; 0; 0; 0; 0] 75
               firstYear lastYear epochForSpeed = Some O1
          /\ Basic IX "K₁" [1; 0; 1; 0; 0; -90] [0; 0; -1; 0; 0; 0; 0] 227
               firstYear lastYear epochForSpeed = Some K1
          /\ same (speed c) (speed O1 + speed K1)
          /\ forall i : nat, (i < n)%nat ->
               same (nth i (Vpu c) 0) (nth i (Vpu O1) 0 + nth i (Vpu K1) 0)
               /\ nth i (nodes c) 0 = nth i (nodes O1) 0 * nth i (nodes K1) 0).
Proof.
  intros n.
  pose proof (Compound_series IX _ _ _ _ _ _ _ _ H) as Hyears.
  unfold Compound in H.
  apply assert_Some in H. destruct H as [Hok H].
  apply assert_Some in H. destruct H as [Hlen H].
  apply bind_Some in H. destruct H as (cache1 & Hrefresh & H).
  apply bind_Some in H. destruct H as (sum & Hacc & H).
  inversion H; subst c cache'. clear H.
  assert (Hfy : (0 < firstYear)%Z).
  { unfold years_ok in Hok. repeat (apply andb_prop in Hok; destruct Hok as [Hok ?]).
    now apply Z.ltb_lt. }
  destruct (Cache_refresh_bases IX _ _ _ _ _ Hcache Hfy Hrefresh) as [Hbases _].
  exists (terms cache1). split; [exact Hbases |]. split; [exact Hyears |].
  destruct (accumulate_formula _ _ _ _ _ (Constituent_zero_years n) Hacc)
    as [Hspeed Hseries].
  assert (Hgeneral : forall i : nat, (i < n)%nat ->
            nth i (Vpu sum) 0
            = weighted_sum 0 coefficients
                (map (fun b => nth i (Vpu b) 0) (terms cache1))
            /\ nth i (nodes sum) 0
               = weighted_product 1 coefficients
                   (map (fun b => nth i (nodes b) 0) (terms cache1))).
  { intros i Hi. destruct (Hseries i Hi) as [Hv Hn].
    simpl in Hv, Hn. rewrite nth_repeat_lt in Hv, Hn by exact Hi. now split. }
  split; [exact Hspeed |]. split; [exact Hgeneral |].
  intros -> Hpow0 Hpow1 Hfin.
  pose proof (build_bases_rows IX _ _ _ _ _ Hbases) as Hrows.
  destruct (terms cache1) as [| O1 [| K1 others]];
    try (inversion Hrows; fail).
  { inversion Hrows as [| ? ? ? ? _ Hrows']. inversion Hrows'. }
  exists O1, K1.
  inversion Hrows as [| r1 b1 t1 l1 HO Hrows1]; subst.
  inversion Hrows1 as [| r2 b2 t2 l2 HK Hrows2]; subst.
  inversion Hfin as [| ? ? HfO Hfin1]; subst.
  inversion Hfin1 as [| ? ? HfK Hfin2]; subst.
  repeat split; try reflexivity; try assumption.
  - cbn [rename speed]. rewrite Hspeed. cbn [map].
    apply weighted_sum_K1_O1. now apply finite_speeds.
  - destruct (Hgeneral i H) as [Hv _]. cbn [rename Vpu]. rewrite Hv. cbn [map].
    apply weighted_sum_K1_O1. now apply finite_column.
  - destruct (Hgeneral i H) as [_ Hn]. cbn [rename nodes]. rewrite Hn. cbn [map].
    now apply weighted_product_K1_O1.
Qed.

End CompoundClaim.

Lemma C2_compound_of_K1_and_O1_witness :
  exists (c : Constituent) (cache' : Cache) (O1 K1 : Constituent),
    Compound (RT := Reference.runtime) Congen_indices "K₁+O₁" K1_plus_O1
      1970 1970 1900 Cache_initial = Some (c, cache')
    /\ nth_error (terms cache') O1_index = Some O1
    /\ nth_error (terms cache') K1_index = Some K1
    /\ DblFacts.same (speed c) (speed O1 + speed K1)%float.
Proof.
  destruct (Compound (RT := Reference.runtime) Congen_indices "K₁+O₁" K1_plus_O1
              1970 1970 1900 Cache_initial) as [[c cache'] |] eqn:E.
  - destruct (C2_compound_of_K1_and_O1 (RT := Reference.runtime) Congen_indices
                _ _ _ _ _ _ _ _ (or_introl eq_refl) E)
      as (bases & Hbases & _ & _ & _ & Hspecific).
    assert (Hterms : terms cache' = bases).
    { unfold Compound in E. vm_compute in E. vm_compute in Hbases.
      inversion E; subst. inversion Hbases; subst. reflexivity. }
    assert (Hfin : Forall finite_constituent bases).
    { vm_compute in Hbases. inversion Hbases; subst.
      repeat constructor. }
    destruct (Hspecific eq_refl (fun x => eq_refl) (fun x => eq_refl) Hfin)
      as (O1 & K1 & HO & HK & _ & _ & Hsame & _).
    exists c, cache', O1, K1. rewrite Hterms. auto.
  - vm_compute in E. discriminate E.
Defined.

(** ** The speed of a Basic constituent *)

Section BasicSpeed.

Context {RT : Runtime}.

Local Open Scope float_scope.

Import DblFacts.

Definition speeds_finite_upto (n : nat) : bool :=
  forallb
    (fun k =>
       match speeds_at (Z.of_nat k) with
       | Some speeds => forallb Dbl.is_finite speeds
       | None => false
       end)
    (seq 1 n).

Lemma speeds_finite_4000 : speeds_finite_upto 4000 = true.
Proof. vm_compute. reflexivity. Qed.

(** For every epoch the six speeds exist and are finite. *)
Lemma speeds_at_finite (e : year_t) :
  (1 <= e <= 4000)%Z ->
  exists speeds, speeds_at e = Some speeds /\ all_finite speeds.
Proof.
  intros He.
  pose proof speeds_finite_4000 as H. unfold speeds_finite_upto in H.
  rewrite forallb_forall in H.
  specialize (H (Z.to_nat e)).
  rewrite Z2Nat.id in H by lia.
  assert (Hin : In (Z.to_nat e) (seq 1 4000)) by (apply in_seq; lia).
  specialize (H Hin).
  destruct (speeds_at e) as [speeds |]; [| discriminate].
  exists speeds. split; [reflexivity |].
  unfold all_finite. rewrite Forall_forall. now apply forallb_forall.
Qed.

Lemma get_finite (l : list float) (i : nat) :
  all_finite l -> Dbl.is_finite (Valarray.get l i) = true.
Proof.
  intros H. unfold Valarray.get.
  destruct (Nat.lt_ge_cases i (List.length l)) as [Hi | Hi].
  - unfold all_finite in H. rewrite Forall_forall in H. apply H. now apply nth_In.
  - now rewrite nth_overflow.
Qed.

Definition row_name (row : string * list float * list float * Z) : string :=
  fst (fst (fst row)).

Definition row_u (row : string * list float * list float * Z) : list float :=
  snd (fst row).

(** No row of the base table has a coefficient at the Q position: L2
    has its -1 at the position of R and M1-DUTCH at the position of Qu. *)
Lemma base_table_Q_coefficient row :
  In row base_table ->
  Dbl.is_zero (Valarray.get (row_u row) (Q_index Congen_indices)) = true.
Proof.
  intros Hin. unfold base_table in Hin. simpl in Hin.
  repeat (destruct Hin as [<- | Hin]; [reflexivity |]).
  contradiction.
Qed.

(** C1.  For every Basic construction with epoch year [e] in [1, 4000],
    the speed is
    [(sum (V_terms (startYear e, 1) * V) + V_terms (startYear e, 1)[p_index]
      * u[Q_index]) / 876600].
    The second term, the M1 special case, is zero whenever the u
    coefficient at [Q_index] is zero, and the speed is then the first term
    over 876600 (up to the sign of a zero); that is the case for each of
    the thirteen bases of the Compound table, M1-DUTCH included. *)
Theorem C1_basic_speed (IX : Indices) (V u : list float) (e : year_t)
    (He : (1 <= e <= 4000)%Z) :
  exists (speeds : list float) (second : float),
    speeds_at e = Some speeds
    /\ second_term IX u e = Some second
    /\ second = Valarray.get speeds (p_index IX) * Valarray.get u (Q_index IX)
    /\ Basic_speed IX V u e
       = Some ((valarray_sum (Valarray.mul speeds V) + second)
               / hoursPerJulianCentury_double)
    /\ (forall nm tag firstYear lastYear c,
          Basic IX nm V u tag firstYear lastYear e = Some c ->
          speed c
          = (valarray_sum (Valarray.mul speeds V) + second)
            / hoursPerJulianCentury_double)
    /\ (Dbl.is_zero (Valarray.get u (Q_index IX)) = true ->
        Dbl.is_zero second = true)
    /\ (Dbl.is_zero (Valarray.get u (Q_index IX)) = true ->
        same (valarray_sum (Valarray.mul speeds V) + second)
          (valarray_sum (Valarray.mul speeds V)))
    /\ (IX = Congen_indices ->
        forall row, In row base_table -> row_u row = u ->
          Dbl.is_zero second = true).
Proof.
  destruct (speeds_at_finite e He) as (speeds & Hs & Hfin).
  exists speeds,
    (Valarray.get speeds (p_index IX) * Valarray.get u (Q_index IX)).
  assert (Hzero : Dbl.is_zero (Valarray.get u (Q_index IX)) = true ->
                  Dbl.is_zero (Valarray.get speeds (p_index IX)
                               * Valarray.get u (Q_index IX)) = true).
  { intros Hu. apply mul_zero_r; [now apply get_finite | exact Hu]. }
  assert (Hspeed : Basic_speed IX V u e
                   = Some ((valarray_sum (Valarray.mul speeds V)
                            + Valarray.get speeds (p_index IX)
                              * Valarray.get u (Q_index IX))
                           / hoursPerJulianCentury_double)).
  { unfold Basic_speed. unfold speeds_at in Hs.
    destruct (startYear e) as [t |]; [| discriminate].
    cbn [Assert.bind] in Hs |- *. now rewrite Hs. }
  split; [exact Hs |].
  split; [unfold second_term; now rewrite Hs |].
  split; [reflexivity |].
  split; [exact Hspeed |].
  split; [| split; [exact Hzero | split]].
  - intros nm tag firstYear lastYear c H. unfold Basic in H.
    apply assert_Some in H. destruct H as [_ H].
    apply assert_Some in H. destruct H as [_ H].
    apply assert_Some in H. destruct H as [_ H].
    apply bind_Some in H. destruct H as (sp & Hsp & H).
    apply bind_Some in H. destruct H as (rows & _ & H).
    inversion H; subst c. simpl. rewrite Hspeed in Hsp. now inversion Hsp.
  - intros Hu. apply add_zero_r. now apply Hzero.
  - intros -> row Hin <-. apply Hzero.
    now apply base_table_Q_coefficient.
Qed.

End BasicSpeed.

Lemma C1_basic_speed_witness :
  (1 <= 1900 <= 4000)
  /\ exists (speeds : list float) (second : float),
       speeds_at 1900 = Some speeds
       /\ second_term Congen_indices [2; -2; 0; 0; 0; -1; 0]%float 1900
          = Some second
       /\ Dbl.is_zero second = true.
Proof.
  assert (He : 1 <= 1900 <= 4000) by lia.
  split; [exact He |].
  destruct (C1_basic_speed (RT := Reference.runtime) Congen_indices
              [2; -1; 2; -1; 0; 180]%float [2; -2; 0; 0; 0; -1; 0]%float
              1900 He)
    as (speeds & second & H1 & H2 & _ & _ & _ & _ & _ & Hz).
  exists speeds, second. split; [exact H1 |]. split; [exact H2 |].
  apply (Hz eq_refl ("L₂"%string, [2; -1; 2; -1; 0; 180]%float,
                     [2; -2; 0; 0; 0; -1; 0]%float, 215)).
  - unfold base_table. simpl. tauto.
  - reflexivity.
Defined.

(** ** The node factor dispatch *)

Definition known_formulas : list Z :=
  [1; 73; 74; 75; 76; 77; 78; 79; 144; 149; 206; 215; 227; 235].

Lemma f_defined_iff {RT : Runtime} (tag : Z) (I P nu : float) :
  (exists v, f tag I P nu = Some v) <-> In tag known_formulas.
Proof.
  split.
  - intros [v H]. unfold f in H. unfold known_formulas. simpl.
    repeat match type of H with
           | match ?t with _ => _ end = _ => destruct t; try discriminate H
           end; tauto.
  - unfold known_formulas. simpl. intros H.
    repeat (destruct H as [<- | H]; [eexists; reflexivity |]).
    contradiction.
Qed.

Lemma f_undefined {RT : Runtime} (tag : Z) (I P nu : float) :
  ~ In tag known_formulas -> f tag I P nu = None.
Proof.
  intros H. destruct (f tag I P nu) as [v |] eqn:E; [| reflexivity].
  exfalso. apply H. apply (f_defined_iff tag I P nu). eauto.
Qed.

(** ** Constructors that cannot fail *)

Lemma midYear_defined (y : year_t) :
  1 <= y <= 4000 -> exists t, midYear y = Some t.
Proof.
  intros Hy. unfold midYear.
  rewrite assert_true by (apply Z.ltb_lt; lia).
  rewrite assert_true by (apply Z.leb_le; lia).
  rewrite (startYear_closed_form y) by lia.
  rewrite (startYear_closed_form (y + 1)) by lia.
  simpl. eauto.
Qed.

Lemma years_In (firstYear lastYear y : year_t) :
  In y (years firstYear lastYear) -> firstYear <= y <= lastYear.
Proof.
  unfold years. rewrite in_map_iff. intros (k & <- & Hk).
  apply in_seq in Hk. lia.
Qed.

Lemma for_years_total {A : Type} (body : year_t -> option A) (ys : list year_t) :
  (forall y, In y ys -> exists a, body y = Some a) ->
  exists rows, for_years body ys = Some rows.
Proof.
  induction ys as [| y ys IH]; intros H; simpl; [eauto |].
  destruct (H y (or_introl eq_refl)) as [a Ha]. rewrite Ha. simpl.
  destruct IH as [rows Hrows]; [intros y' Hy'; apply H; now right |].
  rewrite Hrows. simpl. eauto.
Qed.

Lemma years_ok_spec (firstYear lastYear epochForSpeed : year_t) :
  years_ok firstYear lastYear epochForSpeed = true <->
  firstYear <= lastYear /\ 0 < firstYear /\ lastYear <= 4000
  /\ 0 < epochForSpeed /\ epochForSpeed <= 4000.
Proof.
  unfold years_ok. rewrite !andb_true_iff, !Z.leb_le, !Z.ltb_lt. tauto.
Qed.

Section Production.

Context {RT : Runtime}.

(** Once its assertions on the years and on the size of V hold, the
    Doodson constructor returns a constituent. *)
Lemma Doodson_total nm V sats firstYear lastYear epochForSpeed :
  years_ok firstYear lastYear epochForSpeed = true ->
  List.length V = numVterms ->
  exists c, Doodson nm V sats firstYear lastYear epochForSpeed = Some c.
Proof.
  intros Hok HV. unfold Doodson.
  rewrite assert_true by exact Hok.
  rewrite assert_true by (now apply Nat.eqb_eq).
  apply years_ok_spec in Hok.
  rewrite (startYear_closed_form epochForSpeed) by lia.
  cbn [Assert.bind V_terms poly_terms].
  destruct (for_years_total (Doodson_year V sats) (years firstYear lastYear))
    as [rows Hrows].
  - intros y Hy. apply years_In in Hy. unfold Doodson_year.
    rewrite (startYear_closed_form y) by lia.
    destruct (midYear_defined y) as [t Ht]; [lia |]. rewrite Ht.
    cbn [Assert.bind midyear_terms V_terms poly_terms].
    destruct (satellite_sums _ _ _ sats) as [cossum sinsum]. eauto.
  - rewrite Hrows. cbn [Assert.bind]. eauto.
Qed.

End Production.

(** C6.  Every constituent produced by the Basic, the Doodson or the
    Compound constructor has a V0+u series and an f series of
    [lastYear - firstYear + 1] elements each, with
    [firstYear <= lastYear]; in the Basic and Doodson series element [i]
    of both is the value computed for year [firstYear + i].  The Doodson
    constructor does produce a constituent whenever its assertions on the
    years and on the number of V coefficients hold. *)
Theorem C6_series_share_the_year_axis {RT : Runtime} (IX : Indices)
    (firstYear lastYear epochForSpeed : year_t) (c : Constituent) :
  let n := Z.to_nat (lastYear - firstYear + 1) in
  (forall nm V u tag,
      Basic IX nm V u tag firstYear lastYear epochForSpeed = Some c ->
      firstYear <= lastYear
      /\ List.length (Vpu c) = n /\ List.length (nodes c) = n
      /\ same_year_axis (Basic_year IX V u tag) firstYear c)
  /\ (forall nm V sats,
        Doodson nm V sats firstYear lastYear epochForSpeed = Some c ->
        firstYear <= lastYear
        /\ List.length (Vpu c) = n /\ List.length (nodes c) = n
        /\ same_year_axis (Doodson_year V sats) firstYear c)
  /\ (forall nm coefficients cache cache',
        Compound IX nm coefficients firstYear lastYear epochForSpeed cache
        = Some (c, cache') ->
        firstYear <= lastYear
        /\ List.length (Vpu c) = n /\ List.length (nodes c) = n)
  /\ (forall nm V sats,
        years_ok firstYear lastYear epochForSpeed = true ->
        List.length V = numVterms ->
        exists d, Doodson nm V sats firstYear lastYear epochForSpeed = Some d
                  /\ List.length (Vpu d) = n /\ List.length (nodes d) = n).
Proof.
  intros n. repeat split.
  - unfold Basic in H. apply assert_Some in H. destruct H as [Hok _].
    apply years_ok_spec in Hok. lia.
  - now destruct (Basic_series IX _ _ _ _ _ _ _ _ H) as [[H1 _] _].
  - now destruct (Basic_series IX _ _ _ _ _ _ _ _ H) as [[_ H2] _].
  - now destruct (Basic_series IX _ _ _ _ _ _ _ _ H) as [_ H3].
  - unfold Doodson in H. apply assert_Some in H. destruct H as [Hok _].
    apply years_ok_spec in Hok. lia.
  - now destruct (Doodson_series _ _ _ _ _ _ _ H) as [[H1 _] _].
  - now destruct (Doodson_series _ _ _ _ _ _ _ H) as [[_ H2] _].
  - now destruct (Doodson_series _ _ _ _ _ _ _ H) as [_ H3].
  - unfold Compound in H. apply assert_Some in H. destruct H as [Hok _].
    apply years_ok_spec in Hok. lia.
  - now destruct (Compound_series IX _ _ _ _ _ _ _ _ H) as [H1 _].
  - now destruct (Compound_series IX _ _ _ _ _ _ _ _ H) as [_ H2].
  - intros nm V sats Hok HV.
    destruct (Doodson_total nm V sats _ _ _ Hok HV) as [d Hd].
    exists d. split; [exact Hd |].
    now destruct (Doodson_series _ _ _ _ _ _ _ Hd) as [[H1 H2] _].
Qed.

Lemma C6_series_share_the_year_axis_witness :
  exists d : Constituent,
    Doodson (RT := Reference.runtime) "M₂" [2; -2; 2; 0; 0; 0]%float []
      1970 2037 1900 = Some d
    /\ List.length (Vpu d) = 68%nat /\ List.length (nodes d) = 68%nat.
Proof.
  exact (proj2 (proj2 (proj2
           (C6_series_share_the_year_axis (RT := Reference.runtime)
              Congen_indices 1970 2037 1900 example_constituent)))
         "M₂"%string [2; -2; 2; 0; 0; 0]%float [] eq_refl eq_refl).
Defined.

(** ** Reading fields from a line *)

Module StreamFacts.

Import Stream Text.


Lemma blanks_app (a b : list ascii) : blanks (a ++ b) <-> blanks a /\ blanks b.
Proof. unfold blanks. rewrite forallb_app. apply andb_true_iff. Qed.











Lemma split_line_one_line (l r : list ascii) :
  one_line l -> split_line (l ++ newline :: r) = (l, Some r).
Proof.
  intros Hl. induction l as [| c l IH]; simpl.
  - reflexivity.
  - simpl in Hl. apply andb_prop in Hl. destruct Hl as [Hc Hl].
    apply negb_true_iff in Hc. rewrite Hc, IH by assumption. reflexivity.
Qed.

Lemma split_line_last (l : list ascii) :
  one_line l -> split_line l = (l, None).
Proof.
  intros Hl. induction l as [| c l IH]; simpl.
  - reflexivity.
  - simpl in Hl. apply andb_prop in Hl. destruct Hl as [Hc Hl].
    apply negb_true_iff in Hc. rewrite Hc, IH by assumption. reflexivity.
Qed.

(** [getline] on a line that ends with a newline, and on the last line. *)
Lemma getline_line (l r buf : list ascii) :
  one_line l -> getline (open (l ++ newline :: r)) buf = (open r, l).
Proof.
  intros Hl. unfold getline. simpl. now rewrite split_line_one_line.
Qed.

Lemma getline_last (l buf : list ascii) :
  one_line l ->
  getline (open l) buf
  = ({| rest := []; eofbit := true;
        failbit := match l with [] => true | _ => false end |}, l).
Proof.
  intros Hl. unfold getline. simpl. now rewrite split_line_last.
Qed.

End StreamFacts.

(** ** The line loop of the parser *)

Section LineLoop.

Context {RT : Runtime}.
Context (IX : Indices).
Context (firstYear lastYear epochForSpeed : year_t).

Import Stream Text StreamFacts.

Abbreviation parse fuel is_ lineno constituents cache :=
  (parse_lines IX fuel is_ lineno firstYear lastYear epochForSpeed
     constituents cache).

(** [lineno] after [k] more lines. *)
Fixpoint advance (k : nat) (lineno : Z) : Z :=
  match k with
  | O => lineno
  | S k' => incr (advance k' lineno)
  end.

Lemma advance_small (k : nat) (lineno : Z) :
  0 <= lineno -> lineno + Z.of_nat k < 2 ^ 32 ->
  advance k lineno = lineno + Z.of_nat k.
Proof.
  intros H0. induction k as [| k IH]; intros Hk.
  - simpl. lia.
  - cbn [advance]. rewrite IH by lia.
    unfold incr. rewrite Z.mod_small; lia.
Qed.

Lemma advance_S (k : nat) (lineno : Z) :
  advance k (incr lineno) = advance (S k) lineno.
Proof.
  induction k as [| k IH]; [reflexivity |].
  cbn [advance] in *. now rewrite IH.
Qed.

(** Empty lines and comments are skipped and counted. *)
Lemma parse_skips_ignorable (ls : list (list ascii)) :
  Forall ignorable ls ->
  forall (fuel : nat) (r : list ascii) (lineno : Z) cs cache,
    (List.length ls <= fuel)%nat ->
    parse fuel (open (unlines ls ++ r)) lineno cs cache
    = parse (fuel - List.length ls) (open r)
        (advance (List.length ls) lineno) cs cache.
Proof.
  induction 1 as [| l ls [Hl Hshape] Hls IH];
    intros fuel r lineno cs cache Hfuel.
  - simpl. now rewrite Nat.sub_0_r.
  - destruct fuel as [| fuel]; [simpl in Hfuel; lia |].
    cbn [List.length Nat.sub]. rewrite <- advance_S.
    rewrite <- IH by (simpl in Hfuel; lia).
    unfold unlines. cbn [map List.concat]. rewrite <- !app_assoc.
    cbn [app]. fold (unlines ls).
    cbn [parse_lines]. cbn [good open eofbit failbit negb andb].
    rewrite getline_line by assumption. cbn [fail open failbit].
    destruct Hshape as [-> | [t ->]]; reflexivity.
Qed.

End LineLoop.

Section RecordLines.

Context {RT : Runtime}.
Context (IX : Indices).
Context (firstYear lastYear epochForSpeed : year_t).

Import Stream Text StreamFacts.

Abbreviation parse fuel is_ lineno constituents cache :=
  (parse_lines IX fuel is_ lineno firstYear lastYear epochForSpeed
     constituents cache).

(** The stream after [getline] took a line that [tail] follows. *)
Definition after_line (tail : list ascii) : istream :=
  match tail with
  | [] => {| rest := []; eofbit := true; failbit := false |}
  | _ :: r => open r
  end.





(** After the last line: the loop ends with 0. *)
Lemma parse_at_end (fuel : nat) (tail : list ascii) (lineno : Z) cs cache :
  tail = [] \/ tail = [newline] ->
  parse (S fuel) (after_line tail) lineno cs cache = Returned 0 cs cache.
Proof. intros [-> | ->]; reflexivity. Qed.




End RecordLines.

Lemma unlines_length (ls : list (list ascii)) :
  (List.length ls <= List.length (Text.unlines ls))%nat.
Proof.
  induction ls as [| l ls IH]; [simpl; lia |].
  unfold Text.unlines in *. cbn [map List.concat List.length].
  rewrite !length_app. cbn [List.length]. lia.
Qed.

Definition comment_line : list ascii := list_ascii_of_string "# catalog".


(** ** Reading numbers from a line *)

Module NumberFacts.

Import Stream Text StreamFacts FloatField.















End NumberFacts.

(** ** Satellite blocks *)

Section SatelliteBlocks.

Import Stream Text StreamFacts NumberFacts.





End SatelliteBlocks.


(** * Further properties of the code *)

(** ** The calendar *)

(** A property checked on each of the years 1 to 4000 holds for every year
    in that range. *)
Lemma for_all_years (P : Z -> bool) :
  forallb (fun k => P (Z.of_nat k)) (seq 1 4000) = true ->
  forall y : Z, 1 <= y <= 4000 -> P y = true.
Proof.
  intros H y Hy. rewrite forallb_forall in H.
  specialize (H (Z.to_nat y)). rewrite Z2Nat.id in H by lia.
  apply H. apply in_seq. lia.
Qed.

(** The Gregorian leap years. *)
Definition is_leap (y : Z) : bool :=
  (y mod 4 =? 0) && (negb (y mod 100 =? 0) || (y mod 400 =? 0)).

Definition year_length_ok (y : Z) : bool :=
  startYear_exact (y + 1) - startYear_exact y
  =? 31536000 + (if is_leap y then 86400 else 0).

Lemma year_length_checked :
  forallb (fun k => year_length_ok (Z.of_nat k)) (seq 1 4000) = true.
Proof. vm_compute. reflexivity. Qed.

(** The year [y] lasts 365 days of 86400 seconds, and 366 in a Gregorian
    leap year: that is the distance from [startYear y] to
    [startYear (y + 1)]. *)
Theorem startYear_year_length (y : Z) (Hy : 1 <= y <= 4000) :
  exists s s' : Z,
    startYear y = Some s /\ startYear (y + 1) = Some s'
    /\ s' - s = (if is_leap y then 366 else 365) * 86400.
Proof.
  exists (startYear_exact y), (startYear_exact (y + 1)).
  rewrite !startYear_closed_form by lia.
  split; [reflexivity |]. split; [reflexivity |].
  pose proof (for_all_years _ year_length_checked y Hy) as H.
  unfold year_length_ok in H. apply Z.eqb_eq in H.
  destruct (is_leap y); lia.
Qed.

Lemma startYear_year_length_witness :
  exists s s' : Z,
    startYear 2000 = Some s /\ startYear 2001 = Some s'
    /\ s' - s = 366 * 86400.
Proof.
  assert (Hy : 1 <= 2000 <= 4000) by lia.
  exact (startYear_year_length 2000 Hy).
Defined.

(** [midYear] is half a year after the start of the year: 182 days and 12
    hours in a common year, 183 days in a leap year, without any wrap of
    the 64-bit sum; so it lies strictly inside the year. *)
Theorem midYear_is_half_a_year_in (y : Z) (Hy : 1 <= y <= 4000) :
  exists s s' m : Z,
    startYear y = Some s /\ startYear (y + 1) = Some s' /\ midYear y = Some m
    /\ m - s = (if is_leap y then 183 * 86400 else 182 * 86400 + 43200)
    /\ s < m < s'.
Proof.
  destruct (startYear_year_length y Hy) as (s & s' & Hs & Hs' & Hlen).
  pose proof Hs as Hs0. pose proof Hs' as Hs0'.
  rewrite startYear_closed_form in Hs0, Hs0' by lia.
  inversion Hs0 as [Hse]. inversion Hs0' as [Hse'].
  pose proof (leapDays_bounds (y - 1) ltac:(lia)) as Hl.
  pose proof (leapDays_bounds (y + 1 - 1) ltac:(lia)) as Hl'.
  assert (Hrange : -62135596800 <= s <= 64178611200
                   /\ -62135596800 <= s' <= 64178611200).
  { unfold startYear_exact in Hse, Hse'. lia. }
  exists s, s', ((s + s') / 2).
  split; [exact Hs |]. split; [exact Hs' |].
  assert (Hmid : midYear y = Some ((s + s') / 2)).
  { unfold midYear.
    rewrite assert_true by (apply Z.ltb_lt; lia).
    rewrite assert_true by (apply Z.leb_le; lia).
    rewrite Hs, Hs'. cbn [Assert.bind]. f_equal.
    unfold Int64.div, Int64.add.
    rewrite (Int64_wrap_small (s + s'))
      by (unfold Int64.in_range, Int64.half_modulus; lia).
    assert (Hq : Z.quot (s + s') 2 = (s + s') / 2).
    { replace (s + s') with (2 * s + (s' - s)) by lia.
      rewrite Hlen. destruct (is_leap y).
      - replace (2 * s + 366 * 86400) with ((s + 183 * 86400) * 2) by lia.
        now rewrite Z.quot_mul, Z.div_mul by lia.
      - replace (2 * s + 365 * 86400) with ((s + 15768000) * 2) by lia.
        now rewrite Z.quot_mul, Z.div_mul by lia. }
    rewrite Hq. apply Int64_wrap_small.
    unfold Int64.in_range, Int64.half_modulus.
    assert (s <= (s + s') / 2 <= s').
    { split; [apply Z.div_le_lower_bound | apply Z.div_le_upper_bound];
        destruct (is_leap y); lia. }
    lia. }
  split; [exact Hmid |].
  assert (Hval : (s + s') / 2
                 = s + (if is_leap y then 183 * 86400 else 182 * 86400 + 43200)).
  { replace (s + s') with (2 * s + (s' - s)) by lia. rewrite Hlen.
    destruct (is_leap y).
    - replace (2 * s + 366 * 86400) with ((s + 183 * 86400) * 2) by lia.
      now rewrite Z.div_mul by lia.
    - replace (2 * s + 365 * 86400) with ((s + (182 * 86400 + 43200)) * 2) by lia.
      now rewrite Z.div_mul by lia. }
  rewrite Hval. destruct (is_leap y); lia.
Qed.

Lemma midYear_is_half_a_year_in_witness :
  exists s s' m : Z,
    startYear 1970 = Some s /\ startYear 1971 = Some s' /\ midYear 1970 = Some m
    /\ m - s = 182 * 86400 + 43200 /\ s < m < s'.
Proof.
  assert (Hy : 1 <= 1970 <= 4000) by lia.
  exact (midYear_is_half_a_year_in 1970 Hy).
Defined.

(** ** harmgen: the year of a timestamp *)

Module HarmgenFacts.

Import Harmgen.

Definition estimate (t : Z) : Z := (t - yearOneStart) / avgSecPerYear + 1.

(** For the year [y]: the estimate at its first and at its last second is
    within one year of [y], and the years around [y] start in order. *)
Definition estimate_ok (y : Z) : bool :=
  (y - 1 <=? estimate (startYear_exact y))
  && (1 <=? estimate (startYear_exact y))
  && (estimate (startYear_exact (y + 1) - 1) <=? y + 1)
  && (startYear_exact y <? startYear_exact (y + 1))
  && (startYear_exact (y - 1) <? startYear_exact y).

Lemma estimate_checked :
  forallb (fun k => estimate_ok (Z.of_nat k)) (seq 1 4000) = true.
Proof. vm_compute. reflexivity. Qed.

Lemma estimate_facts (y : Z) :
  1 <= y <= 4000 ->
  y - 1 <= estimate (startYear_exact y)
  /\ 1 <= estimate (startYear_exact y)
  /\ estimate (startYear_exact (y + 1) - 1) <= y + 1
  /\ startYear_exact y < startYear_exact (y + 1)
  /\ startYear_exact (y - 1) < startYear_exact y.
Proof.
  intros Hy. pose proof (for_all_years _ estimate_checked y Hy) as H.
  unfold estimate_ok in H. rewrite !andb_true_iff in H.
  rewrite !Z.leb_le, !Z.ltb_lt in H. tauto.
Qed.

Lemma estimate_mono (t t' : Z) : t <= t' -> estimate t <= estimate t'.
Proof.
  intros H. unfold estimate.
  pose proof (Z.div_le_mono (t - yearOneStart) (t' - yearOneStart)
                avgSecPerYear ltac:(unfold avgSecPerYear; lia) ltac:(lia)).
  lia.
Qed.

Lemma startYear_exact_range (y : Z) :
  1 <= y <= 4001 ->
  -62135596800 <= startYear_exact y <= 64178611200.
Proof.
  intros Hy. unfold startYear_exact.
  pose proof (leapDays_bounds (y - 1) ltac:(lia)). lia.
Qed.

Lemma to_year_small (z : Z) : 0 <= z < 2 ^ 16 -> to_year z = z.
Proof. intros H. unfold to_year. now apply Z.mod_small. Qed.

(** The first estimate, for a timestamp inside the year [y]. *)
Lemma first_estimate (t y : Z) :
  1 <= y <= 4000 ->
  startYear_exact y <= t < startYear_exact (y + 1) ->
  to_year (Int64.add (Int64.div (Int64.sub t yearOneStart) avgSecPerYear) 1)
  = estimate t
  /\ (estimate t = y - 1 /\ 2 <= y \/ estimate t = y \/ estimate t = y + 1).
Proof.
  intros Hy Ht.
  pose proof (startYear_exact_range y ltac:(lia)) as Hr.
  pose proof (startYear_exact_range (y + 1) ltac:(lia)) as Hr'.
  destruct (estimate_facts y Hy) as (Hlo & Hlo1 & Hhi & _ & _).
  pose proof (estimate_mono (startYear_exact y) t ltac:(lia)) as Hm1.
  pose proof (estimate_mono t (startYear_exact (y + 1) - 1) ltac:(lia)) as Hm2.
  split; [| lia].
  unfold Int64.add, Int64.div, Int64.sub.
  rewrite (Int64_wrap_small (t - yearOneStart))
    by (unfold Int64.in_range, Int64.half_modulus, yearOneStart; lia).
  rewrite Z.quot_div_nonneg
    by (unfold yearOneStart, avgSecPerYear; lia).
  assert (Hq : 0 <= (t - yearOneStart) / avgSecPerYear <= 4001)
    by (unfold estimate in *; lia).
  rewrite (Int64_wrap_small ((t - yearOneStart) / avgSecPerYear))
    by (unfold Int64.in_range, Int64.half_modulus; lia).
  rewrite Int64_wrap_small
    by (unfold Int64.in_range, Int64.half_modulus; lia).
  unfold estimate. apply to_year_small. lia.
Qed.

(** The two closing assertions hold for the year that contains [t]. *)
Lemma closing_assertions (t y : Z) :
  1 <= y <= 4000 ->
  startYear_exact y <= t < startYear_exact (y + 1) ->
  (assert! ((0 <? y) && (y <? 4001)) ;;
   s <- startYear y ;;
   assert! (s <=? t) ;;
   s1 <- startYear (to_year (y + 1)) ;;
   assert! (t <? s1) ;;
   Some y) = Some y.
Proof.
  intros Hy Ht.
  rewrite assert_true
    by (apply andb_true_iff; split; apply Z.ltb_lt; lia).
  rewrite startYear_closed_form by lia. cbn [Assert.bind].
  rewrite assert_true by (apply Z.leb_le; lia).
  rewrite to_year_small by lia.
  rewrite startYear_closed_form by lia. cbn [Assert.bind].
  rewrite assert_true by (apply Z.ltb_lt; lia).
  reflexivity.
Qed.

(** [yearOfTimestamp] returns a year exactly for the timestamps of the
    years 1 to 4000, and then the year that contains the timestamp: the
    estimate from the average year length is never off by more than the
    one year that the function corrects, and no assertion fails.  Every
    other timestamp fails an assertion. *)
Theorem yearOfTimestamp_finds_the_year (t y : Z) :
  yearOfTimestamp t = Some y
  <-> 1 <= y <= 4000 /\ startYear_exact y <= t < startYear_exact (y + 1).
Proof.
  split.
  - unfold yearOfTimestamp. intros H.
    apply bind_Some in H. destruct H as (s0 & _ & H).
    apply bind_Some in H. destruct H as (year & _ & H).
    apply assert_Some in H. destruct H as [Hrange H].
    apply andb_prop in Hrange. destruct Hrange as [H0 H4001].
    apply Z.ltb_lt in H0, H4001.
    apply bind_Some in H. destruct H as (s & Hs & H).
    apply assert_Some in H. destruct H as [Hle H].
    apply bind_Some in H. destruct H as (s1 & Hs1 & H).
    apply assert_Some in H. destruct H as [Hlt H].
    inversion H; subst y. clear H.
    rewrite to_year_small in Hs1 by lia.
    rewrite startYear_closed_form in Hs, Hs1 by lia.
    inversion Hs; subst s. inversion Hs1; subst s1.
    apply Z.leb_le in Hle. apply Z.ltb_lt in Hlt. lia.
  - intros [Hy Ht].
    destruct (first_estimate t y Hy Ht) as [Hest Hcases].
    destruct (estimate_facts y Hy) as (_ & _ & _ & Hnext & Hprev).
    unfold yearOfTimestamp. rewrite Hest.
    destruct Hcases as [[He Hy2] | [He | He]]; rewrite He.
    + rewrite startYear_closed_form by lia. cbn [Assert.bind].
      destruct (Z.ltb_spec t (startYear_exact (y - 1))) as [Hlt | _]; [lia |].
      rewrite to_year_small by lia.
      replace (y - 1 + 1) with y by lia.
      rewrite startYear_closed_form by lia. cbn [Assert.bind].
      destruct (Z.leb_spec (startYear_exact y) t) as [_ | Hgt]; [| lia].
      now apply closing_assertions.
    + rewrite startYear_closed_form by lia. cbn [Assert.bind].
      destruct (Z.ltb_spec t (startYear_exact y)) as [Hlt | _]; [lia |].
      rewrite to_year_small by lia.
      rewrite startYear_closed_form by lia. cbn [Assert.bind].
      destruct (Z.leb_spec (startYear_exact (y + 1)) t) as [Hle | _]; [lia |].
      now apply closing_assertions.
    + rewrite startYear_closed_form by lia. cbn [Assert.bind].
      destruct (Z.ltb_spec t (startYear_exact (y + 1))) as [_ | Hge]; [| lia].
      cbn [Assert.bind]. rewrite to_year_small by lia.
      replace (y + 1 - 1) with y by lia.
      now apply closing_assertions.
Qed.

End HarmgenFacts.

Lemma startYear_exact_increasing (a b : Z) :
  1 <= a -> a <= b -> b <= 4001 -> startYear_exact a <= startYear_exact b.
Proof.
  intros Ha Hab Hb.
  replace b with (a + Z.of_nat (Z.to_nat (b - a))) by lia.
  assert (Hk : a + Z.of_nat (Z.to_nat (b - a)) <= 4001) by lia.
  induction (Z.to_nat (b - a)) as [| k IH].
  - replace (a + Z.of_nat 0) with a by lia. lia.
  - assert (Hk' : a + Z.of_nat k <= 4001) by lia.
    specialize (IH Hk').
    destruct (HarmgenFacts.estimate_facts (a + Z.of_nat k) ltac:(lia))
      as (_ & _ & _ & Hnext & _).
    replace (a + Z.of_nat (S k)) with (a + Z.of_nat k + 1) by lia. lia.
Qed.

(** [yearOfTimestamp] is monotone, so the years that harmgen derives from
    the first and the last timestamp of a series satisfy every assertion
    that the constituent constructors make on their years (with the epoch
    1900 that harmgen passes). *)
Theorem yearOfTimestamp_monotone (t t' y y' : Z)
    (Hle : t <= t')
    (Hy : Harmgen.yearOfTimestamp t = Some y)
    (Hy' : Harmgen.yearOfTimestamp t' = Some y') :
  y <= y' /\ years_ok y y' 1900 = true.
Proof.
  apply HarmgenFacts.yearOfTimestamp_finds_the_year in Hy, Hy'.
  destruct Hy as [Hr Ht]. destruct Hy' as [Hr' Ht'].
  assert (H : y <= y').
  { destruct (Z.le_gt_cases y y') as [H | H]; [exact H |].
    pose proof (startYear_exact_increasing (y' + 1) y ltac:(lia) ltac:(lia)
                  ltac:(lia)).
    lia. }
  split; [exact H |]. apply years_ok_spec. lia.
Qed.

Lemma yearOfTimestamp_monotone_witness :
  1970 <= 2037 /\ years_ok 1970 2037 1900 = true.
Proof.
  assert (Hle : 0 <= 2145916799) by lia.
  assert (Hy : Harmgen.yearOfTimestamp 0 = Some 1970) by reflexivity.
  assert (Hy' : Harmgen.yearOfTimestamp 2145916799 = Some 2037) by reflexivity.
  exact (yearOfTimestamp_monotone 0 2145916799 1970 2037 Hle Hy Hy').
Defined.

(** ** More algebra of constituents *)

Module AlgebraFacts.

Local Open Scope float_scope.

Lemma SFadd_comm (x y : spec_float) : SF64add x y = SF64add y x.
Proof.
  unfold SF64add, SFadd.
  destruct x as [sx | sx | | sx mx ex], y as [sy | sy | | sy my ey];
    try reflexivity;
    try (destruct sx, sy; reflexivity).
  rewrite (Z.min_comm ey ex). f_equal. apply Z.add_comm.
Qed.

Lemma SFmul_comm (x y : spec_float) : SF64mul x y = SF64mul y x.
Proof.
  unfold SF64mul, SFmul.
  destruct x as [sx | sx | | sx mx ex], y as [sy | sy | | sy my ey];
    try reflexivity;
    try (destruct sx, sy; reflexivity).
  now rewrite xorb_comm, Pos.mul_comm, Z.add_comm.
Qed.

Lemma add_comm (x y : float) : x + y = y + x.
Proof. apply Prim2SF_inj. rewrite !add_spec. apply SFadd_comm. Qed.

Lemma mul_comm (x y : float) : x * y = y * x.
Proof. apply Prim2SF_inj. rewrite !mul_spec. apply SFmul_comm. Qed.

Lemma map2_comm (op : float -> float -> float) (a b : list float) :
  (forall x y, op x y = op y x) ->
  Valarray.map2 op a b = Valarray.map2 op b a.
Proof.
  intros Hop. revert b. induction a as [| x a IH]; intros [| y b];
    simpl; try reflexivity.
  now rewrite Hop, IH.
Qed.

(** [operator+=] does not depend on the order of its operands: [a += b]
    and [b += a] fail together (when the series lengths differ) or leave
    the same speed, the same V0+u series and the same f series, bit for
    bit. *)
Theorem Constituent_add_commutes (a b : Constituent) :
  Constituent_add a b = Constituent_add b a.
Proof.
  unfold Constituent_add.
  rewrite (Nat.eqb_sym (List.length (Vpu b))),
          (Nat.eqb_sym (List.length (nodes b))).
  destruct (List.length (Vpu a) =? List.length (Vpu b))%nat; [| reflexivity].
  destruct (List.length (nodes a) =? List.length (nodes b))%nat; [| reflexivity].
  cbn [Assert.assert Assert.bind]. f_equal. f_equal.
  - apply add_comm.
  - apply map2_comm, add_comm.
  - apply map2_comm, mul_comm.
Qed.

End AlgebraFacts.

Section CompoundMore.

Context {RT : Runtime}.
Context (IX : Indices).

Local Open Scope float_scope.

Import DblFacts.

(** The cache after a refresh for the given years. *)
Definition Cache_for (firstYear lastYear epochForSpeed : year_t)
    (bases : list Constituent) : Cache :=
  {| firstYear_cached := firstYear; lastYear_cached := lastYear;
     epochForSpeed_cached := epochForSpeed; terms := bases |}.

Lemma Cache_refresh_canonical firstYear lastYear epochForSpeed cache :
  Cache_valid IX cache -> (0 < firstYear)%Z ->
  Cache_refresh IX firstYear lastYear epochForSpeed cache
  = option_map (Cache_for firstYear lastYear epochForSpeed)
      (build_bases IX base_table firstYear lastYear epochForSpeed).
Proof.
  intros Hvalid Hfy. unfold Cache_refresh.
  destruct (negb (firstYear =? firstYear_cached cache)%Z
            || negb (lastYear =? lastYear_cached cache)%Z
            || negb (epochForSpeed =? epochForSpeed_cached cache)%Z) eqn:Hkeys.
  - destruct (build_bases IX base_table firstYear lastYear epochForSpeed);
      reflexivity.
  - apply orb_false_elim in Hkeys. destruct Hkeys as [Hkeys He].
    apply orb_false_elim in Hkeys. destruct Hkeys as [Hf Hl].
    apply negb_false_iff, Z.eqb_eq in Hf, Hl, He.
    destruct Hvalid as [-> | Hb].
    + simpl in Hf. lia.
    + rewrite Hf, Hl, He, Hb. destruct cache. reflexivity.
Qed.

(** The memoization of the bases cannot be observed: from any two states
    that the statics of the Compound constructor can be in, the same call
    fails or returns the same constituent, and leaves the same state, which
    again holds the bases of its years. *)
Theorem Compound_ignores_the_cache (nm : string) (coefficients : list float)
    (firstYear lastYear epochForSpeed : year_t) (cache1 cache2 : Cache)
    (H1 : Cache_valid IX cache1) (H2 : Cache_valid IX cache2) :
  Compound IX nm coefficients firstYear lastYear epochForSpeed cache1
  = Compound IX nm coefficients firstYear lastYear epochForSpeed cache2
  /\ forall c cache',
       Compound IX nm coefficients firstYear lastYear epochForSpeed cache1
       = Some (c, cache') ->
       Cache_valid IX cache'
       /\ firstYear_cached cache' = firstYear
       /\ lastYear_cached cache' = lastYear
       /\ epochForSpeed_cached cache' = epochForSpeed.
Proof.
  split.
  - unfold Compound.
    destruct (years_ok firstYear lastYear epochForSpeed) eqn:Hok;
      [| reflexivity].
    apply years_ok_spec in Hok.
    cbn [Assert.assert Assert.bind].
    destruct (List.length coefficients =? numCompoundBases)%nat;
      [| reflexivity].
    cbn [Assert.assert Assert.bind].
    now rewrite !Cache_refresh_canonical by (assumption || lia).
  - intros c cache' H. unfold Compound in H.
    apply assert_Some in H. destruct H as [Hok H].
    apply years_ok_spec in Hok.
    apply assert_Some in H. destruct H as [_ H].
    apply bind_Some in H. destruct H as (cache1' & Hrefresh & H).
    apply bind_Some in H. destruct H as (sum & _ & H).
    inversion H; subst c cache'. clear H.
    assert (Hfy : (0 < firstYear)%Z) by lia.
    destruct (Cache_refresh_bases IX _ _ _ _ _ H1 Hfy Hrefresh)
      as [_ Hvalid].
    split; [exact Hvalid |].
    rewrite Cache_refresh_canonical in Hrefresh by assumption.
    destruct (build_bases IX base_table firstYear lastYear epochForSpeed);
      [| discriminate].
    inversion Hrefresh. auto.
Qed.

End CompoundMore.

(** The statics after a Compound construction for the year 1980. *)
Definition cache_of_1980 : Cache :=
  match build_bases (RT := Reference.runtime) Congen_indices base_table
          1980 1980 1900 with
  | Some bases => Cache_for 1980 1980 1900 bases
  | None => Cache_initial
  end.

Lemma Compound_ignores_the_cache_witness :
  Compound (RT := Reference.runtime) Congen_indices "MK₃" K1_plus_O1
    1970 1970 1900 Cache_initial
  = Compound (RT := Reference.runtime) Congen_indices "MK₃" K1_plus_O1
      1970 1970 1900 cache_of_1980.
Proof.
  refine (proj1 (Compound_ignores_the_cache (RT := Reference.runtime)
                   Congen_indices "MK₃" K1_plus_O1 1970 1970 1900 Cache_initial
                   cache_of_1980 _ _)).
  - left. reflexivity.
  - right. vm_compute. reflexivity.
Defined.

Section CompoundUnits.

Context {RT : Runtime}.
Context (IX : Indices).

Local Open Scope float_scope.

Import DblFacts.

(** The coefficient vector that is 1 at position [k] and 0 elsewhere. *)
Definition unit_vector (k : nat) : list float :=
  repeat 0 k ++ 1 :: repeat 0 (numCompoundBases - 1 - k).

Lemma weighted_sum_app a c1 c2 p1 p2 :
  List.length c1 = List.length p1 ->
  weighted_sum a (c1 ++ c2) (p1 ++ p2)
  = weighted_sum (weighted_sum a c1 p1) c2 p2.
Proof.
  unfold weighted_sum. revert a p1.
  induction c1 as [| x c1 IH]; intros a [| v p1] Hlen;
    simpl in Hlen; try discriminate; [reflexivity |].
  cbn [app combine fold_left]. apply IH. lia.
Qed.

Lemma weighted_product_app a c1 c2 p1 p2 :
  List.length c1 = List.length p1 ->
  weighted_product a (c1 ++ c2) (p1 ++ p2)
  = weighted_product (weighted_product a c1 p1) c2 p2.
Proof.
  unfold weighted_product. revert a p1.
  induction c1 as [| x c1 IH]; intros a [| v p1] Hlen;
    simpl in Hlen; try discriminate; [reflexivity |].
  cbn [app combine fold_left]. apply IH. lia.
Qed.

Lemma weighted_sum_unit (k : nat) (pre post : list float) (v : float) :
  List.length pre = k -> all_finite pre -> all_finite post ->
  same (weighted_sum 0 (unit_vector k) (pre ++ v :: post)) v.
Proof.
  intros Hk Hpre Hpost. unfold unit_vector.
  rewrite weighted_sum_app by (now rewrite repeat_length).
  change (weighted_sum ?a (1 :: ?cs) (v :: post))
    with (weighted_sum (a + v * 1) cs post).
  eapply same_trans; [now apply weighted_sum_zeros |].
  rewrite mul_1_r.
  eapply same_trans.
  - apply add_same_l. now apply weighted_sum_zeros.
  - now apply add_zero_l.
Qed.

Lemma weighted_product_unit (k : nat) (pre post : list float) (v : float) :
  pow_zero_exact -> pow_one_exact -> List.length pre = k ->
  weighted_product 1 (unit_vector k) (pre ++ v :: post) = v.
Proof.
  intros H0 H1 Hk. unfold unit_vector.
  rewrite weighted_product_app by (now rewrite repeat_length).
  rewrite weighted_product_ones by assumption.
  change (weighted_product 1 (1 :: ?cs) (v :: post))
    with (weighted_product (1 * pow v (abs 1)) cs post).
  rewrite weighted_product_ones by assumption.
  change (abs 1) with 1. now rewrite H1, mul_1_l.
Qed.

Lemma all_finite_app (a b : list float) :
  all_finite (a ++ b) -> all_finite a /\ all_finite b.
Proof. unfold all_finite. apply Forall_app. Qed.

Lemma all_finite_tail (v : float) (l : list float) :
  all_finite (v :: l) -> all_finite l.
Proof. intros H. now inversion H. Qed.

(** What a successful Compound construction accumulated. *)
Lemma Compound_accumulated nm coefficients firstYear lastYear epochForSpeed
    cache c cache' :
  Cache_valid IX cache ->
  Compound IX nm coefficients firstYear lastYear epochForSpeed cache
  = Some (c, cache') ->
  let n := Z.to_nat (lastYear - firstYear + 1) in
  build_bases IX base_table firstYear lastYear epochForSpeed
  = Some (terms cache')
  /\ speed c = weighted_sum 0 coefficients (map speed (terms cache'))
  /\ forall i : nat, (i < n)%nat ->
       nth i (Vpu c) 0
       = weighted_sum 0 coefficients
           (map (fun b => nth i (Vpu b) 0) (terms cache'))
       /\ nth i (nodes c) 0
          = weighted_product 1 coefficients
              (map (fun b => nth i (nodes b) 0) (terms cache')).
Proof.
  intros Hcache H n. unfold Compound in H.
  apply assert_Some in H. destruct H as [Hok H].
  apply assert_Some in H. destruct H as [Hlen H].
  apply bind_Some in H. destruct H as (cache1 & Hrefresh & H).
  apply bind_Some in H. destruct H as (sum & Hacc & H).
  inversion H; subst c cache'. clear H.
  apply years_ok_spec in Hok.
  assert (Hfy : (0 < firstYear)%Z) by lia.
  destruct (Cache_refresh_bases IX _ _ _ _ _ Hcache Hfy Hrefresh) as [Hbases _].
  split; [exact Hbases |].
  destruct (accumulate_formula _ _ _ _ _ (Constituent_zero_years n) Hacc)
    as [Hspeed Hseries].
  split; [exact Hspeed |].
  intros i Hi. destruct (Hseries i Hi) as [Hv Hn].
  simpl in Hv, Hn. rewrite nth_repeat_lt in Hv, Hn by exact Hi. now split.
Qed.

(** A Compound constituent whose coefficient vector is 1 at one position
    and 0 elsewhere reproduces the base at that position: the same speed
    and V0+u series up to the sign of a zero, and the same f series bit for
    bit (for finite bases and a [pow] exact at the exponents 0 and 1). *)
Theorem Compound_of_one_base (k : nat) (nm : string)
    (firstYear lastYear epochForSpeed : year_t)
    (cache cache' : Cache) (c : Constituent)
    (Hk : (k < numCompoundBases)%nat)
    (Hpow0 : pow_zero_exact) (Hpow1 : pow_one_exact)
    (Hcache : Cache_valid IX cache)
    (H : Compound IX nm (unit_vector k) firstYear lastYear epochForSpeed cache
         = Some (c, cache'))
    (Hfin : Forall finite_constituent (terms cache')) :
  exists b : Constituent,
    nth_error (terms cache') k = Some b
    /\ same (speed c) (speed b)
    /\ forall i : nat, (i < Z.to_nat (lastYear - firstYear + 1))%nat ->
         same (nth i (Vpu c) 0) (nth i (Vpu b) 0)
         /\ nth i (nodes c) 0 = nth i (nodes b) 0.
Proof.
  destruct (Compound_accumulated _ _ _ _ _ _ _ _ Hcache H)
    as (Hbases & Hspeed & Hseries).
  pose proof (build_bases_rows IX _ _ _ _ _ Hbases) as Hrows.
  apply Forall2_length in Hrows.
  change (List.length base_table) with numCompoundBases in Hrows.
  destruct (nth_error (terms cache') k) as [b |] eqn:Hb.
  2: { apply nth_error_None in Hb. lia. }
  destruct (nth_error_split _ _ Hb) as (pre & post & Hsplit & Hpre).
  exists b. split; [reflexivity |].
  rewrite Hsplit in Hspeed, Hseries, Hfin.
  rewrite map_app in Hspeed. cbn [map] in Hspeed.
  pose proof (finite_speeds _ Hfin) as Hfs.
  rewrite map_app in Hfs. cbn [map] in Hfs.
  apply all_finite_app in Hfs. destruct Hfs as [Hfs1 Hfs2].
  apply all_finite_tail in Hfs2.
  split.
  - rewrite Hspeed. apply weighted_sum_unit; try assumption.
    now rewrite length_map.
  - intros i Hi. destruct (Hseries i Hi) as [Hv Hn].
    rewrite map_app in Hv, Hn. cbn [map] in Hv, Hn.
    pose proof (finite_column _ i Hfin) as Hfc.
    rewrite map_app in Hfc. cbn [map] in Hfc.
    apply all_finite_app in Hfc. destruct Hfc as [Hfc1 Hfc2].
    apply all_finite_tail in Hfc2.
    split.
    + rewrite Hv. apply weighted_sum_unit; try assumption.
      now rewrite length_map.
    + rewrite Hn. apply weighted_product_unit; try assumption.
      now rewrite length_map.
Qed.

(** A Compound constituent with thirteen zero coefficients, as a record
    with nothing but blanks behind its keyword gives, has speed 0, V0+u
    all 0 and f all 1. *)
Theorem Compound_of_no_base (nm : string)
    (firstYear lastYear epochForSpeed : year_t)
    (cache cache' : Cache) (c : Constituent)
    (Hpow0 : pow_zero_exact)
    (Hcache : Cache_valid IX cache)
    (H : Compound IX nm (repeat 0 numCompoundBases)
           firstYear lastYear epochForSpeed cache
         = Some (c, cache'))
    (Hfin : Forall finite_constituent (terms cache')) :
  Dbl.is_zero (speed c) = true
  /\ forall i : nat, (i < Z.to_nat (lastYear - firstYear + 1))%nat ->
       Dbl.is_zero (nth i (Vpu c) 0) = true /\ nth i (nodes c) 0 = 1.
Proof.
  destruct (Compound_accumulated _ _ _ _ _ _ _ _ Hcache H)
    as (_ & Hspeed & Hseries).
  split.
  - rewrite Hspeed. eapply is_zero_same.
    + apply weighted_sum_zeros. now apply finite_speeds.
    + reflexivity.
  - intros i Hi. destruct (Hseries i Hi) as [Hv Hn]. split.
    + rewrite Hv. eapply is_zero_same.
      * apply weighted_sum_zeros. now apply finite_column.
      * reflexivity.
    + rewrite Hn. now apply weighted_product_ones.
Qed.

End CompoundUnits.

Lemma Compound_of_one_base_witness :
  exists (c : Constituent) (cache' : Cache) (b : Constituent),
    Compound (RT := Reference.runtime) Congen_indices "P₁" (unit_vector 2)
      1970 1970 1900 Cache_initial = Some (c, cache')
    /\ nth_error (terms cache') 2 = Some b
    /\ DblFacts.same (speed c) (speed b)
    /\ nth 0 (nodes c) 0%float = nth 0 (nodes b) 0%float.
Proof.
  destruct (Compound (RT := Reference.runtime) Congen_indices "P₁" (unit_vector 2)
              1970 1970 1900 Cache_initial) as [[c cache'] |] eqn:E.
  - assert (Hfin : Forall finite_constituent (terms cache')).
    { vm_compute in E. inversion E; subst. repeat constructor. }
    assert (Hk : (2 < numCompoundBases)%nat) by (vm_compute; lia).
    destruct (Compound_of_one_base (RT := Reference.runtime) Congen_indices
                2 _ _ _ _ _ _ _ Hk (fun x => eq_refl) (fun x => eq_refl)
                (or_introl eq_refl) E Hfin)
      as (b & Hb & Hspeed & Hseries).
    exists c, cache', b.
    destruct (Hseries 0%nat ltac:(vm_compute; lia)) as [_ Hn]. auto.
  - vm_compute in E. discriminate E.
Defined.

Lemma Compound_of_no_base_witness :
  exists (c : Constituent) (cache' : Cache),
    Compound (RT := Reference.runtime) Congen_indices "Z₀"
      (repeat 0%float numCompoundBases) 1970 1970 1900 Cache_initial
    = Some (c, cache')
    /\ Dbl.is_zero (speed c) = true
    /\ nth 0 (nodes c) 0%float = 1%float.
Proof.
  destruct (Compound (RT := Reference.runtime) Congen_indices "Z₀"
              (repeat 0%float numCompoundBases) 1970 1970 1900 Cache_initial)
    as [[c cache'] |] eqn:E.
  - assert (Hfin : Forall finite_constituent (terms cache')).
    { vm_compute in E. inversion E; subst. repeat constructor. }
    destruct (Compound_of_no_base (RT := Reference.runtime) Congen_indices
                _ _ _ _ _ _ _ (fun x => eq_refl) (or_introl eq_refl) E Hfin)
      as (Hspeed & Hseries).
    exists c, cache'.
    destruct (Hseries 0%nat ltac:(vm_compute; lia)) as [_ Hn]. auto.
  - vm_compute in E. discriminate E.
Defined.

(** ** The parser consumes its input *)

Module Consumption.

Import Stream FloatField.

(** The number of characters a stream has left. *)
Abbreviation left_in s := (List.length (rest s)).

Lemma skipws_length (cs : list ascii) :
  (List.length (skipws cs) <= List.length cs)%nat.
Proof.
  induction cs as [| c cs IH]; cbn [skipws]; [lia |].
  destruct (isspace c); cbn [List.length]; lia.
Qed.

Lemma sentry_left (s s1 : istream) :
  sentry s = inl s1 ->
  (left_in s1 <= left_in s)%nat /\ rest s1 <> [] /\ good s = true.
Proof.
  unfold sentry. destruct (good s); [| discriminate].
  pose proof (skipws_length (rest s)) as Hlen.
  destruct (skipws (rest s)) as [| c cs]; [discriminate |].
  intros H. inversion H; subst s1. cbn [rest]. repeat split; [lia | discriminate].
Qed.

Lemma sentry_failed (s s1 : istream) :
  sentry s = inr s1 ->
  (left_in s1 <= left_in s)%nat /\ fail s1 = true
  /\ (good s = true -> eof s1 = true).
Proof.
  unfold sentry. destruct (good s).
  - destruct (skipws (rest s)); [| discriminate].
    intros H. inversion H; subst s1. cbn. repeat split; lia.
  - intros H. inversion H; subst s1. cbn. repeat split; [lia | discriminate].
Qed.

Lemma take_word_length (cs : list ascii) :
  (List.length (fst (take_word cs)) + List.length (snd (take_word cs))
   = List.length cs)%nat.
Proof.
  induction cs as [| c cs IH]; cbn [take_word]; [reflexivity |].
  destruct (isspace c); [reflexivity |].
  destruct (take_word cs) as [w r]. cbn [fst snd List.length] in *. lia.
Qed.

Lemma take_digits_length (cs : list ascii) :
  (List.length (snd (take_digits cs)) <= List.length cs)%nat.
Proof.
  induction cs as [| c cs IH]; cbn [take_digits]; [cbn; lia |].
  destruct (isdigit c); [| cbn; lia].
  destruct (take_digits cs) as [d r]. cbn [fst snd List.length] in *. lia.
Qed.

Lemma take_sign_length (cs : list ascii) :
  (List.length (snd (take_sign cs)) <= List.length cs)%nat.
Proof.
  destruct cs as [| c cs]; cbn [take_sign]; [cbn; lia |].
  destruct (is_sign c); cbn [snd List.length]; lia.
Qed.

Lemma leading_zeros_length (cs : list ascii) :
  (List.length (snd (leading_zeros cs)) <= List.length cs)%nat.
Proof.
  induction cs as [| c cs IH]; cbn [leading_zeros]; [cbn; lia |].
  destruct (is_zero_digit c); cbn [snd List.length]; lia.
Qed.

Lemma accumulate_length (n : nat) :
  forall (cs : list ascii) (a b c : bool),
    (List.length cs <= n)%nat ->
    (List.length (snd (accumulate cs a b c)) <= List.length cs)%nat.
Proof.
  induction n as [| n IH]; intros cs a b c Hn.
  - destruct cs; [cbn; lia | cbn in Hn; lia].
  - destruct cs as [| x cs]; [cbn; lia |].
    cbn [List.length] in Hn. cbn [accumulate].
    destruct (isdigit x).
    { specialize (IH cs true b c ltac:(lia)).
      destruct (accumulate cs true b c). cbn [snd List.length] in *. lia. }
    destruct (is_point x && negb b && negb c).
    { specialize (IH cs a true c ltac:(lia)).
      destruct (accumulate cs a true c). cbn [snd List.length] in *. lia. }
    destruct (is_e x && negb c && a); [| cbn [snd List.length]; lia].
    destruct cs as [| y cs']; [cbn; lia |].
    cbn [List.length] in Hn.
    destruct (is_sign y).
    + specialize (IH cs' a b true ltac:(lia)).
      destruct (accumulate cs' a b true). cbn [snd List.length] in *. lia.
    + specialize (IH (y :: cs') a b true ltac:(cbn [List.length]; lia)).
      destruct (accumulate (y :: cs') a b true).
      cbn [snd List.length] in *. lia.
Qed.

Lemma extract_float_length (cs : list ascii) :
  (List.length (snd (extract_float cs)) <= List.length cs)%nat.
Proof.
  unfold extract_float.
  set (signed := match cs with
                 | c :: cs' => if is_sign c then ([c], cs') else ([], cs)
                 | [] => ([], [])
                 end).
  assert (Hs : (List.length (snd signed) <= List.length cs)%nat).
  { subst signed. destruct cs as [| c cs]; [cbn; lia |].
    destruct (is_sign c); cbn [snd List.length]; lia. }
  destruct signed as [sign cs1]. cbn [snd] in Hs.
  pose proof (leading_zeros_length cs1) as Hz.
  destruct (leading_zeros cs1) as [found cs2]. cbn [snd] in Hz.
  pose proof (accumulate_length _ cs2 found false false (le_n _)) as Ha.
  destruct (accumulate cs2 found false false) as [x r].
  cbn [snd] in *. lia.
Qed.

(** A formatted read never gives characters back. *)
Lemma read_int_left (s : istream) :
  (left_in (fst (read_int s)) <= left_in s)%nat.
Proof.
  unfold read_int. destruct (sentry s) as [s1 | s1] eqn:E.
  - apply sentry_left in E. destruct E as (Hlen & _).
    pose proof (take_sign_length (rest s1)) as H1.
    destruct (take_sign (rest s1)) as [negative cs]. cbn [snd] in H1.
    pose proof (take_digits_length cs) as H2.
    destruct (take_digits cs) as [ds r]. cbn [snd] in H2.
    destruct ds; [cbn; lia |].
    repeat match goal with |- context [if ?b then _ else _] => destruct b end;
      cbn [fst after rest]; lia.
  - apply sentry_failed in E. cbn [fst]. lia.
Qed.

Lemma read_unsigned_left (s : istream) :
  (left_in (fst (read_unsigned s)) <= left_in s)%nat.
Proof.
  unfold read_unsigned. destruct (sentry s) as [s1 | s1] eqn:E.
  - apply sentry_left in E. destruct E as (Hlen & _).
    pose proof (take_sign_length (rest s1)) as H1.
    destruct (take_sign (rest s1)) as [negative cs]. cbn [snd] in H1.
    pose proof (take_digits_length cs) as H2.
    destruct (take_digits cs) as [ds r]. cbn [snd] in H2.
    destruct ds; [cbn; lia |].
    destruct (digits_value _ <? 2 ^ 32); cbn [fst after rest]; lia.
  - apply sentry_failed in E. cbn [fst]. lia.
Qed.

Lemma read_double_left (s : istream) :
  (left_in (fst (read_double s)) <= left_in s)%nat.
Proof.
  unfold read_double. destruct (sentry s) as [s1 | s1] eqn:E.
  - apply sentry_left in E. destruct E as (Hlen & _).
    pose proof (extract_float_length (rest s1)) as H1.
    destruct (extract_float (rest s1)) as [field r]. cbn [snd] in H1.
    destruct (convert_to_v field) as [v ok]. cbn [fst after rest]. lia.
  - apply sentry_failed in E. cbn [fst]. lia.
Qed.

(** A string read that does not fail takes at least one character. *)
Lemma read_string_left (s : istream) :
  fail (fst (read_string s)) = false ->
  (left_in (fst (read_string s)) < left_in s)%nat.
Proof.
  unfold read_string. destruct (sentry s) as [s1 | s1] eqn:E.
  - apply sentry_left in E. destruct E as (Hlen & _).
    pose proof (take_word_length (rest s1)) as H1.
    destruct (take_word (rest s1)) as [w r]. cbn [fst snd] in H1.
    cbn [fst after rest fail failbit].
    destruct w; [discriminate |]. cbn [List.length] in H1. lia.
  - apply sentry_failed in E. cbn [fst]. destruct E as (_ & -> & _).
    discriminate.
Qed.

(** A line read that does not fail takes at least one character, and
    the line is no longer than what it took. *)
Lemma split_line_length (cs : list ascii) :
  match split_line cs with
  | (l, Some r) => (List.length l + 1 + List.length r = List.length cs)%nat
  | (l, None) => l = cs
  end.
Proof.
  induction cs as [| c cs IH]; cbn [split_line]; [reflexivity |].
  destruct (Ascii.eqb c newline); [cbn [List.length]; lia |].
  destruct (split_line cs) as [l [r |]]; cbn [List.length].
  - lia.
  - now rewrite IH.
Qed.

Lemma getline_left (s : istream) (buf : list ascii) :
  fail (fst (getline s buf)) = false ->
  (left_in (fst (getline s buf)) < left_in s)%nat
  /\ (left_in (fst (getline s buf)) + List.length (snd (getline s buf))
      <= left_in s)%nat.
Proof.
  unfold getline. destruct (good s); [| discriminate].
  pose proof (split_line_length (rest s)) as H.
  destruct (split_line (rest s)) as [l [r |]];
    cbn [fst snd rest fail failbit].
  - intros _. lia.
  - subst l. destruct (rest s); [discriminate |]. cbn [List.length]. lia.
Qed.

End Consumption.

Section Termination.

Context {RT : Runtime}.
Context (IX : Indices).

Import Stream Consumption.

(** What a satellite block leaves of the line. *)
Lemma read_block_left (iss : istream) :
  match read_block iss with
  | BlockEnd iss' => (left_in iss' <= left_in iss)%nat /\ eof iss' = true
  | BlockBad => True
  | BlockRead iss' _ => (left_in iss' < left_in iss)%nat
  end.
Proof.
  unfold read_block.
  pose proof (read_int_left iss) as H1.
  destruct (read_int iss) as [s1 v1]. cbn [fst] in H1.
  destruct (fail s1).
  { destruct (eof s1) eqn:E; [split; [lia | exact E] | exact Logic.I]. }
  pose proof (read_int_left s1) as H2.
  destruct (read_int s1) as [s2 v2]. cbn [fst] in H2.
  destruct (good s2); cbn [negb]; [| exact Logic.I].
  pose proof (read_int_left s2) as H3.
  destruct (read_int s2) as [s3 v3]. cbn [fst] in H3.
  destruct (good s3); cbn [negb]; [| exact Logic.I].
  pose proof (FloatField.read_double s3) as _.
  pose proof (read_double_left s3) as H4.
  destruct (FloatField.read_double s3) as [s4 v4]. cbn [fst] in H4.
  destruct (good s4); cbn [negb]; [| exact Logic.I].
  pose proof (read_string_left s4) as H5.
  destruct (read_string s4) as [s5 tempr]. cbn [fst] in H5.
  destruct (fail s5); [exact Logic.I |].
  specialize (H5 eq_refl).
  destruct (FloatField.read_double (open tempr)) as [s6 v6].
  destruct (fail s6); [exact Logic.I |].
  destruct (has_R tempr); lia.
Qed.

(** The work the satellite loop still has: each round either takes a
    line from the input, or a block from the line, or finds the line at
    its end. *)
Definition satellites_work (is_ iss : istream) : nat :=
  3 * left_in is_ + left_in iss + (if eof iss then 0 else 1).

Lemma read_satellites_finishes (fuel : nat) :
  forall (is_ iss : istream) (buf : list ascii) (lineno i numsats : Z)
         (satellites : list Satellite),
    (satellites_work is_ iss < fuel)%nat ->
    match read_satellites fuel is_ iss buf lineno i numsats satellites with
    | SatDone is' _ _ => (left_in is' <= left_in is_)%nat
    | SatError _ => True
    | SatUnfinished => False
    end.
Proof.
  induction fuel as [| fuel IH];
    intros is_ iss buf lineno i numsats satellites Hfuel; [lia |].
  cbn [read_satellites].
  destruct (i <? numsats); [| cbn; lia].
  assert (Hnext : forall (is1 iss1 : istream) (buf1 : list ascii) (ln : Z),
             (left_in is1 <= left_in is_)%nat ->
             (3 * left_in is1 + left_in iss1 + 1 <= fuel)%nat ->
             match
               match read_block iss1 with
               | BlockEnd iss' =>
                   read_satellites fuel is1 iss' buf1 ln i numsats satellites
               | BlockBad => SatError ln
               | BlockRead iss' None =>
                   read_satellites fuel is1 iss' buf1 ln (i + 1) numsats
                     satellites
               | BlockRead iss' (Some sat) =>
                   read_satellites fuel is1 iss' buf1 ln (i + 1) numsats
                     (satellites ++ [sat])
               end
             with
             | SatDone is' _ _ => (left_in is' <= left_in is_)%nat
             | SatError _ => True
             | SatUnfinished => False
             end).
  { intros is1 iss1 buf1 ln Hle Hwork.
    pose proof (read_block_left iss1) as Hblock.
    destruct (read_block iss1) as [iss' | | iss' [sat |]].
    - destruct Hblock as [Hlen Heof].
      specialize (IH is1 iss' buf1 ln i numsats satellites).
      unfold satellites_work in IH. rewrite Heof in IH.
      specialize (IH ltac:(lia)).
      destruct (read_satellites fuel is1 iss' buf1 ln i numsats satellites);
        [lia | exact Logic.I | exact IH].
    - exact Logic.I.
    - specialize (IH is1 iss' buf1 ln (i + 1) numsats (satellites ++ [sat])).
      unfold satellites_work in IH.
      assert (Hw : (3 * left_in is1 + left_in iss'
                    + (if eof iss' then 0 else 1) < fuel)%nat)
        by (destruct (eof iss'); lia).
      specialize (IH Hw).
      destruct (read_satellites fuel is1 iss' buf1 ln (i + 1) numsats
                  (satellites ++ [sat]));
        [lia | exact Logic.I | exact IH].
    - specialize (IH is1 iss' buf1 ln (i + 1) numsats satellites).
      unfold satellites_work in IH.
      assert (Hw : (3 * left_in is1 + left_in iss'
                    + (if eof iss' then 0 else 1) < fuel)%nat)
        by (destruct (eof iss'); lia).
      specialize (IH Hw).
      destruct (read_satellites fuel is1 iss' buf1 ln (i + 1) numsats
                  satellites);
        [lia | exact Logic.I | exact IH]. }
  unfold satellites_work in Hfuel.
  destruct (eof iss) eqn:Heof.
  - pose proof (getline_left is_ buf) as Hline.
    destruct (getline is_ buf) as [is1 buf1]. cbn [fst snd] in Hline.
    destruct (fail is1); [exact Logic.I |].
    destruct (Hline eq_refl) as [Hlt Hbuf].
    apply Hnext; cbn [open rest]; lia.
  - apply Hnext; lia.
Qed.

(** Every round of the line loop takes a line from the input, so a fuel
    above the number of characters left is never used up. *)
Lemma parse_lines_finishes (fuel : nat) :
  forall (is_ : istream) (lineno : Z) (firstYear lastYear epochForSpeed : year_t)
         (constituents : list Constituent) (cache : Cache),
    (left_in is_ < fuel)%nat ->
    parse_lines IX fuel is_ lineno firstYear lastYear epochForSpeed
      constituents cache <> Unfinished.
Proof.
  induction fuel as [| fuel IH];
    intros is_ lineno firstYear lastYear epochForSpeed constituents cache Hfuel;
    [lia |].
  cbn [parse_lines].
  destruct (good is_); [| discriminate].
  pose proof (getline_left is_ []) as Hline.
  destruct (getline is_ []) as [is1 buf]. cbn [fst snd] in Hline.
  destruct (fail is1); [discriminate |].
  destruct (Hline eq_refl) as [Hlt Hbuf].
  assert (Hgo : forall is2 ln cs c2,
             (left_in is2 <= left_in is1)%nat ->
             parse_lines IX fuel is2 ln firstYear lastYear epochForSpeed cs c2
             <> Unfinished)
    by (intros; apply IH; lia).
  destruct buf as [| c buf']; [now apply Hgo |].
  destruct (Ascii.eqb c "#"); [now apply Hgo |].
  destruct (read_string (open (c :: buf'))) as [iss1 name_].
  destruct (read_string iss1) as [iss2 kind].
  destruct (negb (good iss2)); [discriminate |].
  destruct (kind_is kind "Basic").
  { destruct (read_doubles numVterms iss2) as [iss3 [V |]]; [| discriminate].
    destruct (read_doubles 6 iss3) as [iss4 [u6 |]]; [| discriminate].
    destruct (read_unsigned iss4) as [iss5 f_formula].
    destruct (fail iss5); [discriminate |].
    destruct (Basic _ _ _ _ _ _ _ _); cbn [push]; [| discriminate].
    now apply Hgo. }
  destruct (kind_is kind "Doodson").
  { destruct (read_doubles numVterms iss2) as [iss3 [V |]]; [| discriminate].
    destruct (read_unsigned iss3) as [iss4 numsats].
    destruct (fail iss4); [discriminate |].
    pose proof (read_satellites_finishes (satellites_fuel is1 iss4)
                  is1 iss4 (c :: buf') (incr lineno) 0 numsats []) as Hsat.
    assert (Hwork : (satellites_work is1 iss4 < satellites_fuel is1 iss4)%nat).
    { unfold satellites_work, satellites_fuel. destruct (eof iss4); lia. }
    specialize (Hsat Hwork).
    destruct (read_satellites _ _ _ _ _ _ _ _) as [is2 ln sats | ln |];
      [| discriminate | contradiction].
    destruct (Doodson _ _ _ _ _ _); cbn [push]; [| discriminate].
    now apply Hgo. }
  destruct (kind_is kind "Compound"); [| discriminate].
  destruct (Compound _ _ _ _ _ _ _) as [[c' cache'] |]; [| discriminate].
  now apply Hgo.
Qed.

(** parseLegacyInput ends on every input: it returns a line number, or an
    assertion of a constructor fails; the loops over the lines and over
    the satellite blocks cannot go on for ever, because every round of
    either takes characters from a finite input. *)
Theorem parseLegacyInput_terminates (is_ : istream)
    (firstYear lastYear epochForSpeed : year_t)
    (constituents : list Constituent) (cache : Cache) :
  parseLegacyInput IX is_ firstYear lastYear epochForSpeed constituents cache
  <> Unfinished.
Proof.
  unfold parseLegacyInput.
  destruct (negb (good is_)); [discriminate |].
  apply parse_lines_finishes. lia.
Qed.

End Termination.

Section ParserInvariants.

Context {RT : Runtime}.
Context (IX : Indices).
Context (firstYear lastYear epochForSpeed : year_t).

Import Stream Text StreamFacts.

Lemma parse_lines_appends (fuel : nat) :
  forall (is_ : istream) (lineno n : Z)
         (constituents result : list Constituent) (cache cache' : Cache),
    parse_lines IX fuel is_ lineno firstYear lastYear epochForSpeed
      constituents cache = Returned n result cache' ->
    exists added : list Constituent, result = constituents ++ added.
Proof.
  induction fuel as [| fuel IH];
    intros is_ lineno n constituents result cache cache' H; [discriminate |].
  cbn [parse_lines] in H.
  assert (Hsame : forall m cs c,
             Returned m constituents cache = Returned n cs c ->
             exists added, cs = constituents ++ added).
  { intros m cs c E. inversion E; subst. exists []. now rewrite app_nil_r. }
  assert (Hmore : forall is2 ln (x : Constituent) c2,
             parse_lines IX fuel is2 ln firstYear lastYear epochForSpeed
               (constituents ++ [x]) c2 = Returned n result cache' ->
             exists added, result = constituents ++ added).
  { intros is2 ln x c2 E. apply IH in E. destruct E as [added ->].
    exists (x :: added). now rewrite <- app_assoc. }
  destruct (good is_); [| now apply Hsame in H].
  destruct (getline is_ []) as [is1 buf].
  destruct (fail is1); [now apply Hsame in H |].
  destruct buf as [| c buf']; [now apply IH in H |].
  destruct (Ascii.eqb c "#"); [now apply IH in H |].
  destruct (read_string (open (c :: buf'))) as [iss1 name_].
  destruct (read_string iss1) as [iss2 kind].
  destruct (negb (good iss2)); [now apply Hsame in H |].
  destruct (kind_is kind "Basic").
  { destruct (read_doubles numVterms iss2) as [iss3 [V |]];
      [| now apply Hsame in H].
    destruct (read_doubles 6 iss3) as [iss4 [u6 |]]; [| now apply Hsame in H].
    destruct (read_unsigned iss4) as [iss5 f_formula].
    destruct (fail iss5); [now apply Hsame in H |].
    destruct (Basic _ _ _ _ _ _ _ _); cbn [push] in H; [| discriminate].
    now apply Hmore in H. }
  destruct (kind_is kind "Doodson").
  { destruct (read_doubles numVterms iss2) as [iss3 [V |]];
      [| now apply Hsame in H].
    destruct (read_unsigned iss3) as [iss4 numsats].
    destruct (fail iss4); [now apply Hsame in H |].
    destruct (read_satellites _ _ _ _ _ _ _ _) as [is2 ln sats | ln |];
      [| now apply Hsame in H | discriminate].
    destruct (Doodson _ _ _ _ _ _); cbn [push] in H; [| discriminate].
    now apply Hmore in H. }
  destruct (kind_is kind "Compound"); [| now apply Hsame in H].
  destruct (Compound _ _ _ _ _ _ _) as [[c' cache1] |]; [| discriminate].
  now apply Hmore in H.
Qed.

(** parseLegacyInput only appends: the constituents the caller's vector
    held on entry are still there, unchanged and in front, whatever line
    number is returned. *)
Theorem parseLegacyInput_only_appends (is_ : istream) (n : Z)
    (constituents result : list Constituent) (cache cache' : Cache)
    (H : parseLegacyInput IX is_ firstYear lastYear epochForSpeed
           constituents cache = Returned n result cache') :
  exists added : list Constituent, result = constituents ++ added.
Proof.
  unfold parseLegacyInput in H.
  destruct (negb (good is_)).
  - inversion H; subst. exists []. now rewrite app_nil_r.
  - now apply parse_lines_appends in H.
Qed.

Lemma unlines_lines (ls : list (list ascii)) :
  (List.length ls <= List.length (unlines ls))%nat.
Proof.
  unfold unlines. induction ls as [| l ls IH]; [cbn; lia |].
  cbn [map List.concat List.length]. rewrite !length_app.
  cbn [List.length]. lia.
Qed.

(** Input of nothing but empty lines and comment lines, the last of them
    with or without its newline: parseLegacyInput returns 0 and leaves the
    constituents and the cache as they were. *)
Theorem parseLegacyInput_of_comments (ls : list (list ascii))
    (last : list ascii)
    (constituents : list Constituent) (cache : Cache)
    (Hls : Forall ignorable ls)
    (Hlast : last = [] \/ ignorable last) :
  parseLegacyInput IX (open (unlines ls ++ last))
    firstYear lastYear epochForSpeed constituents cache
  = Returned 0 constituents cache.
Proof.
  unfold parseLegacyInput. cbn [good open eofbit failbit negb andb rest].
  pose proof (unlines_lines ls) as Hlen.
  rewrite length_app.
  rewrite (parse_skips_ignorable IX firstYear lastYear epochForSpeed ls Hls)
    by lia.
  remember (2 + (List.length (unlines ls) + List.length last)
            - List.length ls)%nat as fuel eqn:Hfuel.
  destruct fuel as [| [| fuel]]; [lia | lia |].
  destruct Hlast as [-> | [Hline Hshape]]; [reflexivity |].
  cbn [parse_lines]. cbn [good open eofbit failbit negb andb].
  rewrite getline_last by assumption.
  destruct Hshape as [-> | [t ->]]; reflexivity.
Qed.

End ParserInvariants.

Definition compound_record : list ascii :=
  list_ascii_of_string "2MK3 Compound 1 -1 2
".

Lemma parseLegacyInput_only_appends_witness :
  exists (n : Z) (result : list Constituent) (cache' : Cache)
         (added : list Constituent),
    parseLegacyInput (RT := Reference.runtime) Congen_indices
      (Stream.open compound_record) 1970 1970 1900
      [example_constituent] Cache_initial
    = Returned n result cache'
    /\ result = [example_constituent] ++ added.
Proof.
  destruct (parseLegacyInput (RT := Reference.runtime) Congen_indices
              (Stream.open compound_record) 1970 1970 1900
              [example_constituent] Cache_initial)
    as [n result cache' | |] eqn:E.
  - destruct (parseLegacyInput_only_appends (RT := Reference.runtime)
                Congen_indices 1970 1970 1900 _ _ _ _ _ _ E) as [added Hadded].
    exists n, result, cache', added. split; [reflexivity | exact Hadded].
  - vm_compute in E. discriminate E.
  - vm_compute in E. discriminate E.
Defined.

Lemma parseLegacyInput_of_comments_witness :
  parseLegacyInput (RT := Reference.runtime) Congen_indices
    (Stream.open
       (Text.unlines [comment_line; []] ++ list_ascii_of_string "#end"))
    1970 2037 1900 [example_constituent] Cache_initial
  = Returned 0 [example_constituent] Cache_initial.
Proof.
  apply (parseLegacyInput_of_comments (RT := Reference.runtime) Congen_indices
           1970 2037 1900 [comment_line; []] (list_ascii_of_string "#end")).
  - constructor; [| constructor; [| constructor]].
    + split; [reflexivity | right; eexists; reflexivity].
    + split; [reflexivity | now left].
  - right. split; [reflexivity | right; eexists; reflexivity].
Defined.

(** ** harmgen: quoting for SQL *)

Module QuoteFacts.

Import Harmgen.

(** The text between the apostrophes. *)
Definition escape (s : list ascii) : list ascii := flat_map escaped s.

Lemma skipn_nth_error {A : Type} (l : list A) (i : nat) (x : A) :
  nth_error l i = Some x -> skipn i l = x :: skipn (S i) l.
Proof.
  revert i. induction l as [| y l IH]; intros [| i] H;
    try discriminate H.
  - now inversion H.
  - cbn [nth_error] in H. cbn [skipn]. now apply IH.
Qed.

Lemma quote_loop_runs (fuel : nat) :
  forall (s : list ascii) (i : nat) (ret : list ascii),
    Z.of_nat (List.length s) < 2 ^ 32 ->
    (i <= List.length s)%nat ->
    (List.length s - i < fuel)%nat ->
    quote_loop fuel s (Z.of_nat i) ret = Some (ret ++ escape (skipn i s)).
Proof.
  induction fuel as [| fuel IH]; intros s i ret Hlen Hi Hfuel; [lia |].
  cbn [quote_loop].
  destruct (Z.ltb_spec (Z.of_nat i) (Z.of_nat (List.length s))) as [Hlt | Hge].
  - rewrite Nat2Z.id.
    destruct (nth_error s i) as [c |] eqn:Hc.
    2: { apply nth_error_None in Hc. lia. }
    cbn [Assert.bind]. rewrite (skipn_nth_error _ _ _ Hc).
    rewrite Z.mod_small by lia.
    replace (Z.of_nat i + 1) with (Z.of_nat (S i)) by lia.
    rewrite IH by lia.
    unfold escape. cbn [flat_map]. now rewrite <- app_assoc.
  - rewrite skipn_all2 by lia. unfold escape. cbn [flat_map].
    now rewrite app_nil_r.
Qed.

(** The text that [quote] returns for a string below 2^32 characters. *)
Definition quoted (s : list ascii) : list ascii :=
  match s with
  | [] => DEFAULT
  | _ => apostrophe :: escape s ++ [apostrophe]
  end.

Lemma quote_quoted (s : list ascii) :
  Z.of_nat (List.length s) < 2 ^ 32 -> quote s = Some (quoted s).
Proof.
  intros Hlen. destruct s as [| c s]; [reflexivity |].
  unfold quote, quoted.
  rewrite (quote_loop_runs _ (c :: s) 0 [apostrophe] Hlen) by lia.
  reflexivity.
Qed.

Lemma escaped_apostrophe (c : ascii) :
  c = apostrophe /\ escaped c = [apostrophe; apostrophe]
  \/ c <> apostrophe /\ escaped c = [c].
Proof.
  unfold escaped. destruct (Ascii.eqb_spec c apostrophe); subst; auto.
Qed.

(** The closing apostrophe stands alone, the ones of the text come in
    pairs: the text can be read back. *)
Lemma escape_injective (s1 : list ascii) :
  forall s2 : list ascii,
    escape s1 ++ [apostrophe] = escape s2 ++ [apostrophe] -> s1 = s2.
Proof.
  unfold escape.
  induction s1 as [| c1 s1 IH]; intros [| c2 s2] H; cbn [flat_map] in H.
  - reflexivity.
  - exfalso. rewrite <- app_assoc in H.
    destruct (escaped_apostrophe c2) as [[_ E] | [Hc E]]; rewrite E in H.
    + cbn [app] in H. destruct (flat_map escaped s2); discriminate H.
    + cbn [app] in H. inversion H. congruence.
  - exfalso. rewrite <- app_assoc in H.
    destruct (escaped_apostrophe c1) as [[_ E] | [Hc E]]; rewrite E in H.
    + cbn [app] in H. destruct (flat_map escaped s1); discriminate H.
    + cbn [app] in H. inversion H. congruence.
  - rewrite <- !app_assoc in H.
    destruct (escaped_apostrophe c1) as [[-> E1] | [Hc1 E1]];
      destruct (escaped_apostrophe c2) as [[-> E2] | [Hc2 E2]];
      rewrite ?E1, ?E2 in H; cbn [app] in H.
    + inversion H as [H']. f_equal. now apply IH.
    + inversion H. congruence.
    + inversion H. congruence.
    + inversion H as [[Hc H']]. f_equal. now apply IH.
Qed.

(** The quoted text of a string below 2^32 characters: DEFAULT for the
    empty string, else the string between two apostrophes with every
    apostrophe of its own doubled, and nothing else changed. *)
Theorem quote_escapes (s : list ascii)
    (Hlen : Z.of_nat (List.length s) < 2 ^ 32) :
  quote s
  = Some (match s with
          | [] => DEFAULT
          | _ => [apostrophe] ++ flat_map escaped s ++ [apostrophe]
          end)
  /\ List.length (quoted s)
     = match s with
       | [] => 7%nat
       | _ => (2 + List.length s
               + count_occ ascii_dec s apostrophe)%nat
       end.
Proof.
  split; [now apply quote_quoted |].
  destruct s as [| c s]; [reflexivity |].
  unfold quoted. cbn [List.length]. rewrite length_app. cbn [List.length].
  assert (H : forall l, List.length (escape l)
                        = (List.length l + count_occ ascii_dec l apostrophe)%nat).
  { induction l as [| x l IH]; [reflexivity |].
    unfold escape in *. cbn [flat_map count_occ List.length].
    rewrite length_app, IH.
    destruct (escaped_apostrophe x) as [[-> E] | [Hx E]]; rewrite E.
    - destruct (ascii_dec apostrophe apostrophe); [| contradiction].
      cbn [List.length]. lia.
    - destruct (ascii_dec x apostrophe); [contradiction |].
      cbn [List.length]. lia. }
  rewrite H. cbn [List.length]. lia.
Qed.

(** [quote] loses nothing: two strings (below 2^32 characters) with the
    same quoted text are the same string. *)
Theorem quote_injective (s1 s2 : list ascii)
    (H1 : Z.of_nat (List.length s1) < 2 ^ 32)
    (H2 : Z.of_nat (List.length s2) < 2 ^ 32)
    (H : quote s1 = quote s2) :
  s1 = s2.
Proof.
  rewrite !quote_quoted in H by assumption.
  inversion H as [Hq]. clear H.
  destruct s1 as [| c1 s1], s2 as [| c2 s2]; unfold quoted in Hq.
  - reflexivity.
  - discriminate Hq.
  - discriminate Hq.
  - inversion Hq as [Hq']. now apply escape_injective.
Qed.

End QuoteFacts.

Lemma quote_escapes_witness :
  Harmgen.quote (list_ascii_of_string "St. John's")
  = Some (list_ascii_of_string "'St. John''s'").
Proof.
  refine (proj1 (QuoteFacts.quote_escapes (list_ascii_of_string "St. John's") _)).
  vm_compute. reflexivity.
Defined.

Lemma quote_injective_witness :
  list_ascii_of_string "a'b" = list_ascii_of_string "a'b".
Proof.
  apply QuoteFacts.quote_injective.
  - vm_compute. reflexivity.
  - vm_compute. reflexivity.
  - reflexivity.
Defined.

(** ** What was read does not depend on what follows *)

Section Prefix.

Context {RT : Runtime}.
Context (IX : Indices).
Context (firstYear lastYear epochForSpeed : year_t).

Import Stream Text StreamFacts Consumption.

Abbreviation parse fuel is_ lineno constituents cache :=
  (parse_lines IX fuel is_ lineno firstYear lastYear epochForSpeed
     constituents cache).

(** More fuel changes nothing once the satellite loop has ended. *)
Lemma read_satellites_more_fuel (f : nat) :
  forall (f' : nat) (is_ iss : istream) (buf : list ascii) (ln i n : Z)
         (sats : list Satellite),
    (f <= f')%nat ->
    read_satellites f is_ iss buf ln i n sats <> SatUnfinished ->
    read_satellites f' is_ iss buf ln i n sats
    = read_satellites f is_ iss buf ln i n sats.
Proof.
  induction f as [| f IH]; intros f' is_ iss buf ln i n sats Hle H;
    [now contradiction H |].
  destruct f' as [| f']; [lia |].
  cbn [read_satellites] in H |- *.
  destruct (i <? n); [| reflexivity].
  destruct (eof iss).
  - destruct (getline is_ buf) as [is1 buf1].
    destruct (fail is1); [reflexivity |].
    destruct (read_block (open buf1)) as [iss' | | iss' [sat |]];
      try reflexivity; apply IH; (lia || assumption).
  - destruct (read_block iss) as [iss' | | iss' [sat |]];
      try reflexivity; apply IH; (lia || assumption).
Qed.

(** With enough fuel for the characters left, the fuel does not matter. *)
Lemma read_satellites_any_fuel (f f' : nat) (is_ iss : istream)
    (buf : list ascii) (ln i n : Z) (sats : list Satellite) :
  (satellites_work is_ iss < f)%nat -> (f <= f')%nat ->
  read_satellites f' is_ iss buf ln i n sats
  = read_satellites f is_ iss buf ln i n sats.
Proof.
  intros Hwork Hle. apply read_satellites_more_fuel; [exact Hle |].
  pose proof (read_satellites_finishes f is_ iss buf ln i n sats Hwork) as H.
  intros E. now rewrite E in H.
Qed.

Lemma parse_more_fuel (f : nat) :
  forall (f' : nat) (is_ : istream) (ln : Z) cs cache,
    (f <= f')%nat ->
    parse f is_ ln cs cache <> Unfinished ->
    parse f' is_ ln cs cache = parse f is_ ln cs cache.
Proof.
  induction f as [| f IH]; intros f' is_ ln cs cache Hle H;
    [now contradiction H |].
  destruct f' as [| f']; [lia |].
  cbn [parse_lines] in H |- *.
  destruct (good is_); [| reflexivity].
  destruct (getline is_ []) as [is1 buf].
  destruct (fail is1); [reflexivity |].
  destruct buf as [| c buf']; [apply IH; (lia || assumption) |].
  destruct (Ascii.eqb c "#"); [apply IH; (lia || assumption) |].
  destruct (read_string (open (c :: buf'))) as [iss1 name_].
  destruct (read_string iss1) as [iss2 kind].
  destruct (negb (good iss2)); [reflexivity |].
  destruct (kind_is kind "Basic").
  { destruct (read_doubles numVterms iss2) as [iss3 [V |]]; [| reflexivity].
    destruct (read_doubles 6 iss3) as [iss4 [u6 |]]; [| reflexivity].
    destruct (read_unsigned iss4) as [iss5 f_formula].
    destruct (fail iss5); [reflexivity |].
    destruct (Basic _ _ _ _ _ _ _ _); cbn [push] in H |- *; [| reflexivity].
    apply IH; (lia || assumption). }
  destruct (kind_is kind "Doodson").
  { destruct (read_doubles numVterms iss2) as [iss3 [V |]]; [| reflexivity].
    destruct (read_unsigned iss3) as [iss4 numsats].
    destruct (fail iss4); [reflexivity |].
    destruct (read_satellites _ _ _ _ _ _ _ _) as [is2 ln2 sats | ln2 |];
      [| reflexivity | reflexivity].
    destruct (Doodson _ _ _ _ _ _); cbn [push] in H |- *; [| reflexivity].
    apply IH; (lia || assumption). }
  destruct (kind_is kind "Compound"); [| reflexivity].
  destruct (Compound _ _ _ _ _ _ _) as [[c' cache'] |]; [| reflexivity].
  apply IH; (lia || assumption).
Qed.

Lemma parse_any_fuel (f f' : nat) (is_ : istream) (ln : Z) cs cache :
  (left_in is_ < f)%nat -> (left_in is_ < f')%nat ->
  parse f' is_ ln cs cache = parse f is_ ln cs cache.
Proof.
  intros Hf Hf'.
  destruct (Nat.le_ge_cases f f') as [Hle | Hle].
  - apply parse_more_fuel; [exact Hle |].
    now apply parse_lines_finishes.
  - symmetry. apply parse_more_fuel; [exact Hle |].
    now apply parse_lines_finishes.
Qed.

Lemma advance_add (a b : nat) (ln : Z) :
  advance a (advance b ln) = advance (a + b) ln.
Proof.
  induction a as [| a IH]; [reflexivity |].
  cbn [advance Nat.add]. now rewrite IH.
Qed.

Lemma unlines_cons (l : list ascii) (ls : list (list ascii)) (X : list ascii) :
  unlines (l :: ls) ++ X = l ++ newline :: (unlines ls ++ X).
Proof.
  unfold unlines. cbn [map List.concat]. rewrite <- !app_assoc. reflexivity.
Qed.

Lemma unlines_cons_nil (l : list ascii) (ls : list (list ascii)) :
  unlines (l :: ls) = l ++ newline :: unlines ls.
Proof. rewrite <- (app_nil_r (unlines (l :: ls))), unlines_cons.
       now rewrite app_nil_r. Qed.

(** The satellite loop on complete lines: where it ends, how many lines
    it took, and that it does the same when more input follows. *)
Lemma read_satellites_prefix (f : nat) :
  forall (ls : list (list ascii)) (iss : istream) (buf : list ascii)
         (ln i n : Z) (sats : list Satellite),
    Forall one_line ls ->
    match read_satellites f (open (unlines ls)) iss buf ln i n sats with
    | SatDone is1 ln1 sats1 =>
        exists j : nat,
          (j <= List.length ls)%nat
          /\ is1 = open (unlines (skipn j ls))
          /\ ln1 = advance j ln
          /\ forall X : list ascii,
               read_satellites f (open (unlines ls ++ X)) iss buf ln i n sats
               = SatDone (open (unlines (skipn j ls) ++ X)) ln1 sats1
    | SatError ln1 =>
        exists j : nat, (j <= S (List.length ls))%nat /\ ln1 = advance j ln
    | SatUnfinished => True
    end.
Proof.
  induction f as [| f IH]; intros ls iss buf ln i n sats Hls;
    [exact Logic.I |].
  cbn [read_satellites].
  destruct (i <? n) eqn:Hi.
  2: { exists 0%nat. cbn [skipn advance].
       split; [lia |]. split; [reflexivity |]. split; [reflexivity |].
       intros X. reflexivity. }
  (* one block from a line buffer, the input being [ls'] after [k] lines *)
  assert (Hnext :
    forall (k : nat) (ls' : list (list ascii)) (iss1 : istream)
           (buf1 : list ascii),
      ls' = skipn k ls -> (k <= List.length ls)%nat ->
      match
        match read_block iss1 with
        | BlockEnd iss' =>
            read_satellites f (open (unlines ls')) iss' buf1 (advance k ln)
              i n sats
        | BlockBad => SatError (advance k ln)
        | BlockRead iss' None =>
            read_satellites f (open (unlines ls')) iss' buf1 (advance k ln)
              (i + 1) n sats
        | BlockRead iss' (Some sat) =>
            read_satellites f (open (unlines ls')) iss' buf1 (advance k ln)
              (i + 1) n (sats ++ [sat])
        end
      with
      | SatDone is1 ln1 sats1 =>
          exists j : nat,
            (j <= List.length ls)%nat
            /\ is1 = open (unlines (skipn j ls))
            /\ ln1 = advance j ln
            /\ forall X : list ascii,
                 match read_block iss1 with
                 | BlockEnd iss' =>
                     read_satellites f (open (unlines ls' ++ X)) iss' buf1
                       (advance k ln) i n sats
                 | BlockBad => SatError (advance k ln)
                 | BlockRead iss' None =>
                     read_satellites f (open (unlines ls' ++ X)) iss' buf1
                       (advance k ln) (i + 1) n sats
                 | BlockRead iss' (Some sat) =>
                     read_satellites f (open (unlines ls' ++ X)) iss' buf1
                       (advance k ln) (i + 1) n (sats ++ [sat])
                 end
                 = SatDone (open (unlines (skipn j ls) ++ X)) ln1 sats1
      | SatError ln1 =>
          exists j : nat, (j <= S (List.length ls))%nat /\ ln1 = advance j ln
      | SatUnfinished => True
      end).
  { intros k ls' iss1 buf1 Hls' Hk.
    assert (Hone : Forall one_line ls').
    { subst ls'. clear - Hls. revert k. induction Hls; intros [| k];
        cbn [skipn]; auto. }
    assert (Hlen : (k + List.length ls' = List.length ls)%nat).
    { subst ls'. rewrite length_skipn. lia. }
    assert (Hshift :
      forall i' sats' iss',
        match read_satellites f (open (unlines ls')) iss' buf1 (advance k ln)
                i' n sats' with
        | SatDone is1 ln1 sats1 =>
            exists j : nat,
              (j <= List.length ls)%nat
              /\ is1 = open (unlines (skipn j ls))
              /\ ln1 = advance j ln
              /\ forall X : list ascii,
                   read_satellites f (open (unlines ls' ++ X)) iss' buf1
                     (advance k ln) i' n sats'
                   = SatDone (open (unlines (skipn j ls) ++ X)) ln1 sats1
        | SatError ln1 =>
            exists j : nat,
              (j <= S (List.length ls))%nat /\ ln1 = advance j ln
        | SatUnfinished => True
        end).
    { intros i' sats' iss'.
      specialize (IH ls' iss' buf1 (advance k ln) i' n sats' Hone).
      destruct (read_satellites f (open (unlines ls')) iss' buf1
                  (advance k ln) i' n sats') as [is1 ln1 sats1 | ln1 |].
      - destruct IH as (j & Hj & His & Hln & HX).
        exists (j + k)%nat. subst ls'.
        rewrite skipn_skipn in His, HX.
        rewrite advance_add in Hln.
        split; [lia |]. split; [exact His |]. split; [exact Hln |]. exact HX.
      - destruct IH as (j & Hj & Hln).
        exists (j + k)%nat. rewrite advance_add in Hln.
        split; [lia | exact Hln].
      - exact Logic.I. }
    destruct (read_block iss1) as [iss' | | iss' [sat |]].
    - apply Hshift.
    - exists k. split; [lia | reflexivity].
    - apply Hshift.
    - apply Hshift. }
  destruct (eof iss).
  - destruct ls as [| l ls'].
    + cbn. exists 1%nat. split; [lia | reflexivity].
    + rewrite unlines_cons_nil.
      inversion Hls as [| ? ? Hl Hls']; subst.
      rewrite getline_line by assumption. cbn [fail open failbit].
      specialize (Hnext 1%nat ls' (open l) l eq_refl
                    ltac:(cbn [List.length]; lia)).
      cbn [advance] in Hnext.
      destruct (match read_block (open l) with
                | BlockEnd iss' => _ | BlockBad => _
                | BlockRead iss' None => _ | BlockRead iss' (Some sat) => _
                end) as [is1 ln1 sats1 | ln1 |] eqn:E.
      * destruct Hnext as (j & Hj & His & Hln & HX).
        exists j.
        split; [exact Hj |]. split; [exact His |]. split; [exact Hln |].
        intros X. rewrite <- app_assoc. cbn [app].
        rewrite getline_line by assumption. cbn [fail open failbit].
        apply HX.
      * exact Hnext.
      * exact Logic.I.
  - specialize (Hnext 0%nat ls iss buf eq_refl ltac:(lia)).
    cbn [advance] in Hnext.
    destruct (match read_block iss with
              | BlockEnd iss' => _ | BlockBad => _
              | BlockRead iss' None => _ | BlockRead iss' (Some sat) => _
              end) as [is1 ln1 sats1 | ln1 |] eqn:E.
    + destruct Hnext as (j & Hj & His & Hln & HX).
      exists j.
      split; [exact Hj |]. split; [exact His |]. split; [exact Hln |].
      intros X. apply HX.
    + exact Hnext.
    + exact Logic.I.
Qed.


Lemma Forall_skipn {A : Type} (P : A -> Prop) (l : list A) (j : nat) :
  Forall P l -> Forall P (skipn j l).
Proof.
  intros H. revert j. induction H; intros [| j]; cbn [skipn]; auto.
Qed.

Lemma unlines_skipn_length (ls : list (list ascii)) (j : nat) :
  (List.length (unlines (skipn j ls)) <= List.length (unlines ls))%nat.
Proof.
  revert j. induction ls as [| l ls IH]; intros [| j]; cbn [skipn]; try lia.
  rewrite unlines_cons_nil, length_app. cbn [List.length].
  specialize (IH j). lia.
Qed.

(** The line loop on complete lines that it accepts: with more input
    behind them it takes the same lines, pushes the same constituents and
    goes on behind them with the line count it has reached.  The line
    numbers that come up must not wrap around to 0. *)
Lemma parse_prefix (m : nat) :
  forall (ls : list (list ascii)) (f : nat) (ln : Z) cs cache cs' cache',
    (List.length ls <= m)%nat -> Forall one_line ls ->
    (forall j : nat, (1 <= j <= S (List.length ls))%nat -> advance j ln <> 0) ->
    parse f (open (unlines ls)) ln cs cache = Returned 0 cs' cache' ->
    forall X : list ascii,
      parse (S (List.length (unlines ls ++ X))) (open (unlines ls ++ X))
        ln cs cache
      = parse (S (List.length X)) (open X)
          (advance (List.length ls) ln) cs' cache'.
Proof.
  induction m as [| m IH];
    intros ls f ln cs cache cs' cache' Hm Hls Hwrap H X.
  { destruct ls; [| cbn in Hm; lia].
    destruct f; [discriminate H |]. cbn in H. inversion H; subst.
    reflexivity. }
  destruct f as [| f]; [discriminate H |].
  destruct ls as [| l ls'].
  { cbn in H. inversion H; subst. reflexivity. }
  inversion Hls as [| ? ? Hl Hls']; subst.
  cbn [List.length] in Hm, Hwrap |- *.
  assert (Hline : incr ln <> 0).
  { apply (Hwrap 1%nat). lia. }
  (* the loop goes on behind [j] more lines *)
  assert (Hgo :
    forall (j f1 : nat) cs1 c1,
      (j <= List.length ls')%nat ->
      parse f1 (open (unlines (skipn j ls'))) (advance (S j) ln) cs1 c1
      = Returned 0 cs' cache' ->
      parse (List.length (l ++ newline :: (unlines ls' ++ X)))
        (open (unlines (skipn j ls') ++ X)) (advance (S j) ln) cs1 c1
      = parse (S (List.length X)) (open X)
          (advance (S (List.length ls')) ln) cs' cache').
  { intros j f1 cs1 c1 Hj H1.
    pose proof (unlines_skipn_length ls' j) as Hlen.
    rewrite (parse_any_fuel
               (S (List.length (unlines (skipn j ls') ++ X)))
               (List.length (l ++ newline :: (unlines ls' ++ X)))).
    2: { cbn [rest open]. lia. }
    2: { cbn [rest open]. rewrite !length_app. cbn [List.length].
         rewrite !length_app. lia. }
    rewrite (IH (skipn j ls') f1 (advance (S j) ln) cs1 c1 cs' cache').
    - rewrite advance_add. f_equal. rewrite length_skipn. f_equal. lia.
    - rewrite length_skipn. lia.
    - now apply Forall_skipn.
    - intros k Hk. rewrite advance_add. apply Hwrap.
      rewrite length_skipn in Hk. lia.
    - exact H1. }
  rewrite unlines_cons_nil in H. rewrite unlines_cons.
  cbn [parse_lines] in H |- *.
  cbn [good open eofbit failbit negb andb] in H |- *.
  rewrite getline_line in H |- * by assumption.
  cbn [fail open failbit] in H |- *.
  change (incr ln) with (advance 1 ln) in H |- *.
  destruct l as [| c buf'].
  { apply (Hgo 0%nat f cs cache); [lia | exact H]. }
  destruct (Ascii.eqb c "#").
  { apply (Hgo 0%nat f cs cache); [lia | exact H]. }
  destruct (read_string (open (c :: buf'))) as [iss1 name_].
  destruct (read_string iss1) as [iss2 kind].
  assert (Hbad : forall cs1 c1,
             Returned (advance 1 ln) cs1 c1 <> Returned 0 cs' cache').
  { intros cs1 c1 E. inversion E. contradiction. }
  destruct (negb (good iss2)); [now apply Hbad in H |].
  destruct (kind_is kind "Basic").
  { destruct (read_doubles numVterms iss2) as [iss3 [V |]];
      [| now apply Hbad in H].
    destruct (read_doubles 6 iss3) as [iss4 [u6 |]]; [| now apply Hbad in H].
    destruct (read_unsigned iss4) as [iss5 f_formula].
    destruct (fail iss5); [now apply Hbad in H |].
    destruct (Basic _ _ _ _ _ _ _ _); cbn [push] in H |- *;
      [| discriminate H].
    apply (Hgo 0%nat f); [lia | exact H]. }
  destruct (kind_is kind "Doodson").
  { destruct (read_doubles numVterms iss2) as [iss3 [V |]];
      [| now apply Hbad in H].
    destruct (read_unsigned iss3) as [iss4 numsats].
    destruct (fail iss4); [now apply Hbad in H |].
    pose proof (read_satellites_prefix
                  (satellites_fuel (open (unlines ls')) iss4)
                  ls' iss4 (c :: buf') (advance 1 ln) 0 numsats [] Hls')
      as Hsat.
    destruct (read_satellites (satellites_fuel (open (unlines ls')) iss4)
                (open (unlines ls')) iss4 (c :: buf') (advance 1 ln)
                0 numsats []) as [is1 ln1 sats1 | ln1 |].
    - destruct Hsat as (j & Hj & His & Hln & HX). subst is1 ln1.
      rewrite (read_satellites_more_fuel
                 (satellites_fuel (open (unlines ls')) iss4)
                 (satellites_fuel (open (unlines ls' ++ X)) iss4)).
      2: { unfold satellites_fuel. cbn [rest open]. rewrite length_app. lia. }
      2: { rewrite HX. discriminate. }
      rewrite HX. rewrite advance_add in H |- *.
      replace (j + 1)%nat with (S j) in H |- * by lia.
      destruct (Doodson _ _ _ _ _ _); cbn [push] in H |- *;
        [| discriminate H].
      apply (Hgo j f); [lia | exact H].
    - exfalso. destruct Hsat as (j & Hj & Hln). subst ln1.
      rewrite advance_add in H. apply (Hwrap (j + 1)%nat); [lia |].
      now inversion H.
    - discriminate H. }
  destruct (kind_is kind "Compound"); [| now apply Hbad in H].
  destruct (Compound _ _ _ _ _ _ _) as [[c' cache1] |]; [| discriminate H].
  apply (Hgo 0%nat f); [lia | exact H].
Qed.

End Prefix.

Section AcceptedPrefix.

Context {RT : Runtime}.
Context (IX : Indices).
Context (firstYear lastYear epochForSpeed : year_t).

Import Stream Text StreamFacts Consumption.

(** parseLegacyInput reads forward only: the lines it accepts are read
    the same way whatever follows them, and the rest of the input is
    parsed from the line count and with the constituents and the cache
    that the accepted lines leave behind. *)
Lemma parseLegacyInput_prefix (ls : list (list ascii)) (X : list ascii)
    cs cache cs' cache' :
  Forall one_line ls ->
  Z.of_nat (List.length ls) + 1 < 2 ^ 32 ->
  parseLegacyInput IX (open (unlines ls))
    firstYear lastYear epochForSpeed cs cache
  = Returned 0 cs' cache' ->
  parseLegacyInput IX (open (unlines ls ++ X))
    firstYear lastYear epochForSpeed cs cache
  = parse_lines IX (S (List.length X)) (open X) (Z.of_nat (List.length ls))
      firstYear lastYear epochForSpeed cs' cache'.
Proof.
  intros Hls Hcount H. unfold parseLegacyInput in H |- *.
  cbn [good open eofbit failbit negb andb rest] in H |- *.
  rewrite (parse_any_fuel IX firstYear lastYear epochForSpeed
             (S (List.length (unlines ls ++ X)))
             (2 + List.length (unlines ls ++ X)))
    by (cbn [rest open]; lia).
  assert (Hwrap : forall j : nat,
             (1 <= j <= S (List.length ls))%nat -> advance j 0 <> 0).
  { intros j Hj. rewrite advance_small by lia. lia. }
  rewrite (parse_prefix IX firstYear lastYear epochForSpeed
             (List.length ls) ls _ 0 cs cache cs' cache' (le_n _) Hls
             Hwrap H).
  rewrite advance_small by lia. reflexivity.
Qed.

End AcceptedPrefix.


Definition catalog_head : list (list ascii) :=
  [comment_line; list_ascii_of_string "2MK3 Compound 1 -1 2"].


(** What parseLegacyInput makes of complete lines that it accepts does
    not depend on what follows them: with more input behind them it
    pushes the same constituents and then parses the rest from the line
    count, the constituents and the cache that the accepted lines leave
    (for fewer than 2^32 - 1 lines, the range of the line counter). *)
Theorem parseLegacyInput_reads_forward {RT : Runtime} (IX : Indices)
    (firstYear lastYear epochForSpeed : year_t)
    (accepted : list (list ascii)) (more : list ascii)
    (cs cs' : list Constituent) (cache cache' : Cache)
    (Hlines : Forall Text.one_line accepted)
    (Hcount : Z.of_nat (List.length accepted) + 1 < 2 ^ 32)
    (Haccepted :
       parseLegacyInput IX (Stream.open (Text.unlines accepted))
         firstYear lastYear epochForSpeed cs cache
       = Returned 0 cs' cache') :
  parseLegacyInput IX (Stream.open (Text.unlines accepted ++ more))
    firstYear lastYear epochForSpeed cs cache
  = parse_lines IX (S (List.length more)) (Stream.open more)
      (Z.of_nat (List.length accepted))
      firstYear lastYear epochForSpeed cs' cache'.
Proof. now apply parseLegacyInput_prefix. Qed.

Lemma parseLegacyInput_reads_forward_witness :
  exists (cs' : list Constituent) (cache' : Cache),
    parseLegacyInput (RT := Reference.runtime) Congen_indices
      (Stream.open (Text.unlines catalog_head))
      1970 1970 1900 [] Cache_initial
    = Returned 0 cs' cache'
    /\ parseLegacyInput (RT := Reference.runtime) Congen_indices
         (Stream.open (Text.unlines catalog_head ++ compound_record))
         1970 1970 1900 [] Cache_initial
       = parse_lines (RT := Reference.runtime) Congen_indices
           (S (List.length compound_record)) (Stream.open compound_record) 2
           1970 1970 1900 cs' cache'.
Proof.
  destruct (parseLegacyInput (RT := Reference.runtime) Congen_indices
              (Stream.open (Text.unlines catalog_head))
              1970 1970 1900 [] Cache_initial)
    as [n cs' cache' | |] eqn:E.
  - assert (Hn : n = 0) by (vm_compute in E; now inversion E).
    subst n. exists cs', cache'. split; [reflexivity |].
    apply (parseLegacyInput_reads_forward (RT := Reference.runtime)
             Congen_indices 1970 1970 1900 catalog_head compound_record
             [] cs' Cache_initial cache').
    + repeat constructor.
    + vm_compute. reflexivity.
    + exact E.
  - vm_compute in E. discriminate E.
  - vm_compute in E. discriminate E.
Defined.

(** ** Records of numbers *)

Section RecordFields.

Context {RT : Runtime}.
Context (IX : Indices).
Context (firstYear lastYear epochForSpeed : year_t).

Import Stream Text StreamFacts NumberFacts.












End RecordFields.

Section UnknownFormula.

Context {RT : Runtime}.
Context (IX : Indices).


End UnknownFormula.







(** ** Doodson records *)

Section DoodsonRecords.

Context {RT : Runtime}.
Context (IX : Indices).
Context (firstYear lastYear epochForSpeed : year_t).

Import Stream Text StreamFacts NumberFacts.


















End DoodsonRecords.

Section DoodsonInput.

Context {RT : Runtime}.
Context (IX : Indices).
Context (firstYear lastYear epochForSpeed : year_t).

Import Stream Text StreamFacts NumberFacts.


End DoodsonInput.







(** ** Printed numbers *)

From Stdlib Require Import NArith.
From Stdlib Require DecimalPos DecimalFacts DecimalN.

Module PrintFacts.

Lemma length_append (a b : string) :
  String.length (a ++ b) = (String.length a + String.length b)%nat.
Proof. induction a as [| c a IH]; cbn; [reflexivity | now rewrite IH]. Qed.

Lemma length_substring (s : string) :
  forall n m : nat,
    (n + m <= String.length s)%nat -> String.length (substring n m s) = m.
Proof.
  induction s as [| c s IH]; intros [| n] [| m] H; cbn in *;
    try lia; try reflexivity.
  - f_equal. apply IH. lia.
  - apply IH. lia.
  - apply IH. lia.
Qed.

Lemma length_repeat_string (n : nat) (c : ascii) :
  String.length (Dbl.repeat_string n c) = n.
Proof. induction n as [| n IH]; cbn; [reflexivity | now rewrite IH]. Qed.

(** The decimal digit [d] put before the little-endian number [u]. *)
Definition digit (d : N) (u : Decimal.uint) : Decimal.uint :=
  match d with
  | 0 => Decimal.D0 u | 1 => Decimal.D1 u | 2 => Decimal.D2 u
  | 3 => Decimal.D3 u | 4 => Decimal.D4 u | 5 => Decimal.D5 u
  | 6 => Decimal.D6 u | 7 => Decimal.D7 u | 8 => Decimal.D8 u
  | _ => Decimal.D9 u
  end%N.

(** The last [k] decimal digits of [n], the lowest first. *)
Fixpoint lu (k : nat) (n : N) : Decimal.uint :=
  match k with
  | O => Decimal.Nil
  | S k' => digit (n mod 10) (lu k' (n / 10))
  end.

Lemma of_lu_digit (d : N) (u : Decimal.uint) :
  (d < 10)%N ->
  DecimalPos.Unsigned.of_lu (digit d u)
  = (d + 10 * DecimalPos.Unsigned.of_lu u)%N.
Proof.
  intros Hd.
  assert (H : (d = 0 \/ d = 1 \/ d = 2 \/ d = 3 \/ d = 4 \/ d = 5 \/ d = 6
               \/ d = 7 \/ d = 8 \/ d = 9)%N) by lia.
  rewrite DecimalPos.Unsigned.of_lu_eqn.
  repeat (destruct H as [-> | H]; [reflexivity |]). subst d. reflexivity.
Qed.

Lemma of_lu_lu (k : nat) :
  forall n : N, (n < 10 ^ N.of_nat k)%N -> DecimalPos.Unsigned.of_lu (lu k n) = n.
Proof.
  induction k as [| k IH]; intros n Hn.
  - cbn in *. lia.
  - cbn [lu]. rewrite of_lu_digit by (apply N.mod_lt; lia).
    rewrite IH.
    + pose proof (N.div_mod n 10 ltac:(lia)). lia.
    + rewrite Nat2N.inj_succ, N.pow_succ_r' in Hn.
      apply N.Div0.div_lt_upper_bound. lia.
Qed.

Lemma nb_digits_lu (k : nat) (n : N) : Decimal.nb_digits (lu k n) = k.
Proof.
  revert n. induction k as [| k IH]; intros n; [reflexivity |].
  cbn [lu]. specialize (IH (n / 10)%N).
  destruct (n mod 10)%N as [| [[[[]|[]|]|[[]|[]|]|]|[[[]|[]|]|[[]|[]|]|]|]];
    cbn [digit Decimal.nb_digits]; now rewrite IH.
Qed.

Lemma length_string_of_uint (d : Decimal.uint) :
  String.length (DecimalString.NilEmpty.string_of_uint d) = Decimal.nb_digits d.
Proof. induction d; cbn; congruence. Qed.

(** A number below 10^k prints with at most [k] digits. *)
Lemma digits_of_length (k : nat) (n : Z) :
  (0 < k)%nat -> 0 <= n < 10 ^ Z.of_nat k ->
  (0 < String.length (Dbl.digits_of n) <= k)%nat.
Proof.
  intros Hk Hn. unfold Dbl.digits_of.
  assert (HN : (Z.to_N n < 10 ^ N.of_nat k)%N).
  { apply N2Z.inj_lt. rewrite N2Z.inj_pow, Z2N.id, nat_N_Z by lia. lia. }
  set (d := Decimal.rev (lu k (Z.to_N n))).
  assert (Hd : N.to_uint (Z.to_N n) = Decimal.unorm d).
  { rewrite <- DecimalPos.Unsigned.to_of. f_equal. subst d.
    rewrite DecimalPos.Unsigned.of_lu_rev. now rewrite of_lu_lu. }
  assert (Hnil : d <> Decimal.Nil).
  { apply DecimalFacts.nb_digits_n0. subst d.
    rewrite DecimalFacts.nb_digits_rev, nb_digits_lu. lia. }
  pose proof (DecimalFacts.nb_digits_unorm d Hnil) as Hlen.
  subst d. rewrite DecimalFacts.nb_digits_rev, nb_digits_lu in Hlen.
  rewrite Hd.
  assert (Hnz : Decimal.nb_digits (Decimal.unorm (Decimal.rev (lu k (Z.to_N n))))
                <> 0%nat).
  { unfold Decimal.unorm.
    destruct (Decimal.nzhead (Decimal.rev (lu k (Z.to_N n)))) eqn:E;
      cbn; lia. }
  unfold DecimalString.NilZero.string_of_uint.
  destruct (Decimal.unorm (Decimal.rev (lu k (Z.to_N n)))) eqn:E;
    [cbn in Hnz; lia | ..];
    rewrite length_string_of_uint; cbn [Decimal.nb_digits] in *; lia.
Qed.

End PrintFacts.

Module QuoteNumbers.

Import Harmgen PrintFacts.

Lemma fixed_point_length (k : nat) (n : Z) (decimals : nat) :
  (decimals < k)%nat -> 0 <= n < 10 ^ Z.of_nat k ->
  (String.length (Dbl.fixed_point n decimals) <= k + 1)%nat.
Proof.
  intros Hk Hn. unfold Dbl.fixed_point.
  pose proof (digits_of_length k n ltac:(lia) Hn) as Hds.
  set (ds := Dbl.digits_of n) in *.
  set (padded := (Dbl.repeat_string (S decimals - String.length ds) "0"
                  ++ ds)%string).
  assert (Hp : String.length padded
               = Nat.max (String.length ds) (S decimals)).
  { subst padded. rewrite length_append, length_repeat_string. lia. }
  rewrite !length_append, !length_substring by lia.
  cbn [String.length]. lia.
Qed.

Lemma pad_left_0 (s : string) : Dbl.pad_left 0 s = s.
Proof. reflexivity. Qed.

Lemma digits2_pos_bound (m : positive) :
  Z.pos m < 2 ^ Z.pos (digits2_pos m).
Proof.
  induction m as [m IH | m IH |]; cbn [digits2_pos]; [| | reflexivity];
    rewrite Pos2Z.inj_succ, Z.pow_succ_r by lia; lia.
Qed.

(** The mantissa of a binary64 value has at most 53 bits. *)
Lemma valid_mantissa (s : bool) (m : positive) (e : Z) :
  valid_binary (S754_finite s m e) = true -> Z.pos m < 2 ^ 53.
Proof.
  cbn [valid_binary]. unfold bounded, canonical_mantissa, fexp.
  intros H. apply andb_prop in H. destruct H as [H _].
  apply Z.eqb_eq in H.
  pose proof (digits2_pos_bound m) as Hm.
  assert (Hd : Z.pos (digits2_pos m) <= 53) by (unfold FloatOps.prec in H; lia).
  eapply Z.lt_le_trans; [exact Hm |].
  apply Z.pow_le_mono_r; lia.
Qed.

Lemma scaled_round_nonneg (m : positive) (e : Z) (decimals : nat) :
  0 <= Dbl.scaled_round m e decimals.
Proof.
  unfold Dbl.scaled_round.
  assert (Hnum : 0 <= Z.pos m * 10 ^ Z.of_nat decimals)
    by (apply Z.mul_nonneg_nonneg; [lia | apply Z.pow_nonneg; lia]).
  destruct e as [| p | p].
  - rewrite Z.mul_1_r. exact Hnum.
  - apply Z.mul_nonneg_nonneg; [exact Hnum | apply Z.pow_nonneg; lia].
  - assert (Hden : 0 < 2 ^ Z.pos p) by (apply Z.pow_pos_nonneg; lia).
    pose proof (Z.div_pos _ _ Hnum Hden) as Hq.
    destruct (_ ?= _); [destruct (Z.even _) | |]; lia.
Qed.

(** At most 180 in absolute value: at most 18000000 hundred-thousandths. *)
Lemma scaled_round_180 (m : positive) (p : positive) :
  Z.pos m <= 180 * 2 ^ Z.pos p ->
  Dbl.scaled_round m (Z.neg p) 5 <= 18000000.
Proof.
  intros Hm. unfold Dbl.scaled_round.
  change (10 ^ Z.of_nat 5) with 100000.
  assert (Hden : 0 < 2 ^ Z.pos p) by (apply Z.pow_pos_nonneg; lia).
  set (den := 2 ^ Z.pos p) in *.
  set (num := Z.pos m * 100000).
  pose proof (Z.div_mod num den ltac:(lia)) as Hdm.
  pose proof (Z.mod_pos_bound num den Hden) as Hr.
  assert (Hnum : num <= 18000000 * den) by (subst num; lia).
  assert (Hq : num / den <= 18000000).
  { apply Z.lt_succ_r. apply Z.div_lt_upper_bound; lia. }
  assert (Hq1 : 0 < num mod den -> num / den + 1 <= 18000000).
  { intros Hpos.
    assert (num / den < 18000000); [| lia].
    apply Z.div_lt_upper_bound; [lia |].
    destruct (Z.eq_dec (num / den) 18000000) as [E | E]; [| nia].
    rewrite E in Hdm. lia. }
  destruct (2 * (num mod den) ?= den) eqn:C.
  - apply Z.compare_eq in C. destruct (Z.even _); lia.
  - exact Hq.
  - apply Z.compare_gt_iff in C. lia.
Qed.

Definition SF180 (s : bool) : spec_float :=
  S754_finite s 6333186975989760 (-45).

(** What the assertion of [quote] lets through. *)
Lemma in_range_scaled (d : float) :
  ((-180 <=? d) && (d <=? 180))%float = true ->
  match Prim2SF d with
  | S754_zero _ => True
  | S754_finite _ m e => Dbl.scaled_round m e 5 <= 18000000
  | _ => False
  end.
Proof.
  intros H. apply andb_prop in H. destruct H as [Hlo Hhi].
  rewrite FloatAxioms.leb_spec in Hlo, Hhi.
  change (Prim2SF (-180)%float) with (SF180 true) in Hlo.
  change (Prim2SF 180%float) with (SF180 false) in Hhi.
  pose proof (Prim2SF_valid d) as Hv.
  destruct (Prim2SF d) as [s | [|] | | s m e];
    try exact Logic.I; try discriminate.
  pose proof (valid_mantissa _ _ _ Hv) as Hm.
  assert (Hbound : e < -45 \/ e = -45 /\ Z.pos m <= 6333186975989760).
  { unfold SF180, SFleb, SFcompare in Hlo, Hhi.
    destruct s.
    - destruct (Z.compare_spec (-45) e) as [E | E | E];
        [| discriminate Hlo | left; lia].
      right. split; [lia |].
      rewrite Pos.compare_cont_spec in Hlo. cbn [Pos.switch_Eq] in Hlo.
      destruct (6333186975989760 ?= m)%positive eqn:E'.
      * apply Pos.compare_eq_iff in E'. rewrite <- E'. reflexivity.
      * discriminate Hlo.
      * apply Pos.compare_gt_iff in E'. apply Pos2Z.pos_lt_pos in E'.
        apply Z.lt_le_incl. exact E'.
    - destruct (Z.compare_spec e (-45)) as [E | E | E];
        [| left; lia | discriminate Hhi].
      right. split; [lia |].
      rewrite Pos.compare_cont_spec in Hhi. cbn [Pos.switch_Eq] in Hhi.
      destruct (m ?= 6333186975989760)%positive eqn:E'.
      * apply Pos.compare_eq_iff in E'. rewrite E'. reflexivity.
      * apply Pos.compare_lt_iff in E'. apply Pos2Z.pos_lt_pos in E'.
        apply Z.lt_le_incl. exact E'.
      * discriminate Hhi. }
  destruct e as [| p | p]; [lia | lia |].
  apply scaled_round_180.
  destruct Hbound as [He | [He Hle]].
  - assert (H46 : 2 ^ 46 <= 2 ^ Z.pos p) by (apply Z.pow_le_mono_r; lia).
    change (2 ^ 53) with (128 * 2 ^ 46) in Hm. lia.
  - inversion He; subst p. change (2 ^ 45) with 35184372088832. lia.
Qed.

Lemma sprintf_f_5_length (d : float) :
  ((-180 <=? d) && (d <=? 180))%float = true ->
  (String.length (Dbl.sprintf_f false 0 5 d) <= 10)%nat.
Proof.
  intros H. apply in_range_scaled in H.
  unfold Dbl.sprintf_f. rewrite pad_left_0.
  destruct (Prim2SF d) as [s | s | | s m e]; try contradiction.
  - destruct s; vm_compute; lia.
  - pose proof (scaled_round_nonneg m e 5) as H0.
    pose proof (fixed_point_length 8 (Dbl.scaled_round m e 5) 5
                  ltac:(lia) ltac:(change (10 ^ Z.of_nat 8) with 100000000; lia))
      as Hlen.
    rewrite length_append. destruct s; cbn [String.length]; lia.
Qed.

(** [quote] for a latitude or a longitude never writes past its buffer
    of 11 characters: it fails on its assertion alone, and otherwise
    returns the text that [sprintf] made. *)
Theorem quote_double_fits (d : float) (notNull : bool) :
  quote_double d notNull
  = if notNull then
      if ((-180 <=? d) && (d <=? 180))%float
      then Some (Dbl.sprintf_f false 0 5 d)
      else None
    else Some "DEFAULT"%string.
Proof.
  unfold quote_double. destruct notNull; [| reflexivity].
  cbn [negb orb].
  destruct ((-180 <=? d) && (d <=? 180))%float eqn:E; [| reflexivity].
  cbn [Assert.bind Assert.assert]. unfold sprintf_into.
  pose proof (sprintf_f_5_length d E) as Hlen.
  destruct (Nat.ltb_spec (String.length (Dbl.sprintf_f false 0 5 d)) 11);
    [reflexivity | lia].
Qed.

(** [quote] for a bearing never writes past its buffer of 4 characters:
    it fails on its assertion alone. *)
Theorem quote_unsigned_fits (u : Z) (notNull : bool) (Hu : 0 <= u) :
  quote_unsigned u notNull
  = if notNull then
      if u <? 360 then Some (Dbl.digits_of u) else None
    else Some "DEFAULT"%string.
Proof.
  unfold quote_unsigned. destruct notNull; [| reflexivity].
  cbn [negb orb].
  destruct (Z.ltb_spec u 360) as [Hlt | Hge]; [| reflexivity].
  cbn [Assert.bind Assert.assert]. unfold sprintf_into.
  pose proof (digits_of_length 3 u ltac:(lia)
                ltac:(change (10 ^ Z.of_nat 3) with 1000; lia)) as Hlen.
  destruct (Nat.ltb_spec (String.length (Dbl.digits_of u)) 4);
    [reflexivity | lia].
Qed.

End QuoteNumbers.

Lemma quote_unsigned_fits_witness :
  Harmgen.quote_unsigned 359 true = Some "359"%string.
Proof.
  refine (QuoteNumbers.quote_unsigned_fits 359 true _). lia.
Defined.
